(** * Discord interaction responses (src/api/discord/interactions.js)

    A shallow embedding of the payload assembly and attachment dispatch of
    [callback] and [followup], over a small model of the JavaScript values the
    module handles: primitives, and plain objects, arrays and Buffers living in
    a store of mutable objects, so that the writes the module performs on the
    objects it is handed stay visible to whoever else holds them. *)

From Stdlib Require Import ZArith String Ascii List Bool Lia DecimalString.
From stdpp Require Import base list strings.
Import ListNotations.
Local Open Scope string_scope.
Local Open Scope list_scope.

(** ** Values and the object store *)

Abbreviation loc := nat.

(** Numbers are the integers; strings are their UTF-8 bytes, which agrees
    with JavaScript on emptiness, the only use the module makes of a string's
    length. *)
Inductive value : Type :=
| VUndef
| VNull
| VBool (b : bool)
| VNum (n : Z)
| VStr (s : string)
| VRef (l : loc).

#[global] Instance value_eq_dec : EqDecision value.
Proof. solve_decision. Defined.

Inductive kind : Type :=
| Plain
| Array (elems : list value)
| Buffer (bytes : list Byte.byte).

(** Every object carries named properties in insertion order; arrays and
    Buffers have their elements besides. *)
Record object : Type := Object { okind : kind; oprops : list (string * value) }.

Abbreviation heap := (list object).

Inductive error : Type :=
| TypeError
| Error (msg : value)
| Rejected (info : value).

Inductive result (A : Type) : Type :=
| Ok (a : A)
| Throw (e : error).
Arguments Ok {A} a.
Arguments Throw {A} e.

(** One part of a multipart form: [form.append(name, value, filename)]. *)
Record part : Type := Part { pname : string; pvalue : value; pfilename : value }.

(** The calls that leave the process. *)
Inductive event : Type :=
| EAttempt (method path : string) (body : value)
| EHttps (method url path : string) (headers : list (string * string)) (body : value)
| EFetch (url : string)
| EMultipart (method url : string) (form : list part) (headers : list (string * string)).

Record world : Type := World {
  store : heap;
  net : list event;
  console : list error
}.

Definition with_store (w : world) (h : heap) : world :=
  {| store := h; net := net w; console := console w |}.

Definition with_event (w : world) (e : event) : world :=
  {| store := store w; net := net w ++ [e]; console := console w |}.

Definition with_log (w : world) (e : error) : world :=
  {| store := store w; net := net w; console := console w ++ [e] |}.

(** ** Primitive operations of the language *)

Definition is_nullish (v : value) : bool :=
  match v with VUndef | VNull => true | _ => false end.

Definition truthy (v : value) : bool :=
  match v with
  | VUndef | VNull => false
  | VBool b => b
  | VNum n => negb (n =? 0)%Z
  | VStr s => negb (s =? "")
  | VRef _ => true
  end.

Definition strict_eq (a b : value) : bool :=
  match a, b with
  | VUndef, VUndef | VNull, VNull => true
  | VBool x, VBool y => Bool.eqb x y
  | VNum x, VNum y => (x =? y)%Z
  | VStr x, VStr y => (x =? y)
  | VRef x, VRef y => Nat.eqb x y
  | _, _ => false
  end.

(** ToNumber on [undefined], [null], booleans and numbers; [None] is NaN.
    A string or an object is not converted here, though ToNumber parses the
    one and makes a primitive of the other: what is proved of a comparison
    is proved of values other than these. *)
Definition to_number (v : value) : option Z :=
  match v with
  | VNum n => Some n
  | VBool b => Some (if b then 1 else 0)%Z
  | VNull => Some 0%Z
  | _ => None
  end.

Definition num_lt (a b : value) : bool :=
  match to_number a, to_number b with
  | Some x, Some y => (x <? y)%Z
  | _, _ => false
  end.

Definition num_ge (a b : value) : bool :=
  match to_number a, to_number b with
  | Some x, Some y => (y <=? x)%Z
  | _, _ => false
  end.

(** The decimal digits of [n]: what ToString and JSON.stringify print of an
    integer that a Number holds exactly, below 10^21 in size. *)
Definition string_of_Z (n : Z) : string := NilZero.string_of_int (Z.to_int n).
Definition string_of_nat (n : nat) : string := NilZero.string_of_uint (Nat.to_uint n).

Fixpoint assoc (k : string) (ps : list (string * value)) : option value :=
  match ps with
  | [] => None
  | (k', v) :: rest => if k =? k' then Some v else assoc k rest
  end.

(** [o[k] = x] on the property list: overwrite in place, or append. *)
Fixpoint assoc_set (k : string) (x : value) (ps : list (string * value))
  : list (string * value) :=
  match ps with
  | [] => [(k, x)]
  | (k', v) :: rest =>
      if k =? k' then (k', x) :: rest else (k', v) :: assoc_set k x rest
  end.

Fixpoint assoc_remove (k : string) (ps : list (string * value))
  : list (string * value) :=
  match ps with
  | [] => []
  | (k', v) :: rest =>
      if k =? k' then assoc_remove k rest else (k', v) :: assoc_remove k rest
  end.

Definition named (ps : list (string * value)) (k : string) : value :=
  match assoc k ps with Some v => v | None => VUndef end.

Definition byte_value (b : Byte.byte) : value := VNum (Z.of_N (Byte.to_N b)).

(** [v?.k] for a property name [k]: [undefined] on [undefined] and [null],
    and on a primitive without that property. *)
Definition prop (h : heap) (v : value) (k : string) : value :=
  match v with
  | VRef l =>
      match h !! l with
      | Some o =>
          match okind o with
          | Plain => named (oprops o) k
          | Array elems =>
              if k =? "length" then VNum (Z.of_nat (length elems))
              else named (oprops o) k
          | Buffer bytes =>
              if k =? "length" then VNum (Z.of_nat (length bytes))
              else named (oprops o) k
          end
      | None => VUndef
      end
  | VStr s => if k =? "length" then VNum (Z.of_nat (String.length s)) else VUndef
  | _ => VUndef
  end.

Definition char_at (s : string) (i : nat) : value :=
  match String.get i s with
  | Some c => VStr (String c EmptyString)
  | None => VUndef
  end.

(** [v?.[i]] for an index [i]. *)
Definition index (h : heap) (v : value) (i : nat) : value :=
  match v with
  | VRef l =>
      match h !! l with
      | Some o =>
          match okind o with
          | Plain => named (oprops o) (string_of_nat i)
          | Array elems => match elems !! i with Some x => x | None => VUndef end
          | Buffer bytes =>
              match bytes !! i with Some b => byte_value b | None => VUndef end
          end
      | None => VUndef
      end
  | VStr s => char_at s i
  | _ => VUndef
  end.

(** [v?.k1?.k2...] *)
Definition path (h : heap) (v : value) (ks : list string) : value :=
  fold_left (prop h) ks v.

Definition is_buffer (h : heap) (v : value) : bool :=
  match v with
  | VRef l =>
      match h !! l with
      | Some (Object (Buffer _) _) => true
      | _ => false
      end
  | _ => false
  end.

Definition is_string (v : value) : bool :=
  match v with VStr _ => true | _ => false end.

Definition write_prop (k : string) (x : value) (o : object) : object :=
  {| okind := okind o; oprops := assoc_set k x (oprops o) |}.

(** The store after [v.k = x]; a write to a primitive is dropped (the module
    runs in sloppy mode: its first statement is the string 'use-strict'). *)
Definition store_set (h : heap) (v : value) (k : string) (x : value) : heap :=
  match v with
  | VRef l =>
      match h !! l with
      | Some o => <[l := write_prop k x o]> h
      | None => h
      end
  | _ => h
  end.

(** ** The monad of the asynchronous functions: a world, and a result that is
    a value or a rejection *)

Definition M (A : Type) : Type := world -> result A * world.

Definition ret {A} (a : A) : M A := fun w => (Ok a, w).

Definition throw {A} (e : error) : M A := fun w => (Throw e, w).

Definition bind {A B} (m : M A) (k : A -> M B) : M B :=
  fun w =>
    match m w with
    | (Ok a, w') => k a w'
    | (Throw e, w') => (Throw e, w')
    end.

Definition try_catch {A} (m : M A) (handler : error -> M A) : M A :=
  fun w =>
    match m w with
    | (Ok a, w') => (Ok a, w')
    | (Throw e, w') => handler e w'
    end.

Declare Scope js_scope.
Delimit Scope js_scope with js.
Notation "'let!' x ':=' m 'in' k" := (bind m (fun x => k))
  (at level 10, x name, m at level 100, k at level 200) : js_scope.
Notation "'do!' m 'in' k" := (bind m (fun _ => k))
  (at level 10, m at level 100, k at level 200) : js_scope.
Local Open Scope js_scope.

(** [v.k]: a TypeError on [undefined] and [null]. *)
Definition get (v : value) (k : string) : M value :=
  fun w =>
    if is_nullish v then (Throw TypeError, w)
    else (Ok (prop (store w) v k), w).

(** [v[i]] *)
Definition get_index (v : value) (i : nat) : M value :=
  fun w =>
    if is_nullish v then (Throw TypeError, w)
    else (Ok (index (store w) v i), w).

(** [v?.[i]] *)
Definition get_opt_index (v : value) (i : nat) : M value :=
  fun w => (Ok (index (store w) v i), w).

(** [v?.k] *)
Definition get_opt (v : value) (k : string) : M value :=
  fun w => (Ok (prop (store w) v k), w).

Definition get_path (v : value) (ks : list string) : M value :=
  fun w => (Ok (path (store w) v ks), w).

(** [v.k = x] *)
Definition set (v : value) (k : string) (x : value) : M unit :=
  fun w =>
    if is_nullish v then (Throw TypeError, w)
    else (Ok tt, with_store w (store_set (store w) v k x)).

Definition alloc (o : object) : M value :=
  fun w => (Ok (VRef (length (store w))), with_store w (store w ++ [o])).

Definition new_object (ps : list (string * value)) : M value :=
  alloc {| okind := Plain; oprops := ps |}.

Definition new_array (elems : list value) : M value :=
  alloc {| okind := Array elems; oprops := [] |}.

Definition new_buffer (bytes : list Byte.byte) : M value :=
  alloc {| okind := Buffer bytes; oprops := [] |}.

Definition read {A} (f : heap -> A) : M A := fun w => (Ok (f (store w)), w).

(** [a ?? b], [b] evaluated only when needed. *)
Definition nullish_or (a : value) (b : M value) : M value :=
  if is_nullish a then b else ret a.

(** ** Strings of the language: template literals, encodeURI, JSON *)

Definition dquote : string := String "034" EmptyString.
Definition backslash : string := String "092" EmptyString.
Definition newline : string := String "010" EmptyString.

(** The zero-width space U+200B, in UTF-8. *)
Definition zwsp : string :=
  String "226" (String "128" (String "139" EmptyString)).

Fixpoint join (sep : string) (l : list string) : string :=
  match l with
  | [] => ""
  | [s] => s
  | s :: rest => s +:+ sep +:+ join sep rest
  end.

Definition hex_digit (upper : bool) (n : N) : ascii :=
  if (n <? 10)%N then ascii_of_N (48 + n)
  else ascii_of_N ((if upper then 55 else 87) + n).

Definition hex_byte (upper : bool) (c : ascii) : string :=
  let n := N_of_ascii c in
  String (hex_digit upper (n / 16)) (String (hex_digit upper (n mod 16)) EmptyString).

(** The characters encodeURI leaves alone: letters, digits and
    [; , / ? : @ & = + $ - _ . ! ~ * ' ( ) #]. *)
Definition uri_unescaped (c : ascii) : bool :=
  let n := N_of_ascii c in
  ((65 <=? n) && (n <=? 90) || (97 <=? n) && (n <=? 122)
   || (48 <=? n) && (n <=? 57)
   || existsb (N.eqb n)
        [59; 44; 47; 63; 58; 64; 38; 61; 43; 36; 45; 95; 46; 33; 126; 42; 39;
         40; 41; 35])%N.

Fixpoint encodeURI (s : string) : string :=
  match s with
  | EmptyString => EmptyString
  | String c rest =>
      if uri_unescaped c then String c (encodeURI rest)
      else "%" +:+ hex_byte true c +:+ encodeURI rest
  end.

Definition string_of_bytes (bs : list Byte.byte) : string := string_of_list_byte bs.

(** [`${v}`]. An array prints its elements separated by commas, [null] and
    [undefined] among them as nothing, an array inside itself as nothing. *)
Fixpoint to_string_at (fuel : nat) (h : heap) (stack : list loc) (v : value)
  : string :=
  match v with
  | VUndef => "undefined"
  | VNull => "null"
  | VBool b => if b then "true" else "false"
  | VNum n => string_of_Z n
  | VStr s => s
  | VRef l =>
      match h !! l with
      | Some o =>
          match okind o with
          | Plain => "[object Object]"
          | Buffer bytes => string_of_bytes bytes
          | Array elems =>
              match fuel with
              | O => ""
              | S f =>
                  if existsb (Nat.eqb l) stack then ""
                  else
                    join ","
                      (map (fun e => if is_nullish e then ""
                                     else to_string_at f h (l :: stack) e)
                           elems)
              end
          end
      | None => "[object Object]"
      end
  end.

Definition to_string (h : heap) (v : value) : string :=
  to_string_at (S (length h)) h [] v.

#[warnings="-register-all"]
Inductive json : Type :=
| JNull
| JBool (b : bool)
| JNum (n : Z)
| JStr (s : string)
| JArr (items : list json)
| JObj (fields : list (string * json)).

Definition json_field (j : json) (k : string) : option json :=
  match j with
  | JObj fields =>
      (fix find (fs : list (string * json)) : option json :=
         match fs with
         | [] => None
         | (k', v) :: rest => if k =? k' then Some v else find rest
         end) fields
  | _ => None
  end.

Definition json_keys (j : json) : list string :=
  match j with
  | JObj fields => map fst fields
  | _ => []
  end.

Fixpoint snapshot_fields (go : value -> option (option json))
    (ps : list (string * value)) : option (list (string * json)) :=
  match ps with
  | [] => Some []
  | (k, v) :: rest =>
      match go v with
      | None => None
      | Some r =>
          match snapshot_fields go rest with
          | None => None
          | Some fs => Some (match r with Some j => (k, j) :: fs | None => fs end)
          end
      end
  end.

Fixpoint snapshot_elems (go : value -> option (option json))
    (vs : list value) : option (list json) :=
  match vs with
  | [] => Some []
  | v :: rest =>
      match go v with
      | None => None
      | Some r =>
          match snapshot_elems go rest with
          | None => None
          | Some js => Some (match r with Some j => j | None => JNull end :: js)
          end
      end
  end.

Definition json_of_buffer (bytes : list Byte.byte) : json :=
  JObj [("type", JStr "Buffer");
        ("data", JArr (map (fun b => JNum (Z.of_N (Byte.to_N b))) bytes))].

(** What JSON.stringify walks through: [None] when the walk meets an object
    that is already open (a circular structure), [Some None] for a value that
    serialises to nothing ([undefined]). A property holding [undefined] is left
    out of its object; in an array it becomes [null]. A Buffer serialises
    through its toJSON. *)
Fixpoint snapshot (fuel : nat) (h : heap) (stack : list loc) (v : value)
  : option (option json) :=
  match v with
  | VUndef => Some None
  | VNull => Some (Some JNull)
  | VBool b => Some (Some (JBool b))
  | VNum n => Some (Some (JNum n))
  | VStr s => Some (Some (JStr s))
  | VRef l =>
      match fuel with
      | O => None
      | S f =>
          if existsb (Nat.eqb l) stack then None
          else
            match h !! l with
            | None => None
            | Some o =>
                match okind o with
                | Plain =>
                    match snapshot_fields (snapshot f h (l :: stack)) (oprops o) with
                    | Some fs => Some (Some (JObj fs))
                    | None => None
                    end
                | Array elems =>
                    match snapshot_elems (snapshot f h (l :: stack)) elems with
                    | Some js => Some (Some (JArr js))
                    | None => None
                    end
                | Buffer bytes => Some (Some (json_of_buffer bytes))
                end
            end
      end
  end.

Fixpoint escape (s : string) : string :=
  match s with
  | EmptyString => EmptyString
  | String c rest =>
      let n := N_of_ascii c in
      (if (n =? 34)%N then backslash +:+ dquote
       else if (n =? 92)%N then backslash +:+ backslash
       else if (n =? 8)%N then backslash +:+ "b"
       else if (n =? 12)%N then backslash +:+ "f"
       else if (n =? 10)%N then backslash +:+ "n"
       else if (n =? 13)%N then backslash +:+ "r"
       else if (n =? 9)%N then backslash +:+ "t"
       else if (n <? 32)%N then backslash +:+ "u00" +:+ hex_byte false c
       else String c EmptyString) +:+ escape rest
  end.

Definition quote (s : string) : string := dquote +:+ escape s +:+ dquote.

(** [JSON.stringify(v)] on the walked value. *)
Fixpoint render (j : json) : string :=
  match j with
  | JNull => "null"
  | JBool b => if b then "true" else "false"
  | JNum n => string_of_Z n
  | JStr s => quote s
  | JArr items => "[" +:+ join "," (map render items) +:+ "]"
  | JObj fields =>
      "{" +:+ join "," (map (fun kv => quote (fst kv) +:+ ":" +:+ render (snd kv)) fields)
      +:+ "}"
  end.

(** [JSON.stringify(v, null, 2)], [cur] being the indentation reached. *)
Fixpoint render_pretty (cur : string) (j : json) : string :=
  let inner := cur +:+ "  " in
  match j with
  | JArr [] => "[]"
  | JArr items =>
      "[" +:+ newline +:+ inner
      +:+ join ("," +:+ newline +:+ inner) (map (render_pretty inner) items)
      +:+ newline +:+ cur +:+ "]"
  | JObj [] => "{}"
  | JObj fields =>
      "{" +:+ newline +:+ inner
      +:+ join ("," +:+ newline +:+ inner)
            (map (fun kv => quote (fst kv) +:+ ": " +:+ render_pretty inner (snd kv))
                 fields)
      +:+ newline +:+ cur +:+ "}"
  | _ => render j
  end.

Definition walk (h : heap) (v : value) : option (option json) :=
  snapshot (S (length h)) h [] v.

(** [JSON.stringify(v)]: a string, [undefined] for a value that serialises to
    nothing, a TypeError on a circular structure. *)
Definition JSON_stringify (v : value) : M value :=
  fun w =>
    match walk (store w) v with
    | None => (Throw TypeError, w)
    | Some None => (Ok VUndef, w)
    | Some (Some j) => (Ok (VStr (render j)), w)
    end.

Definition JSON_stringify_pretty (v : value) : M value :=
  fun w =>
    match walk (store w) v with
    | None => (Throw TypeError, w)
    | Some None => (Ok VUndef, w)
    | Some (Some j) => (Ok (VStr (render_pretty "" j)), w)
    end.

(** ** Iteration *)

Definition chars (s : string) : list value :=
  map (fun c => VStr (String c EmptyString)) (list_ascii_of_string s).

(** The values a [for ... of] loop visits; a TypeError on what is not
    iterable. *)
Definition iterate (v : value) : M (list value) :=
  fun w =>
    match v with
    | VRef l =>
        match store w !! l with
        | Some (Object (Array elems) _) => (Ok elems, w)
        | Some (Object (Buffer bytes) _) => (Ok (map byte_value bytes), w)
        | _ => (Throw TypeError, w)
        end
    | VStr s => (Ok (chars s), w)
    | _ => (Throw TypeError, w)
    end.

Fixpoint for_each {A} (l : list A) (body : A -> M unit) : M unit :=
  match l with
  | [] => ret tt
  | x :: rest => do! body x in for_each rest body
  end.

Fixpoint fold_m {A B} (l : list A) (acc : B) (body : B -> A -> M B) : M B :=
  match l with
  | [] => ret acc
  | x :: rest => let! acc' := body acc x in fold_m rest acc' body
  end.

Fixpoint map_m_from {A B} (i : nat) (l : list A) (f : nat -> A -> M B) : M (list B) :=
  match l with
  | [] => ret []
  | x :: rest =>
      let! y := f i x in
      let! ys := map_m_from (S i) rest f in
      ret (y :: ys)
  end.

(** The own enumerable properties a rest pattern copies. *)
Definition own_props (h : heap) (v : value) : list (string * value) :=
  match v with
  | VRef l =>
      match h !! l with
      | Some o =>
          match okind o with
          | Plain => oprops o
          | Array elems =>
              imap (fun i e => (string_of_nat i, e)) elems ++ oprops o
          | Buffer bytes =>
              imap (fun i b => (string_of_nat i, byte_value b)) bytes ++ oprops o
          end
      | None => []
      end
  | VStr s => imap (fun i c => (string_of_nat i, c)) (chars s)
  | _ => []
  end.

(** Well-formed stores: a reference points into the store, and so does every
    reference kept inside an object of the store. *)
Definition validb (h : heap) (v : value) : bool :=
  match v with
  | VRef l => Nat.ltb l (length h)
  | _ => true
  end.

Definition values_of (o : object) : list value :=
  map snd (oprops o)
  ++ match okind o with Array elems => elems | _ => [] end.

Definition closed_object (h : heap) (o : object) : bool :=
  forallb (validb h) (values_of o).

Definition closedb (h : heap) : bool := forallb (closed_object h) h.

Definition valid (h : heap) (v : value) : Prop := validb h v = true.
Definition closed (h : heap) : Prop := closedb h = true.

(** ** The collaborators

    None of them is in the module: the transports ([attemptHandler],
    [utils/https], [axios]), answering each call from what the world has
    seen so far, and the helpers of [resources/functions]. [JSON.parse] is
    left to them as well. An answer is a rejection, or a value together with
    the objects it brings into the store: a collaborator allocates, it never
    writes to an object that is already there. *)

Definition answer : Type := result (list object * value).

Class Collaborators : Type := {
  network : world -> event -> answer;
  extendPayload : world -> value -> answer;
  returnErr : world -> value -> answer;
  JSON_parse : world -> value -> answer;
  isValidJSON : heap -> value -> bool;
  isValidMedia : heap -> value -> bool;
  getAxiosError : error -> error;
  env_token : value
}.

Definition absorb (a : answer) : M value :=
  fun w =>
    match a with
    | Ok (objs, v) => (Ok v, with_store w (store w ++ objs))
    | Throw e => (Throw e, w)
    end.

Definition external (f : world -> value -> answer) (v : value) : M value :=
  fun w => absorb (f w v) w.

Section Helpers.
Context {C : Collaborators}.

Definition call (e : event) : M value :=
  fun w => absorb (network w e) (with_event w e).

Definition attemptHandler (method path : string) (body : value) : M value :=
  call (EAttempt method path body).

Definition json_headers : list (string * string) :=
  [("Content-Type", "application/json")].

(** [input.ephemeral ? (1 << 6) : 0] *)
Definition ephemeral_flags (input : value) : M value :=
  let! e := get input "ephemeral" in
  ret (VNum (if truthy e then Z.shiftl 1 6 else 0)).

(** A parameter declared [input = {}]. *)
Definition default_object (input : value) : M value :=
  match input with
  | VUndef => new_object []
  | _ => ret input
  end.

(** [input.attachments && input.attachments.length] *)
Definition has_attachments (input : value) : M bool :=
  let! a := get input "attachments" in
  if truthy a then
    let! a' := get input "attachments" in
    let! n := get a' "length" in
    ret (truthy n)
  else ret false.

(** [x && !x.length] *)
Definition given_empty (x : value) : M bool :=
  if truthy x then
    let! n := get x "length" in
    ret (negb (truthy n))
  else ret false.

Definition template (parts : list (string + value)) : M string :=
  read (fun h =>
    fold_right (fun p acc =>
                  match p with
                  | inl s => s +:+ acc
                  | inr v => to_string h v +:+ acc
                  end) "" parts).

(** [`interactions/${params.id}/${params.token}/callback`] *)
Definition callback_path (params : value) : M string :=
  let! id := get params "id" in
  let! token := get params "token" in
  template [inl "interactions/"; inr id; inl "/"; inr token; inl "/callback"].

(** [`webhooks/${params.application_id}/${params.token}`] *)
Definition webhook_path (params : value) : M string :=
  let! app := get params "application_id" in
  let! token := get params "token" in
  template [inl "webhooks/"; inr app; inl "/"; inr token].

(** [`webhooks/${params.application_id}/${params.token}/messages/@original`] *)
Definition original_path (params : value) : M string :=
  let! app := get params "application_id" in
  let! token := get params "token" in
  template [inl "webhooks/"; inr app; inl "/"; inr token; inl "/messages/@original"].

(** The endpoint of [followup.edit]. *)
Definition followup_message_path (params input : value) : M string :=
  let! app := get params "application_id" in
  let! token := get params "token" in
  let! mid := get input "message_id" in
  let! base :=
    template [inl "webhooks/"; inr app; inl "/"; inr token; inl "/messages/";
              inr mid; inl "?"] in
  let! tid := get input "thread_id" in
  let! suffix :=
    (if truthy tid then
       let! tid' := get input "thread_id" in
       template [inl "&thread_id="; inr tid']
     else ret "") in
  ret (base +:+ suffix).

(** *** sendAttachment *)

Definition missing_properties : string :=
  newline +:+ "Attachments is missing one or more required properties: 'file' or 'filename'"
  +:+ newline.

Definition invalid_file_type : string :=
  newline +:+ "Invalid file-type provided. Must be of type Buffer or a valid image URL."
  +:+ newline.

(** [Buffer.from(x)]: a copy of a Buffer, the bytes of a string or of an array
    of numbers; a TypeError on anything else. *)
Definition byte_of_value (v : value) : Byte.byte :=
  match to_number v with
  | Some n =>
      match Byte.of_N (Z.to_N (n mod 256)) with
      | Some b => b
      | None => Byte.x00
      end
  | None => Byte.x00
  end.

Definition Buffer_from (v : value) : M value :=
  fun w =>
    match v with
    | VStr s => new_buffer (list_byte_of_string s) w
    | VRef l =>
        match store w !! l with
        | Some (Object (Buffer bytes) _) => new_buffer bytes w
        | Some (Object (Array elems) _) => new_buffer (map byte_of_value elems) w
        | _ => (Throw TypeError, w)
        end
    | _ => (Throw TypeError, w)
    end.

(** [attachment.file = Buffer.from((await axios.get(attachment.file,
    { responseType: 'arraybuffer' })).data)] *)
Definition fetch_file (attachment : value) (url : string) : M unit :=
  let! response := call (EFetch url) in
  let! data := get response "data" in
  let! buffer := Buffer_from data in
  set attachment "file" buffer.

(** The body of the first loop, for one attachment. *)
Definition check_attachment (attachment : value) : M unit :=
  let! file := get attachment "file" in
  let! unusable :=
    (if truthy file then
       let! filename := get attachment "filename" in
       ret (negb (truthy filename))
     else
       let! url := get attachment "url" in
       if truthy url then
         let! filename := get attachment "filename" in
         ret (negb (truthy filename))
       else ret true) in
  if (unusable : bool) then throw (Error (VStr missing_properties))
  else
    let! file := get attachment "file" in
    let! media := read (fun h => isValidMedia h file) in
    if (media : bool) then
      let! file := get attachment "file" in
      match file with
      | VStr url => fetch_file attachment url
      | _ => ret tt
      end
    else
      let! file := get attachment "file" in
      let! buf := read (fun h => is_buffer h file) in
      if (buf : bool) then ret tt
      else throw (Error (VStr invalid_file_type)).

(** [form.append(`files[${i}]`, params.attachments[i].file,
    params.attachments[i].filename)] *)
Definition append_file (params : value) (form : list part) (i : nat)
  : M (list part) :=
  let! atts := get params "attachments" in
  let! item := get_index atts i in
  let! file := get item "file" in
  let! atts' := get params "attachments" in
  let! item' := get_index atts' i in
  let! filename := get item' "filename" in
  ret (form ++ [Part ("files[" +:+ string_of_nat i +:+ "]") file filename]).

(** [(a, index) => ({ id: index, filename: a.filename,
    description: a.description ?? '' })] *)
Definition reference_record (i : nat) (a : value) : M value :=
  let! filename := get a "filename" in
  let! d := get a "description" in
  let! description := nullish_or d (ret (VStr "")) in
  new_object [("id", VNum (Z.of_nat i)); ("filename", filename);
              ("description", description)].

(** [attachments.map(...)] with the callback above: a new array from an
    array; from a Buffer a Buffer of the same length, whose bytes are the
    records turned into numbers, that is 0; a TypeError where there is no
    [map]. *)
Definition map_references (atts : value) : M value :=
  fun w =>
    match atts with
    | VRef l =>
        match store w !! l with
        | Some (Object (Array elems) _) =>
            (let! records := map_m_from 0 elems reference_record in
             new_array records) w
        | Some (Object (Buffer bytes) _) =>
            (let! _ := map_m_from 0 (map byte_value bytes) reference_record in
             new_buffer (map (fun _ => Byte.x00) bytes)) w
        | _ => (Throw TypeError, w)
        end
    | _ => (Throw TypeError, w)
    end.

Definition multipart_headers (h : heap) : list (string * string) :=
  [("Content-Type", "multipart/form-data");
   ("Authorization", "Bot " +:+ to_string h env_token)].

(** The first loop: every attachment checked, and fetched where it names
    a remote file. *)
Definition check_attachments (params : value) : M unit :=
  let! atts := get params "attachments" in
  let! items := iterate atts in
  for_each items check_attachment.

(** The second loop: one part per attachment. *)
Definition append_files (params : value) : M (list part) :=
  let! atts := get params "attachments" in
  let! len := get atts "length" in
  let count := match to_number len with Some n => Z.to_nat n | None => O end in
  fold_m (seq 0 count) [] (append_file params).

(** [params.flags = flags], and the attachments replaced by their
    reference records. *)
Definition rewrite_attachments (params flags : value) : M unit :=
  do! set params "flags" flags in
  let! atts := get params "attachments" in
  let! records := map_references atts in
  set params "attachments" records.

(** The text of the [payload_json] part. *)
Definition payload_json (sender : string) (params type : value) : M value :=
  if sender =? "data" then
    let! wrapper := new_object [("type", type); ("data", params)] in
    JSON_stringify wrapper
  else
    let! rest :=
      (if is_nullish params then throw TypeError
       else read (fun h => assoc_remove "attachments" (own_props h params))) in
    let! newparams := new_object rest in
    let! wrapper := new_object [("data", newparams)] in
    JSON_stringify wrapper.

(** The multipart request, and the check of its status. *)
Definition dispatch (method url : string) (form : list part) : M value :=
  let! headers := read multipart_headers in
  let! response :=
    call (EMultipart method ("https://discord.com/api/v10/" +:+ url) form headers) in
  let! status := get response "status" in
  if num_lt status (VNum 200) || num_ge status (VNum 300) then
    let! data := get response "data" in
    let! errors := get data "errors" in
    let! text :=
      template [inl newline; inl "Request failed with statusCode: "; inr status;
                inl newline; inr errors; inl newline] in
    throw (Error (VStr text))
  else get response "data".

Definition sendAttachment (sender : string) (params : value) (url method : string)
    (type flags : value) : M value :=
  let! atts := get params "attachments" in
  if negb (truthy atts) then ret VNull
  else
    try_catch
      (do! check_attachments params in
       let! form := append_files params in
       do! rewrite_attachments params flags in
       let! payload := payload_json sender params type in
       dispatch method url (form ++ [Part "payload_json" payload VUndef]))
      (fun e => throw (getAxiosError e)).

(** *** handleCallbacks *)

Definition handleCallbacks (method path : string) (type data return_date : value)
  : M value :=
  try_catch
    (let! wrapper := new_object [("type", type); ("data", data)] in
     let! body := JSON_stringify wrapper in
     let! r :=
       call (EHttps method (encodeURI "discord.com") (encodeURI ("/api/v10/" +:+ path))
               json_headers body) in
     let! status := get r "statusCode" in
     if num_ge status (VNum 200) && num_lt status (VNum 300) then
       if truthy return_date then
         let! headers := get r "headers" in
         get headers "date"
       else
         try_catch
           (let! body := get r "body" in external JSON_parse body)
           (fun _ => let! body := get r "body" in nullish_or body (ret r))
     else
       let! body := get r "body" in
       let! len := get body "length" in
       let! reason :=
         (if truthy len then
            let! body := get r "body" in
            let! json := read (fun h => isValidJSON h body) in
            if (json : bool) then external returnErr r else get r "body"
          else ret r) in
       throw (Error reason))
    (fun e => fun w => (Throw e, with_log w e)).

End Helpers.

(** ** The body of an edit

    [edit_original] and [followup.edit] spell out the same body, from
    [const { embeds } = input] on. *)

Section Edits.

(** [embed?.k1?.k2 ?? message.embeds?.[0]?.k1?.k2] *)
Definition fallback (embed message : value) (ks : list string) : M value :=
  let! mine := get_path embed ks in
  nullish_or mine
    (let! embeds := get message "embeds" in
     let! first := get_opt_index embeds 0 in
     get_path first ks).

(** The single embed of an edit. *)
Definition merged_embed (embed message : value) : M value :=
  let! title := fallback embed message ["title"] in
  let! description := fallback embed message ["description"] in
  let! color := fallback embed message ["color"] in
  let! url := fallback embed message ["url"] in
  let! timestamp := fallback embed message ["timestamp"] in
  let! image_url := fallback embed message ["image"; "url"] in
  let! image := new_object [("url", image_url)] in
  let! thumbnail_url := fallback embed message ["thumbnail"; "url"] in
  let! thumbnail := new_object [("url", thumbnail_url)] in
  let! author_name := fallback embed message ["author"; "name"] in
  let! author_icon := fallback embed message ["author"; "icon_url"] in
  let! author_url := fallback embed message ["author"; "url"] in
  let! author :=
    new_object [("name", author_name); ("icon_url", author_icon);
                ("url", author_url)] in
  let! footer_text := fallback embed message ["footer"; "text"] in
  let! footer_icon := fallback embed message ["footer"; "icon_url"] in
  let! footer := new_object [("text", footer_text); ("icon_url", footer_icon)] in
  let! fields := fallback embed message ["fields"] in
  new_object [("title", title); ("description", description); ("color", color);
              ("url", url); ("timestamp", timestamp); ("image", image);
              ("thumbnail", thumbnail); ("author", author); ("footer", footer);
              ("fields", fields)].

Definition edit_body (input message : value) : M value :=
  let! embeds := get input "embeds" in
  let! first := get_opt_index embeds 0 in
  let embed := if truthy first then first else VUndef in
  let! c := get input "content" in
  let! content := nullish_or c (get message "content") in
  let! embeds' := get input "embeds" in
  let! cleared := given_empty embeds' in
  let! embeds_out :=
    (if (cleared : bool) then new_array []
     else
       let! merged := merged_embed embed message in
       new_array [merged]) in
  let! components := get input "components" in
  let! emptied := given_empty components in
  let! components_out :=
    (if (emptied : bool) then new_array []
     else
       let! kept := get message "components" in
       nullish_or kept (new_array [])) in
  let! allowed_mentions := get input "allowed_mentions" in
  let! mine := get input "attachments" in
  let! attachments :=
    nullish_or mine
      (let! kept := get message "attachments" in
       nullish_or kept (new_array [])) in
  new_object [("content", content); ("embeds", embeds_out);
              ("components", components_out);
              ("allowed_mentions", allowed_mentions);
              ("attachments", attachments)].

End Edits.

(** ** callback *)

Module callback.
Section Operations.
Context {C : Collaborators}.

Definition get_original (params : value) : M value :=
  try_catch
    (let! p := original_path params in
     let! attempt := attemptHandler "get" p VUndef in
     external extendPayload attempt)
    (fun _ => ret VNull).

(** The [else] branch of [reply]: the POST, and the check of its status. *)
Definition reply_post (params input : value) : M value :=
  let! p := callback_path params in
  let! wrapper := new_object [("type", VNum 4); ("data", input)] in
  let! body := JSON_stringify wrapper in
  let! message :=
    call (EHttps "post" (encodeURI "discord.com")
            (encodeURI ("/api/v10/" +:+ p)) json_headers body) in
  let! status := get message "statusCode" in
  if negb (strict_eq status (VNum 204)) then
    let! body := get message "body" in
    let! len := get body "length" in
    if truthy len then
      let! json := read (fun h => isValidJSON h body) in
      if (json : bool) then
        let! err := external returnErr message in
        let! text := JSON_stringify_pretty err in
        throw (Error text)
      else throw (Error body)
    else throw (Error message)
  else ret message.

(** What [reply] resolves with: [message.headers && input.return_date ?
    message.headers.date : true]. *)
Definition reply_result (input message : value) : M value :=
  let! headers := get message "headers" in
  if truthy headers then
    let! return_date := get input "return_date" in
    if truthy return_date then
      let! headers := get message "headers" in
      get headers "date"
    else ret (VBool true)
  else ret (VBool true).

Definition reply (params input0 : value) : M value :=
  let! input := default_object input0 in
  let! flags := ephemeral_flags input in
  do! set input "flags" flags in
  try_catch
    (let! attached := has_attachments input in
     let! message :=
       (if (attached : bool) then
          let! url := callback_path params in
          let! flags := get input "flags" in
          sendAttachment "data" input url "post" (VNum 4) flags
        else reply_post params input) in
     reply_result input message)
    (fun e => throw e).

Definition component_update (params input0 : value) : M value :=
  let! input := default_object input0 in
  let! url := callback_path params in
  let! flags := ephemeral_flags input in
  do! set input "flags" flags in
  let! attached := has_attachments input in
  if (attached : bool) then
    let! flags := get input "flags" in
    sendAttachment "data" input url "post" (VNum 7) flags
  else handleCallbacks "post" url (VNum 7) input VUndef.

Definition edit_original (params input0 : value) : M value :=
  let! input := default_object input0 in
  let! endpoint := original_path params in
  let! attached := has_attachments input in
  if (attached : bool) then
    sendAttachment "body" input endpoint "patch" VNull (VNum 0)
  else
    let! message :=
      try_catch
        (let! p := original_path params in attemptHandler "get" p VUndef)
        (fun _ => ret VUndef) in
    if negb (truthy message) then ret VNull
    else
      let! body := edit_body input message in
      let! attempt := attemptHandler "patch" endpoint body in
      external extendPayload attempt.

(** [defer] and [component_defer]: the callback of type [type], with
    [{ flags: input.ephemeral ? (1 << 6) : 0 }] for its data, and
    [return_date: true]. *)
Definition deferred (type : Z) (params input0 : value) : M value :=
  let! input := default_object input0 in
  let! path := callback_path params in
  let! flags := ephemeral_flags input in
  let! data := new_object [("flags", flags)] in
  handleCallbacks "post" path (VNum type) data (VBool true).

Definition defer (params input0 : value) : M value := deferred 5 params input0.

Definition component_defer (params input0 : value) : M value :=
  deferred 6 params input0.

(** [autocomplete_reply], [modal_reply] and [upgrade]: the callback of type
    [type] with the input for its data, as it is. *)
Definition plain_callback (type : Z) (params input : value) : M value :=
  let! path := callback_path params in
  handleCallbacks "post" path (VNum type) input VUndef.

Definition autocomplete_reply (params input : value) : M value :=
  plain_callback 8 params input.

Definition modal_reply (params input : value) : M value :=
  plain_callback 9 params input.

Definition upgrade (params input : value) : M value :=
  plain_callback 10 params input.

Definition delete_original (params : value) : M value :=
  let! p := original_path params in
  attemptHandler "del" p VUndef.

End Operations.
End callback.

(** ** followup *)

Module followup.
Section Operations.
Context {C : Collaborators}.

(** The body of the loop over [input.embeds]. *)
Definition placeholder (embed : value) (holder label : string) : M unit :=
  let! h1 := get embed holder in
  let! icon := get_opt h1 "icon_url" in
  if truthy icon then
    let! h2 := get embed holder in
    let! text := get_opt h2 label in
    if negb (truthy text) then
      let! h3 := get embed holder in
      set h3 label (VStr zwsp)
    else ret tt
  else ret tt.

Definition fill_placeholders (embed : value) : M unit :=
  do! placeholder embed "footer" "text" in
  placeholder embed "author" "name".

(** [x?.length ? x : []] *)
Definition or_empty (x : value) : M value :=
  let! n := get_opt x "length" in
  if truthy n then ret x else new_array [].

Definition create (params input0 : value) : M value :=
  let! input := default_object input0 in
  let! flags := ephemeral_flags input in
  let! url := webhook_path params in
  let! attached := has_attachments input in
  if (attached : bool) then
    sendAttachment "body" input url "post" VNull flags
  else
    let! embeds := get input "embeds" in
    let! n := get_opt embeds "length" in
    do! (if truthy n then
           let! embeds := get input "embeds" in
           let! items := iterate embeds in
           for_each items fill_placeholders
         else ret tt) in
    let! c := get input "content" in
    let! content := nullish_or c (ret (VStr "")) in
    let! e := get input "embeds" in
    let! embeds_out := or_empty e in
    let! k := get input "components" in
    let! components := or_empty k in
    let! t := get input "tts" in
    let tts := if truthy t then t else VBool false in
    let! a := get input "allowed_mentions" in
    let! allowed_mentions := nullish_or a (ret VNull) in
    let! tn := get input "thread_name" in
    let! thread_name := nullish_or tn (ret VNull) in
    let! at' := get input "attachments" in
    let! attachments := nullish_or at' (new_array []) in
    let! body :=
      new_object [("content", content); ("embeds", embeds_out);
                  ("components", components); ("tts", tts);
                  ("allowed_mentions", allowed_mentions);
                  ("thread_name", thread_name); ("flags", flags);
                  ("attachments", attachments)] in
    let! attempt := attemptHandler "post" url body in
    external extendPayload attempt.

Definition edit (params input : value) : M value :=
  let! flags := ephemeral_flags input in
  let! endpoint := followup_message_path params input in
  let! attached := has_attachments input in
  if (attached : bool) then
    sendAttachment "body" input endpoint "patch" VNull flags
  else
    let! message := attemptHandler "get" endpoint VUndef in
    let! body := edit_body input message in
    let! attempt := attemptHandler "patch" endpoint body in
    external extendPayload attempt.

(** [`webhooks/${params.application_id}/${params.token}/messages/${input.message_id}`] *)
Definition message_path (params input : value) : M string :=
  let! app := get params "application_id" in
  let! token := get params "token" in
  let! mid := get input "message_id" in
  template [inl "webhooks/"; inr app; inl "/"; inr token; inl "/messages/"; inr mid].

Definition del (params input : value) : M value :=
  let! p := message_path params input in
  attemptHandler "del" p VUndef.

(** [followup.get]; its path is put together as the endpoint of [edit] is. *)
Definition get (params input : value) : M value :=
  let! p := followup_message_path params input in
  let! attempt := attemptHandler "get" p VUndef in
  external extendPayload attempt.

End Operations.
End followup.

(** ** What an edit sends, as the claims put it *)

(** [message.embeds?.[0]] *)
Definition first_embed (h : heap) (message : value) : value :=
  index h (prop h message "embeds") 0.

(** The caller's sub-field when it is neither [undefined] nor [null], the
    existing first embed's otherwise. *)
Definition merged_field (h : heap) (embed message : value) (ks : list string)
  : value :=
  let mine := path h embed ks in
  if is_nullish mine then path h (first_embed h message) ks else mine.

Definition subfields : list (list string) :=
  [["title"]; ["description"]; ["color"]; ["url"]; ["timestamp"];
   ["image"; "url"]; ["thumbnail"; "url"];
   ["author"; "name"]; ["author"; "icon_url"]; ["author"; "url"];
   ["footer"; "text"]; ["footer"; "icon_url"]; ["fields"]].

(** The elements of an array. *)
Definition elements (h : heap) (v : value) : option (list value) :=
  match v with
  | VRef l =>
      match h !! l with
      | Some (Object (Array elems) _) => Some elems
      | _ => None
      end
  | _ => None
  end.

(** The objects [merged_embed] allocates, in the order it allocates them. *)
Definition merged_objects (h : heap) (embed message : value) : list object :=
  let f := merged_field h embed message in
  let n := length h in
  [ Object Plain [("url", f ["image"; "url"])];
    Object Plain [("url", f ["thumbnail"; "url"])];
    Object Plain [("name", f ["author"; "name"]);
                  ("icon_url", f ["author"; "icon_url"]);
                  ("url", f ["author"; "url"])];
    Object Plain [("text", f ["footer"; "text"]);
                  ("icon_url", f ["footer"; "icon_url"])];
    Object Plain [("title", f ["title"]); ("description", f ["description"]);
                  ("color", f ["color"]); ("url", f ["url"]);
                  ("timestamp", f ["timestamp"]); ("image", VRef n);
                  ("thumbnail", VRef (n + 1)); ("author", VRef (n + 2));
                  ("footer", VRef (n + 3)); ("fields", f ["fields"])] ].

(** [embeds?.[0] || undefined] *)
Definition caller_embed (h : heap) (input : value) : value :=
  let first := index h (prop h input "embeds") 0 in
  if truthy first then first else VUndef.

(** [x && !x.length] *)
Definition given_emptyb (h : heap) (x : value) : bool :=
  truthy x && negb (truthy (prop h x "length")).

Definition content_sent (h : heap) (input message : value) : value :=
  let c := prop h input "content" in
  if is_nullish c then prop h message "content" else c.

Definition embeds_allocs (h : heap) (input message : value) : list object :=
  if given_emptyb h (prop h input "embeds") then [Object (Array []) []]
  else
    merged_objects h (caller_embed h input) message
    ++ [Object (Array [VRef (length h + 4)]) []].

(** Whether the body gets a new empty array for its components, for its
    attachments. *)
Definition components_fresh (h : heap) (input message : value) : bool :=
  given_emptyb h (prop h input "components")
  || is_nullish (prop h message "components").

Definition attachments_fresh (h : heap) (input message : value) : bool :=
  is_nullish (prop h input "attachments")
  && is_nullish (prop h message "attachments").

(** Everything [edit_body] allocates before the body itself. *)
Definition edit_allocs (h : heap) (input message : value) : list object :=
  embeds_allocs h input message
  ++ (if components_fresh h input message then [Object (Array []) []] else [])
  ++ (if attachments_fresh h input message then [Object (Array []) []] else []).

(** The body, allocated last. *)
Definition body_object (h : heap) (input message : value) : object :=
  let n := length h + length (embeds_allocs h input message) in
  let m := if components_fresh h input message then n + 1 else n in
  Object Plain
    [("content", content_sent h input message);
     ("embeds", VRef (n - 1));
     ("components",
       if components_fresh h input message then VRef n
       else prop h message "components");
     ("allowed_mentions", prop h input "allowed_mentions");
     ("attachments",
       if is_nullish (prop h input "attachments") then
         if is_nullish (prop h message "attachments") then VRef m
         else prop h message "attachments"
       else prop h input "attachments")].

Definition body_loc (h : heap) (input message : value) : loc :=
  length h + length (edit_allocs h input message).

(** ** The operations, step by step *)

(** [input.attachments && input.attachments.length], as a truth value. *)
Definition attachedb (h : heap) (input : value) : bool :=
  let a := prop h input "attachments" in
  truthy a && truthy (prop h a "length").

Definition flags_of (h : heap) (input : value) : Z :=
  if truthy (prop h input "ephemeral") then Z.shiftl 1 6 else 0.

Definition original_endpoint (h : heap) (params : value) : string :=
  "webhooks/" +:+ to_string h (prop h params "application_id") +:+ "/"
  +:+ to_string h (prop h params "token") +:+ "/messages/@original" +:+ "".

Definition callback_endpoint (h : heap) (params : value) : string :=
  "interactions/" +:+ to_string h (prop h params "id") +:+ "/"
  +:+ to_string h (prop h params "token") +:+ "/callback" +:+ "".

Definition webhook_endpoint (h : heap) (params : value) : string :=
  "webhooks/" +:+ to_string h (prop h params "application_id") +:+ "/"
  +:+ to_string h (prop h params "token") +:+ "".

Definition followup_endpoint (h : heap) (params input : value) : string :=
  ("webhooks/" +:+ to_string h (prop h params "application_id") +:+ "/"
   +:+ to_string h (prop h params "token") +:+ "/messages/"
   +:+ to_string h (prop h input "message_id") +:+ "?" +:+ "")
  +:+ (if truthy (prop h input "thread_id")
       then "&thread_id=" +:+ to_string h (prop h input "thread_id") +:+ ""
       else "").

Section Tails.
Context {C : Collaborators}.

(** How both edits end: the PATCH of the body, and the payload extended. *)
Definition send_patch (endpoint : string) (body : value) : M value :=
  let! attempt := attemptHandler "patch" endpoint body in
  external extendPayload attempt.

(** How [followup.create] ends. *)
Definition send_post (endpoint : string) (body : value) : M value :=
  let! attempt := attemptHandler "post" endpoint body in
  external extendPayload attempt.

End Tails.

(** The store in which an edit sends its body. *)
Definition sent_store (h : heap) (input message : value) : heap :=
  h ++ edit_allocs h input message ++ [body_object h input message].

(** The world in which an edit sends its body, and the body: [w] is the
    world the edit is called in, [p] the endpoint of the message, [objs] what
    the GET of the message brings into the store. *)
Definition patch_world (w : world) (p : string) (objs : list object)
    (input message : value) : world :=
  with_store (with_event w (EAttempt "get" p VUndef))
    (sent_store (store w ++ objs) input message).

Definition patch_body (w : world) (objs : list object) (input message : value)
  : value :=
  VRef (body_loc (store w ++ objs) input message).

(** C1, as the claim puts it: [h] is the store once the message has been
    fetched, [hs] the store in which [body] is sent. *)
Definition components_claim (h hs : heap) (input message body : value) : Prop :=
  let mine := prop h input "components" in
  let kept := prop h message "components" in
  let sent := prop hs body "components" in
  (elements h mine = Some [] -> elements hs sent = Some [])
  /\ ((mine = VUndef \/ exists c cs, elements h mine = Some (c :: cs)) ->
      if is_nullish kept then elements hs sent = Some [] else sent = kept).

(** ** A scripted run

    Collaborators that always answer the same way, and worlds to run the
    operations in, for the examples that follow. *)

Definition scripted_message (n : nat) : list object * value :=
  ([Object Plain [("content", VStr "old"); ("embeds", VRef (n + 1));
                  ("components", VRef (n + 3))];
    Object (Array [VRef (n + 2)]) [];
    Object Plain [("title", VStr "old title"); ("color", VNum 255)];
    Object (Array [VNum 1]) []],
   VRef n).

(** A message without embeds or components. *)
Definition bare_message (n : nat) : list object * value :=
  ([Object Plain [("content", VStr "old"); ("embeds", VRef (n + 1));
                  ("components", VRef (n + 2))];
    Object (Array []) [];
    Object (Array []) []],
   VRef n).

Definition scripted_network (message : nat -> list object * value)
    (w : world) (e : event) : answer :=
  let n := length (store w) in
  match e with
  | EHttps _ _ _ _ _ =>
      Ok ([Object Plain [("statusCode", VNum 204); ("headers", VRef (n + 1));
                         ("body", VStr "")];
           Object Plain [("date", VStr "Mon, 02 Nov 2026 10:00:00 GMT")]],
          VRef n)
  | EAttempt method _ _ =>
      if method =? "get" then Ok (message n)
      else Ok ([Object Plain [("id", VStr "1")]], VRef n)
  | EFetch _ =>
      Ok ([Object (Buffer [Byte.x89; Byte.x50]) [];
           Object Plain [("data", VRef n)]],
          VRef (n + 1))
  | EMultipart _ _ _ _ =>
      Ok ([Object Plain [("status", VNum 200); ("data", VStr "")]], VRef n)
  end.

Definition starts_with_http (v : value) : bool :=
  match v with
  | VStr s => String.prefix "http" s
  | _ => false
  end.

Definition scripted_with (message : nat -> list object * value) : Collaborators := {|
  network := scripted_network message;
  extendPayload := fun _ v => Ok ([], v);
  returnErr := fun _ v => Ok ([], v);
  JSON_parse := fun _ v => Throw (Error v);
  isValidJSON := fun _ _ => false;
  isValidMedia := fun _ v => starts_with_http v;
  getAxiosError := fun e => e;
  env_token := VStr "secret"
|}.

Definition scripted : Collaborators := scripted_with scripted_message.

(** The same, over a transport that rejects every call. *)
Definition offline : Collaborators := {|
  network := fun _ _ => Throw (Rejected (VStr "ECONNRESET"));
  extendPayload := fun _ v => Ok ([], v);
  returnErr := fun _ v => Ok ([], v);
  JSON_parse := fun _ v => Throw (Error v);
  isValidJSON := fun _ _ => false;
  isValidMedia := fun _ v => starts_with_http v;
  getAxiosError := fun e => e;
  env_token := VStr "secret"
|}.

Definition params_object : object :=
  Object Plain [("id", VStr "7"); ("application_id", VStr "42");
                ("token", VStr "tok")].

Definition world_of (h : heap) : world := {| store := h; net := []; console := [] |}.

(** [params] at 0, [input] at 1: an edit that passes a button row and a new
    title. *)
Definition edit_world : world :=
  world_of
    [params_object;
     Object Plain [("message_id", VStr "55"); ("content", VStr "new");
                   ("embeds", VRef 2); ("components", VRef 4)];
     Object (Array [VRef 3]) [];
     Object Plain [("title", VStr "new title")];
     Object (Array [VRef 5]) [];
     Object Plain [("type", VNum 1)]].

(** An edit that passes a content and nothing else. *)
Definition content_edit_world : world :=
  world_of
    [params_object;
     Object Plain [("message_id", VStr "55"); ("content", VStr "new");
                   ("ephemeral", VBool true)]].

(** C2 as the claim puts it. *)
Definition embeds_claim_as_stated (h hs : heap) (input message body : value)
  : Prop :=
  let mine := prop h input "embeds" in
  let sent := prop hs body "embeds" in
  (elements h mine = Some [] -> elements hs sent = Some [])
  /\ (mine = VUndef -> elements hs sent = elements h (prop h message "embeds")).

(** C2 as the code has it. *)
Definition embeds_claim (h hs : heap) (input message body : value) : Prop :=
  let mine := prop h input "embeds" in
  let sent := prop hs body "embeds" in
  (elements h mine = Some [] -> elements hs sent = Some [])
  /\ (mine = VUndef ->
      exists m,
        elements hs sent = Some [m]
        /\ forall ks, In ks subfields ->
             path hs m ks = path h (first_embed h message) ks).


(** A transport that serves reads and rejects every write. *)
Definition read_only_network (w : world) (e : event) : answer :=
  match e with
  | EAttempt method _ _ =>
      if method =? "get" then Ok (scripted_message (length (store w)))
      else Throw (Rejected (VStr "403"))
  | _ => Throw (Rejected (VStr "403"))
  end.

Definition read_only : Collaborators := {|
  network := read_only_network;
  extendPayload := fun _ v => Ok ([], v);
  returnErr := fun _ v => Ok ([], v);
  JSON_parse := fun _ v => Throw (Error v);
  isValidJSON := fun _ _ => false;
  isValidMedia := fun _ v => starts_with_http v;
  getAxiosError := fun e => e;
  env_token := VStr "secret"
|}.

(** ** Flat objects and what is sent for them *)

Definition primitive (v : value) : bool :=
  match v with VRef _ => false | _ => true end.

Definition json_of (v : value) : option json :=
  match v with
  | VUndef => None
  | VNull => Some JNull
  | VBool b => Some (JBool b)
  | VNum n => Some (JNum n)
  | VStr s => Some (JStr s)
  | VRef _ => None
  end.

(** The fields JSON.stringify writes for properties that hold primitives. *)
Fixpoint fields_of (ps : list (string * value)) : list (string * json) :=
  match ps with
  | [] => []
  | (k, v) :: rest =>
      match json_of v with
      | Some j => (k, j) :: fields_of rest
      | None => fields_of rest
      end
  end.

(** The request [reply] and [handleCallbacks] make. *)
Definition callback_post (p : string) (body : value) : event :=
  EHttps "post" (encodeURI "discord.com") (encodeURI ("/api/v10/" +:+ p))
    json_headers body.

Definition quoted (s : string) : string := dquote +:+ s +:+ dquote.

(** The body C9 states, and the body [reply] sends. *)
Definition hi_body_as_stated : string :=
  "{" +:+ quoted "type" +:+ ":4," +:+ quoted "data" +:+ ":{"
  +:+ quoted "content" +:+ ":" +:+ quoted "hi" +:+ ","
  +:+ quoted "flags" +:+ ":64}}".

Definition hi_body : string :=
  "{" +:+ quoted "type" +:+ ":4," +:+ quoted "data" +:+ ":{"
  +:+ quoted "ephemeral" +:+ ":true,"
  +:+ quoted "content" +:+ ":" +:+ quoted "hi" +:+ ","
  +:+ quoted "flags" +:+ ":64}}".

Definition hi_input : object :=
  Object Plain [("ephemeral", VBool true); ("content", VStr "hi")].

(** [reply(params, {ephemeral: true, content: 'hi'})] *)
Definition hi_world : world := world_of [params_object; hi_input].

(** [hi_input] once [reply] has written its flags. *)
Definition hi_input_flagged : object :=
  Object Plain [("ephemeral", VBool true); ("content", VStr "hi");
                ("flags", VNum 64)].

Definition hi_json : json :=
  JObj [("type", JNum 4);
        ("data", JObj [("ephemeral", JBool true); ("content", JStr "hi");
                       ("flags", JNum 64)])].

(** ** Attachments, as the claims put them *)

(** [(!attachment.file && !attachment.url) || !attachment.filename] *)
Definition unusable (h : heap) (attachment : value) : bool :=
  negb (truthy (prop h attachment "file")) && negb (truthy (prop h attachment "url"))
  || negb (truthy (prop h attachment "filename")).

(** A reply with two attachments, the second without a file. *)
Definition half_attached_world : world :=
  world_of
    [params_object;
     Object Plain [("content", VStr "two files"); ("attachments", VRef 2)];
     Object (Array [VRef 3; VRef 4]) [];
     Object Plain [("file", VStr "https://example.org/a.png");
                   ("filename", VStr "a.png")];
     Object Plain [("filename", VStr "b.png")]].

(** ** The caller's object, as the claims put it *)



(** [changes K h h']: from [h] to [h'] the store has only grown, every
    object is where it was and of the kind it was, and of its properties only
    those named in [K] may hold something else. *)
Definition changes (K : string -> bool) (h h' : heap) : Prop :=
  length h <= length h'
  /\ forall l o, h !! l = Some o ->
       exists o', h' !! l = Some o' /\ okind o' = okind o
                  /\ forall k, K k = false -> assoc k (oprops o') = assoc k (oprops o).

Definition only_file (k : string) : bool := k =? "file".

Definition flags_and_attachments (k : string) : bool :=
  (k =? "flags") || (k =? "attachments").

(** The [file] of [v] is what it was, or it was a string and is now a
    Buffer. *)
Definition kept_or_fetched (h h' : heap) (v : value) : Prop :=
  prop h' v "file" = prop h v "file"
  \/ (is_string (prop h v "file") = true
      /\ is_buffer h' (prop h' v "file") = true).

(** What the first loop of sendAttachment does to the store. *)
Definition files_fetched (h h' : heap) : Prop :=
  changes only_file h h' /\ forall v, valid h v -> kept_or_fetched h h' v.

(** The reference record of the attachment [a], the [i]th, read in [h]. *)
Definition record_object (h : heap) (i : nat) (a : value) : object :=
  Object Plain
    [("id", VNum (Z.of_nat i));
     ("filename", prop h a "filename");
     ("description",
       if is_nullish (prop h a "description") then VStr ""
       else prop h a "description")].

Fixpoint records_from (h : heap) (i : nat) (items : list value) : list object :=
  match items with
  | [] => []
  | a :: rest => record_object h i a :: records_from h (S i) rest
  end.

(** What the first loop leaves of an attachment that went through it. *)
Definition fetched_attachment (h h' : heap) (a : value) : Prop :=
  is_nullish a = false
  /\ is_string (prop h' a "file") = false
  /\ (is_string (prop h a "file") = true ->
      is_buffer h' (prop h' a "file") = true).

Definition nothing (k : string) : bool := false.

(** The store has only grown. *)
Definition grows (h h' : heap) : Prop := exists X, h' = h ++ X.

(** The store [rewrite_attachments] leaves, for attachments [items] found in
    the store [h]. *)
Definition rewritten_store (h : heap) (params flags : value) (items : list value)
  : heap :=
  let h2 := store_set h params "flags" flags in
  let n := length h in
  store_set
    (h2 ++ records_from h2 0 items
        ++ [Object (Array (map VRef (seq n (length items)))) []])
    params "attachments" (VRef (n + length items)).


(** A reply with two attachments: one named by its URL, one held in a
    Buffer. *)
Definition attached_world : world :=
  world_of
    [params_object;
     Object Plain [("content", VStr "two files"); ("ephemeral", VBool true);
                   ("flags", VNum 4); ("attachments", VRef 2)];
     Object (Array [VRef 3; VRef 4]) [];
     Object Plain [("file", VStr "https://example.org/a.png");
                   ("filename", VStr "a.png")];
     Object Plain [("file", VRef 5); ("filename", VStr "b.bin");
                   ("description", VStr "raw")];
     Object (Buffer [Byte.x00; Byte.x01]) []].

(** [{embeds: [{footer: {icon_url: 'x'}, author: {icon_url: 'y'}}]}]: an
    embed whose footer and author have an icon and nothing else. *)
Definition icon_world : world :=
  world_of
    [params_object;
     Object Plain [("embeds", VRef 2)];
     Object (Array [VRef 3]) [];
     Object Plain [("footer", VRef 4); ("author", VRef 5)];
     Object Plain [("icon_url", VStr "x")];
     Object Plain [("icon_url", VStr "y")]].

(** What [reply] sends in [icon_world]. *)
Definition icon_body : string :=
  "{" +:+ quoted "type" +:+ ":4," +:+ quoted "data" +:+ ":{"
  +:+ quoted "embeds" +:+ ":[{"
  +:+ quoted "footer" +:+ ":{" +:+ quoted "icon_url" +:+ ":" +:+ quoted "x" +:+ "},"
  +:+ quoted "author" +:+ ":{" +:+ quoted "icon_url" +:+ ":" +:+ quoted "y" +:+ "}}],"
  +:+ quoted "flags" +:+ ":0}}".

(** ** What a computation may do to the store

    [steps R m]: whatever [m] does, and however it ends, the store it leaves
    is related by [R] to the store it found. *)

Definition steps (R : heap -> heap -> Prop) {A} (m : M A) : Prop :=
  forall w r w', m w = (r, w') -> R (store w) (store w').

(** ** What a computation may do to the world

    [runs R m]: whatever [m] does, and however it ends, the world it leaves
    is related by [R] to the world it found. *)

Definition runs (R : world -> world -> Prop) {A} (m : M A) : Prop :=
  forall w r w', m w = (r, w') -> R w w'.

Definition same_console (w w' : world) : Prop := console w' = console w.

Definition same_net (w w' : world) : Prop := net w' = net w.

(** [m] logs nothing. *)
Definition quiet {A} (m : M A) : Prop := runs same_console m.

(** [m] calls nothing outside. *)
Definition calls_nothing {A} (m : M A) : Prop := runs same_net m.

(** ** handleCallbacks, step by step *)

(** The request [handleCallbacks] makes. *)
Definition https_event (method path : string) (body : value) : event :=
  EHttps method (encodeURI "discord.com") (encodeURI ("/api/v10/" +:+ path))
    json_headers body.

(** [r.statusCode >= 200 && r.statusCode < 300] *)
Definition success (status : value) : bool :=
  num_ge status (VNum 200) && num_lt status (VNum 300).

(** The world in which the answer [r] to the request [ev] is looked at:
    [wrapper] is the object serialised for the body, [objs] what the answer
    brings into the store. *)
Definition answered (w : world) (wrapper : object) (ev : event)
    (objs : list object) : world :=
  with_store (with_event w ev) ((store w ++ [wrapper]) ++ objs).

(** Collaborators whose transport answers every call with [response]. *)
Definition answering (response : nat -> list object * value) : Collaborators := {|
  network := fun w _ => Ok (response (length (store w)));
  extendPayload := fun _ v => Ok ([], v);
  returnErr := fun _ v => Ok ([], v);
  JSON_parse := fun _ v => Throw (Error v);
  isValidJSON := fun _ _ => false;
  isValidMedia := fun _ v => starts_with_http v;
  getAxiosError := fun e => e;
  env_token := VStr "secret"
|}.

Definition bad_request (n : nat) : list object * value :=
  ([Object Plain [("statusCode", VNum 400); ("body", VStr "Bad Request")]], VRef n).

(** A 200 without headers. *)
Definition headless (n : nat) : list object * value :=
  ([Object Plain [("statusCode", VNum 200); ("body", VStr "ok")]], VRef n).

(** ** The callbacks that only wrap handleCallbacks *)

(** A parameter declared [input = {}]: the store and the value once the
    default has been taken. *)
Definition default_store (h : heap) (input : value) : heap :=
  match input with
  | VUndef => h ++ [Object Plain []]
  | _ => h
  end.

Definition default_input (h : heap) (input : value) : value :=
  match input with
  | VUndef => VRef (length h)
  | _ => input
  end.

(** [{"type":t,"data":{"flags":f}}] and [{"type":t}] *)
Definition flags_json (type flags : Z) : json :=
  JObj [("type", JNum type); ("data", JObj [("flags", JNum flags)])].

Definition type_json (type : Z) : json := JObj [("type", JNum type)].

(** ** The properties the operations write *)

(** What sendAttachment writes: [flags] and [attachments] of its [params],
    [file] of an attachment. *)
Definition attachment_keys (k : string) : bool :=
  flags_and_attachments k || only_file k.

(** What the loop of [followup.create] writes: [text] of a footer, [name] of
    an author. *)
Definition placeholder_keys (k : string) : bool := (k =? "text") || (k =? "name").

Definition create_keys (k : string) : bool :=
  attachment_keys k || placeholder_keys k.

(** ** reply and component_update, step by step *)

(** The store once [input.flags] has been written. *)
Definition flags_written (h : heap) (input : value) : heap :=
  store_set h input "flags" (VNum (flags_of h input)).

(** [{ type: t, data: input }] *)
Definition typed (type : Z) (data : value) : object :=
  Object Plain [("type", VNum type); ("data", data)].


(** The body sent for an input whose properties [ps] hold primitives. *)
Definition flat_json (type : Z) (ps : list (string * value)) : json :=
  JObj [("type", JNum type); ("data", JObj (fields_of ps))].

(** A 204 with headers, and a reply that asks for the date. *)
Definition no_content (n : nat) : list object * value :=
  ([Object Plain [("statusCode", VNum 204); ("headers", VRef (n + 1));
                  ("body", VStr "")];
    Object Plain [("date", VStr "Mon, 02 Nov 2026 10:00:00 GMT")]],
   VRef n).

Definition dated_world : world :=
  world_of [params_object;
            Object Plain [("content", VStr "hi"); ("return_date", VBool true)]].

(** ** The multipart request, as sendAttachment puts it together *)

(** The parts the second loop appends for the attachments [items], read in
    the store [h], the first of them being the [i]th. *)
Fixpoint file_parts (h : heap) (i : nat) (items : list value) : list part :=
  match items with
  | [] => []
  | a :: rest =>
      Part ("files[" +:+ string_of_nat i +:+ "]") (prop h a "file")
        (prop h a "filename")
      :: file_parts h (S i) rest
  end.

Definition multipart_event {C : Collaborators} (h : heap) (method url : string)
    (form : list part) : event :=
  EMultipart method ("https://discord.com/api/v10/" +:+ url) form
    (multipart_headers h).

(** [response.status < 200 || response.status >= 300] *)
Definition failed (status : value) : bool :=
  num_lt status (VNum 200) || num_ge status (VNum 300).

(** The message of the error thrown for a failed request. *)
Definition request_failed (h : heap) (status errors : value) : string :=
  newline +:+ "Request failed with statusCode: " +:+ to_string h status +:+ newline
  +:+ to_string h errors +:+ newline +:+ "".

(** A transport whose multipart requests are answered without a status. *)
Definition statusless (n : nat) : list object * value :=
  ([Object Plain [("data", VStr "done")]], VRef n).

(** An attachment whose file is a string that is no media. *)
Definition text_attached_world : world :=
  world_of
    [params_object;
     Object Plain [("content", VStr "one file"); ("attachments", VRef 2)];
     Object (Array [VRef 3]) [];
     Object Plain [("file", VStr "notes.txt"); ("filename", VStr "notes.txt")]].

(** ** followup.create, step by step *)

(** The embeds the loop of [create] goes through: those of an array, none
    when [input.embeds] is [undefined] or [null]. *)
Definition embed_items (h : heap) (input : value) : option (list value) :=
  let e := prop h input "embeds" in
  if is_nullish e then Some [] else elements h e.

(** [if (embed.holder?.icon_url && !embed.holder?.label)
    embed.holder.label = zwsp], on the store. *)
Definition placeholder_store (h : heap) (embed : value) (holder label : string)
  : heap :=
  let x := prop h embed holder in
  if truthy (prop h x "icon_url") && negb (truthy (prop h x label))
  then store_set h x label (VStr zwsp)
  else h.

Definition filled (h : heap) (embed : value) : heap :=
  placeholder_store (placeholder_store h embed "footer" "text") embed "author" "name".

Definition filled_all (h : heap) (items : list value) : heap :=
  fold_left filled items h.

(** [x?.length], as a truth value. *)
Definition has_length (h : heap) (x : value) : bool := truthy (prop h x "length").

(** What [create] allocates before its body: an empty array for each of
    [embeds] and [components] that has no length, and one for [attachments]
    when there are none. *)
Definition create_allocs (h : heap) (input : value) : list object :=
  (if has_length h (prop h input "embeds") then [] else [Object (Array []) []])
  ++ (if has_length h (prop h input "components") then [] else [Object (Array []) []])
  ++ (if is_nullish (prop h input "attachments") then [Object (Array []) []] else []).

Definition create_body_object (h : heap) (flags : Z) (input : value) : object :=
  let c := prop h input "content" in
  let e := prop h input "embeds" in
  let k := prop h input "components" in
  let t := prop h input "tts" in
  let a := prop h input "allowed_mentions" in
  let tn := prop h input "thread_name" in
  let at' := prop h input "attachments" in
  let n := length h in
  let ne := if has_length h e then n else n + 1 in
  let nk := if has_length h k then ne else ne + 1 in
  Object Plain
    [("content", if is_nullish c then VStr "" else c);
     ("embeds", if has_length h e then e else VRef n);
     ("components", if has_length h k then k else VRef ne);
     ("tts", if truthy t then t else VBool false);
     ("allowed_mentions", if is_nullish a then VNull else a);
     ("thread_name", if is_nullish tn then VNull else tn);
     ("flags", VNum flags);
     ("attachments", if is_nullish at' then VRef nk else at')].

(** The world in which [create] sends its body, and the body: [items] are
    the embeds of the input. *)
Definition post_world (w : world) (items : list value) (input : value) : world :=
  let h1 := filled_all (store w) items in
  with_store w
    (h1 ++ create_allocs h1 input
        ++ [create_body_object h1 (flags_of (store w) input) input]).

Definition post_body (w : world) (items : list value) (input : value) : value :=
  let h1 := filled_all (store w) items in
  VRef (length h1 + length (create_allocs h1 input)).

(** From [h] to [h'] nothing has changed but a [text] or a [name] that was
    falsy beside a truthy [icon_url], and is now the placeholder. *)
Definition placed (h h' : heap) : Prop :=
  length h' = length h
  /\ (forall v k, placeholder_keys k = false -> prop h' v k = prop h v k)
  /\ (forall v k, prop h' v k = prop h v k
        \/ (truthy (prop h v k) = false /\ truthy (prop h v "icon_url") = true
            /\ prop h' v k = VStr zwsp)).

(** C8, for [followup.create]: what has become, in [h'], of [embed.holder]
    as it was in [h]. *)
Definition placeholder_set (h h' : heap) (holder label : string) (embed : value)
  : Prop :=
  let x := prop h embed holder in
  prop h' embed holder = x
  /\ prop h' x "icon_url" = prop h x "icon_url"
  /\ prop h' x label
     = if truthy (prop h x "icon_url") && negb (truthy (prop h x label))
       then VStr zwsp else prop h x label.

(** An icon goes with a label. *)
Definition labelled (h : heap) (holder label : string) (embed : value) : Prop :=
  let x := prop h embed holder in
  truthy (prop h x "icon_url") = true -> truthy (prop h x label) = true.

(** What the body of [create] holds, [h] being the store [create] is called
    in and [hs] the store in which [body] is sent. *)
Definition create_defaults (h hs : heap) (input body : value) : Prop :=
  let given k := prop h input k in
  let sent k := prop hs body k in
  sent "content" = (if is_nullish (given "content") then VStr "" else given "content")
  /\ (if has_length h (given "embeds") then sent "embeds" = given "embeds"
      else elements hs (sent "embeds") = Some [])
  /\ (if has_length h (given "components") then sent "components" = given "components"
      else elements hs (sent "components") = Some [])
  /\ sent "tts" = (if truthy (given "tts") then given "tts" else VBool false)
  /\ sent "allowed_mentions"
     = (if is_nullish (given "allowed_mentions") then VNull
        else given "allowed_mentions")
  /\ sent "thread_name"
     = (if is_nullish (given "thread_name") then VNull else given "thread_name")
  /\ sent "flags" = VNum (flags_of h input)
  /\ (if is_nullish (given "attachments")
      then elements hs (sent "attachments") = Some []
      else sent "attachments" = given "attachments").

(** [create(params, {embeds: [{footer: {icon_url: 'x'}, author: {icon_url:
    'y', name: 'me'}}], tts: 1})] *)
Definition create_world : world :=
  world_of
    [params_object;
     Object Plain [("embeds", VRef 2); ("tts", VNum 1)];
     Object (Array [VRef 3]) [];
     Object Plain [("footer", VRef 4); ("author", VRef 5)];
     Object Plain [("icon_url", VStr "x")];
     Object Plain [("icon_url", VStr "y"); ("name", VStr "me")]].

(** ** The rest of the body of an edit *)

(** What the body of an edit holds besides its embeds and components. *)
Definition edit_rest_claim (h hs : heap) (input message body : value) : Prop :=
  let mine := prop h input "attachments" in
  let kept := prop h message "attachments" in
  let sent := prop hs body "attachments" in
  prop hs body "content"
  = (if is_nullish (prop h input "content") then prop h message "content"
     else prop h input "content")
  /\ prop hs body "allowed_mentions" = prop h input "allowed_mentions"
  /\ (if is_nullish mine then
        if is_nullish kept then elements hs sent = Some [] else sent = kept
      else sent = mine).

(** ** The requests of an operation *)

Definition method_of (e : event) : string :=
  match e with
  | EAttempt method _ _ => method
  | EHttps method _ _ _ _ => method
  | EFetch _ => "get"
  | EMultipart method _ _ _ => method
  end.

(** From [w] to [w'] requests have been made, all of them in [P]. *)
Definition sends (P : event -> Prop) (w w' : world) : Prop :=
  exists evs, net w' = net w ++ evs /\ Forall P evs.

Definition deletes_nothing (e : event) : Prop := method_of e <> "del".

Definition only_gets (e : event) : Prop := method_of e = "get".

Definition only_deletes (e : event) : Prop := method_of e = "del".

(** The requests sendAttachment makes itself: the fetch of a file, the
    multipart request. *)
Definition multipart_only (e : event) : Prop :=
  match e with
  | EFetch _ | EMultipart _ _ _ _ => True
  | _ => False
  end.

(** A property name that is the decimal of a number, without a leading zero:
    JavaScript keeps such properties ahead of the others, in the order of
    their numbers and not of their insertion. *)
Definition is_digit (c : ascii) : bool :=
  let n := N_of_ascii c in ((48 <=? n) && (n <=? 57))%N.

Definition index_like (k : string) : bool :=
  match k with
  | EmptyString => false
  | String c rest =>
      forallb is_digit (list_ascii_of_string k)
      && (negb (Ascii.eqb c "0") || (rest =? ""))
  end.

(** No property of [ps] is named as an index, so that JSON.stringify goes
    through them in the order of the list. *)
Definition insertion_ordered (ps : list (string * value)) : bool :=
  forallb (fun k => negb (index_like k)) (map fst ps).

(** C3 as the claim puts it: a sub-field counts as supplied when the caller's
    first embed holds anything for it, and the claim is made of every edit. *)
Definition override_claim_as_stated (h hs : heap) (input message body : value)
  : Prop :=
  let mine := prop h input "embeds" in
  let sent := prop hs body "embeds" in
  forall e es,
    elements h mine = Some (e :: es) ->
    exists m,
      elements hs sent = Some [m]
      /\ forall ks, In ks subfields ->
           path hs m ks
           = match path h e ks with
             | VUndef => path h (first_embed h message) ks
             | given => given
             end.


(** An edit that passes a new title, and [null] for the colour. *)
Definition null_colour_world : world :=
  world_of
    [params_object;
     Object Plain [("message_id", VStr "55"); ("embeds", VRef 2)];
     Object (Array [VRef 3]) [];
     Object Plain [("title", VStr "new title"); ("color", VNull)]].

(** ** Where the model's numbers are JavaScript's *)

(** The values [to_number] converts as ToNumber does: [undefined], [null], a
    boolean, a number. A string is parsed by ToNumber and an object is first
    made a primitive, neither of which [to_number] does, so the comparisons
    [num_lt] and [num_ge] are JavaScript's on these values only. *)
Definition converts_directly (v : value) : bool :=
  match v with
  | VStr _ | VRef _ => false
  | _ => true
  end.

(** An integer a Number holds exactly, at most 2^53 - 1 in size. On these
    [string_of_Z] prints what ToString and JSON.stringify print; from 10^21 on
    they write an exponent, which [string_of_Z] does not. *)
Definition safe_integer (n : Z) : bool := (Z.abs n <=? 9007199254740991)%Z.

Definition safe_number (v : value) : bool :=
  match v with
  | VNum n => safe_integer n
  | _ => true
  end.

Definition safe_object (o : object) : bool :=
  forallb safe_number (map snd (oprops o))
  && match okind o with
     | Array elems => forallb safe_number elems
     | _ => true
     end.

(** Every number held by an object of the store is a safe integer. *)
Definition safe_store (h : heap) : bool := forallb safe_object h.

(** ** The first loop of sendAttachment, as the claims put it *)

(** The file of an attachment, when it is a string. *)
Definition file_url (h : heap) (a : value) : option string :=
  match prop h a "file" with
  | VStr u => Some u
  | _ => None
  end.

(** The files that are strings, in the order of their attachments. *)
Definition file_urls (h : heap) (items : list value) : list string :=
  omap (file_url h) items.

(** What the loop throws at an attachment [b] without a file or a filename:
    reading a property of [null] or [undefined] is a TypeError. *)
Definition validation_error (b : value) : error :=
  if is_nullish b then TypeError else Error (VStr missing_properties).

(** An attachment that goes through the loop as it is: named, its file in a
    Buffer. *)
Definition ready (h : heap) (a : value) : Prop :=
  unusable h a = false /\ is_buffer h (prop h a "file") = true.

(** The bytes held by a Buffer. *)
Definition bytes_of (h : heap) (v : value) : option (list Byte.byte) :=
  match v with
  | VRef l =>
      match h !! l with
      | Some (Object (Buffer bytes) _) => Some bytes
      | _ => None
      end
  | _ => None
  end.



(** * Properties *)

(** ** The serialiser on samples *)

Example render_sample :
  render (JObj [("a", JArr [JNum 1; JNull]); ("b", JStr ("x" +:+ dquote))])
  = "{" +:+ dquote +:+ "a" +:+ dquote +:+ ":[1,null]," +:+ dquote +:+ "b" +:+ dquote
    +:+ ":" +:+ dquote +:+ "x" +:+ backslash +:+ dquote +:+ dquote +:+ "}".
Proof. reflexivity. Qed.

Example encodeURI_sample : encodeURI "/api/v10/a b/%" = "/api/v10/a%20b/%25".
Proof. reflexivity. Qed.

(** ** Running the monad *)

Lemma bind_ok {A B} (m : M A) (k : A -> M B) w a w' :
  m w = (Ok a, w') -> bind m k w = k a w'.
Proof. intros H. unfold bind. now rewrite H. Qed.

Lemma bind_throw {A B} (m : M A) (k : A -> M B) w e w' :
  m w = (Throw e, w') -> bind m k w = (Throw e, w').
Proof. intros H. unfold bind. now rewrite H. Qed.

Lemma try_throw {A} (m : M A) (handler : error -> M A) w e w' :
  m w = (Throw e, w') -> try_catch m handler w = handler e w'.
Proof. intros H. unfold try_catch. now rewrite H. Qed.

Lemma get_ok v k w :
  is_nullish v = false -> get v k w = (Ok (prop (store w) v k), w).
Proof. intros H. unfold get. now rewrite H. Qed.

Lemma truthy_not_nullish v : truthy v = true -> is_nullish v = false.
Proof. now destruct v. Qed.

Section GetOriginal.
Context {C : Collaborators}.

(** The three ways [get_original] can go, by what its [try] block does. *)
Lemma get_original_cases params w :
  callback.get_original params w
  = match original_path params w with
    | (Throw _, w1) => (Ok VNull, w1)
    | (Ok p, w1) =>
        match network w1 (EAttempt "get" p VUndef) with
        | Throw _ => (Ok VNull, with_event w1 (EAttempt "get" p VUndef))
        | Ok (objs, attempt) =>
            let w2 := with_event w1 (EAttempt "get" p VUndef) in
            let w3 := with_store w2 (store w2 ++ objs) in
            match extendPayload w3 attempt with
            | Throw _ => (Ok VNull, w3)
            | Ok (objs', v) => (Ok v, with_store w3 (store w3 ++ objs'))
            end
        end
    end.
Proof.
  unfold callback.get_original, try_catch, bind, attemptHandler, call, external.
  destruct (original_path params w) as [[p|e] w1]; [|reflexivity].
  destruct (network w1 (EAttempt "get" p VUndef)) as [[objs attempt]|e]; simpl; [|reflexivity].
  destruct (extendPayload _ attempt) as [[objs' v]|e]; reflexivity.
Qed.

(** C6. Whatever the transport does, [get_original] resolves: with [null]
    when the fetch is rejected, and with the payload as [extendPayload]
    returns it when the fetch succeeds. *)
Theorem get_original_swallows_failures (params : value) (w : world) :
  (exists v w', callback.get_original params w = (Ok v, w'))
  /\ (forall p w1 e,
        original_path params w = (Ok p, w1) ->
        network w1 (EAttempt "get" p VUndef) = Throw e ->
        callback.get_original params w
        = (Ok VNull, with_event w1 (EAttempt "get" p VUndef)))
  /\ (forall p w1 objs attempt objs' v,
        original_path params w = (Ok p, w1) ->
        network w1 (EAttempt "get" p VUndef) = Ok (objs, attempt) ->
        let w2 := with_event w1 (EAttempt "get" p VUndef) in
        let w3 := with_store w2 (store w2 ++ objs) in
        extendPayload w3 attempt = Ok (objs', v) ->
        callback.get_original params w
        = (Ok v, with_store w3 (store w3 ++ objs'))).
Proof.
  rewrite get_original_cases. repeat split.
  - destruct (original_path params w) as [[p|e] w1]; [|eauto].
    destruct (network w1 _) as [[objs attempt]|e]; [|eauto]. cbv zeta.
    destruct (extendPayload _ attempt) as [[objs' v]|e]; eauto.
  - intros p w1 e Hp Hn. now rewrite Hp, Hn.
  - intros p w1 objs attempt objs' v Hp Hn w2 w3 He.
    rewrite Hp, Hn. cbv zeta. fold w2. fold w3. now rewrite He.
Qed.

End GetOriginal.

(** ** Reading a store that has grown *)

Lemma valid_ref h l : valid h (VRef l) <-> l < length h.
Proof. unfold valid; simpl. apply Nat.ltb_lt. Qed.

Lemma valid_app h X v : valid h v -> valid (h ++ X) v.
Proof.
  destruct v; try easy. rewrite !valid_ref, length_app. lia.
Qed.

Lemma prop_app h X v k : valid h v -> prop (h ++ X) v k = prop h v k.
Proof.
  destruct v; try easy. rewrite valid_ref. intros Hl.
  unfold prop. now rewrite lookup_app_l.
Qed.

Lemma index_app h X v i : valid h v -> index (h ++ X) v i = index h v i.
Proof.
  destruct v; try easy. rewrite valid_ref. intros Hl.
  unfold index. now rewrite lookup_app_l.
Qed.

Lemma is_buffer_app h X v : valid h v -> is_buffer (h ++ X) v = is_buffer h v.
Proof.
  destruct v; try easy. rewrite valid_ref. intros Hl.
  unfold is_buffer. now rewrite lookup_app_l.
Qed.

Lemma closed_lookup h l o :
  closed h -> h !! l = Some o -> Forall (valid h) (values_of o).
Proof.
  unfold closed, closedb, closed_object. intros Hc Hl.
  rewrite forallb_forall in Hc.
  assert (Ho : In o h) by (apply list_elem_of_In, list_elem_of_lookup; eauto).
  specialize (Hc o Ho). rewrite forallb_forall in Hc.
  apply Forall_forall. intros x Hx. apply Hc. now apply list_elem_of_In.
Qed.

Lemma named_in ps k : named ps k = VUndef \/ In (named ps k) (map snd ps).
Proof.
  unfold named. induction ps as [|[k' v] ps IH]; simpl; [now left|].
  destruct (k =? k'); [right; now left|]. destruct IH; [now left|right; now right].
Qed.

Lemma named_valid h o k :
  Forall (valid h) (values_of o) -> valid h (named (oprops o) k).
Proof.
  intros H. destruct (named_in (oprops o) k) as [->|Hin]; [easy|].
  rewrite Forall_forall in H. apply H. unfold values_of.
  apply list_elem_of_In. apply in_or_app. now left.
Qed.

Lemma closed_prop_valid h v k : closed h -> valid h v -> valid h (prop h v k).
Proof.
  intros Hc Hv. destruct v; simpl; try easy.
  - now destruct (k =? "length").
  - destruct (h !! l) as [o|] eqn:Hl; [|easy].
    pose proof (closed_lookup _ _ _ Hc Hl) as Ho.
    destruct (okind o); try (destruct (k =? "length"); [easy|]); now apply named_valid.
Qed.

Lemma closed_index_valid h v i : closed h -> valid h v -> valid h (index h v i).
Proof.
  intros Hc Hv. destruct v; simpl; try easy.
  - unfold char_at. now destruct (String.get i s).
  - destruct (h !! l) as [o|] eqn:Hl; [|easy].
    pose proof (closed_lookup _ _ _ Hc Hl) as Ho.
    destruct (okind o) as [|elems|bytes] eqn:Hk.
    + now apply named_valid.
    + destruct (elems !! i) as [x|] eqn:Hx; [|easy].
      rewrite Forall_forall in Ho. apply Ho. unfold values_of. rewrite Hk.
      apply list_elem_of_In, in_or_app. right.
      apply list_elem_of_In, list_elem_of_lookup. eauto.
    + now destruct (bytes !! i).
Qed.

Lemma path_valid h v ks : closed h -> valid h v -> valid h (path h v ks).
Proof.
  intros Hc. revert v. unfold path.
  induction ks as [|k ks IH]; simpl; intros v Hv; [easy|].
  apply IH. now apply closed_prop_valid.
Qed.

Lemma path_app h X v ks :
  closed h -> valid h v -> path (h ++ X) v ks = path h v ks.
Proof.
  intros Hc. revert v. unfold path.
  induction ks as [|k ks IH]; simpl; intros v Hv; [easy|].
  rewrite prop_app by easy. apply IH. now apply closed_prop_valid.
Qed.

(** ** The body of an edit *)

Section EditBody.

Lemma fallback_spec embed message ks w :
  is_nullish message = false ->
  fallback embed message ks w
  = (Ok (merged_field (store w) embed message ks), w).
Proof.
  intros Hm. unfold fallback, bind, get_path, nullish_or, merged_field, first_embed.
  destruct (is_nullish (path (store w) embed ks)); [|reflexivity].
  unfold get, get_opt_index. now rewrite Hm.
Qed.

Lemma first_embed_valid h m : closed h -> valid h m -> valid h (first_embed h m).
Proof.
  intros Hc Hm. apply closed_index_valid; [easy|]. now apply closed_prop_valid.
Qed.

Lemma merged_field_app h X embed message ks :
  closed h -> valid h embed -> valid h message ->
  merged_field (h ++ X) embed message ks = merged_field h embed message ks.
Proof.
  intros Hc He Hm. unfold merged_field, first_embed.
  rewrite !path_app, prop_app, index_app; try easy.
  - now apply closed_prop_valid.
  - rewrite prop_app by easy. rewrite index_app by now apply closed_prop_valid.
    now apply first_embed_valid.
Qed.

Lemma with_store_twice w h1 h2 : with_store (with_store w h1) h2 = with_store w h2.
Proof. reflexivity. Qed.

Lemma new_object_spec ps w :
  new_object ps w
  = (Ok (VRef (length (store w))), with_store w (store w ++ [Object Plain ps])).
Proof. reflexivity. Qed.

Lemma new_array_spec elems w :
  new_array elems w
  = (Ok (VRef (length (store w))), with_store w (store w ++ [Object (Array elems) []])).
Proof. reflexivity. Qed.

Lemma merged_embed_spec embed message w :
  is_nullish message = false ->
  closed (store w) -> valid (store w) embed -> valid (store w) message ->
  merged_embed embed message w
  = (Ok (VRef (length (store w) + 4)),
     with_store w (store w ++ merged_objects (store w) embed message)).
Proof.
  intros Hm Hc He Hv. unfold merged_embed.
  repeat (first
    [ erewrite bind_ok by (apply fallback_spec; exact Hm)
    | erewrite bind_ok by apply new_object_spec ]).
  rewrite new_object_spec. cbn [store with_store].
  rewrite <- !app_assoc. cbn [app].
  rewrite !merged_field_app by easy.
  rewrite !length_app. cbn [length].
  rewrite !with_store_twice. unfold merged_objects.
  repeat f_equal; lia.
Qed.

End EditBody.

Section EditBodySpec.

Lemma given_empty_spec x w :
  given_empty x w = (Ok (given_emptyb (store w) x), w).
Proof.
  unfold given_empty, given_emptyb. destruct (truthy x) eqn:Hx; [|reflexivity].
  unfold bind. rewrite get_ok by now apply truthy_not_nullish. reflexivity.
Qed.

Lemma given_emptyb_app h X x :
  valid h x -> given_emptyb (h ++ X) x = given_emptyb h x.
Proof. intros Hx. unfold given_emptyb. now rewrite prop_app. Qed.

Lemma caller_embed_valid h input :
  closed h -> valid h input -> valid h (caller_embed h input).
Proof.
  intros Hc Hi. unfold caller_embed.
  destruct (truthy _); [|easy].
  apply closed_index_valid; [easy|]. now apply closed_prop_valid.
Qed.

(** The [embeds] of the body. *)
Lemma embeds_block_spec input message w :
  is_nullish message = false ->
  closed (store w) -> valid (store w) input -> valid (store w) message ->
  (if given_emptyb (store w) (prop (store w) input "embeds") then new_array []
   else
     let! merged := merged_embed (caller_embed (store w) input) message in
     new_array [merged]) w
  = (Ok (VRef (length (store w) + length (embeds_allocs (store w) input message) - 1)),
     with_store w (store w ++ embeds_allocs (store w) input message)).
Proof.
  intros Hm Hc Hvi Hvm. unfold embeds_allocs.
  destruct (given_emptyb _ _).
  - rewrite new_array_spec. cbn [length]. repeat f_equal. lia.
  - erewrite bind_ok
      by (apply merged_embed_spec; auto using caller_embed_valid).
    rewrite new_array_spec. cbn [store with_store].
    rewrite with_store_twice, <- app_assoc, !length_app. cbn [length merged_objects].
    repeat f_equal. lia.
Qed.

(** [kept ?? []] *)
Lemma kept_or_fresh_spec kept w :
  nullish_or kept (new_array []) w
  = (Ok (if is_nullish kept then VRef (length (store w)) else kept),
     with_store w (store w ++ (if is_nullish kept then [Object (Array []) []] else []))).
Proof.
  unfold nullish_or. destruct (is_nullish kept).
  - apply new_array_spec.
  - unfold ret. rewrite app_nil_r. now destruct w.
Qed.

Ltac same_up_to_arith := repeat first [ reflexivity | lia | progress f_equal ].

Lemma edit_body_spec input message w :
  is_nullish input = false -> is_nullish message = false ->
  closed (store w) -> valid (store w) input -> valid (store w) message ->
  edit_body input message w
  = (Ok (VRef (body_loc (store w) input message)),
     with_store w (store w ++ edit_allocs (store w) input message
                           ++ [body_object (store w) input message])).
Proof.
  intros Hi Hm Hc Hvi Hvm. unfold edit_body.
  erewrite bind_ok by (apply get_ok; exact Hi).
  erewrite bind_ok by reflexivity.
  erewrite bind_ok by (apply get_ok; exact Hi).
  erewrite bind_ok with (a := content_sent (store w) input message) (w' := w)
    by (unfold nullish_or, content_sent;
        destruct (is_nullish (prop (store w) input "content"));
        [now apply get_ok | reflexivity]).
  erewrite bind_ok by (apply get_ok; exact Hi).
  erewrite bind_ok by apply given_empty_spec.
  fold (caller_embed (store w) input).
  erewrite bind_ok by (now apply embeds_block_spec).
  set (h := store w). set (E := embeds_allocs h input message).
  assert (Hvi' : valid (h ++ E) input) by now apply valid_app.
  assert (Hvm' : valid (h ++ E) message) by now apply valid_app.
  erewrite bind_ok by (apply get_ok; exact Hi).
  erewrite bind_ok by apply given_empty_spec.
  cbn [store with_store].
  rewrite (prop_app h E input) by easy.
  rewrite given_emptyb_app by now apply closed_prop_valid.
  unfold body_loc, edit_allocs, body_object, components_fresh, attachments_fresh.
  fold h. fold E.
  destruct (given_emptyb h (prop h input "components")) eqn:Hk; cbn [orb].
  - erewrite bind_ok by apply new_array_spec. cbn [store with_store].
    rewrite with_store_twice.
    erewrite bind_ok by (apply get_ok; exact Hi).
    erewrite bind_ok by (apply get_ok; exact Hi).
    cbn [store with_store]. rewrite <- app_assoc.
    rewrite !(prop_app h _ input) by easy.
    unfold nullish_or.
    destruct (is_nullish (prop h input "attachments")) eqn:Ha; cbn [andb].
    + erewrite bind_ok.
      2:{ erewrite bind_ok by (apply get_ok; exact Hm). apply kept_or_fresh_spec. }
      cbn [store with_store]. rewrite (prop_app h _ message) by easy.
      rewrite new_object_spec. cbn [store with_store].
      rewrite !with_store_twice, <- !app_assoc, !length_app.
      destruct (is_nullish (prop h message "attachments")); cbn [length app];
        same_up_to_arith.
    + erewrite bind_ok by reflexivity.
      rewrite new_object_spec. cbn [store with_store].
      rewrite !with_store_twice, <- !app_assoc, !length_app. cbn [length app].
      same_up_to_arith.
  - erewrite bind_ok.
    2:{ erewrite bind_ok by (apply get_ok; exact Hm). apply kept_or_fresh_spec. }
    cbn [store with_store]. rewrite (prop_app h E message) by easy.
    rewrite with_store_twice.
    erewrite bind_ok by (apply get_ok; exact Hi).
    erewrite bind_ok by (apply get_ok; exact Hi).
    cbn [store with_store]. rewrite <- app_assoc.
    rewrite !(prop_app h _ input) by easy.
    unfold nullish_or at 1.
    destruct (is_nullish (prop h input "attachments")) eqn:Ha; cbn [andb].
    + erewrite bind_ok.
      2:{ erewrite bind_ok by (apply get_ok; exact Hm). apply kept_or_fresh_spec. }
      cbn [store with_store]. rewrite (prop_app h _ message) by easy.
      rewrite new_object_spec. cbn [store with_store].
      rewrite !with_store_twice, <- !app_assoc, !length_app.
      destruct (is_nullish (prop h message "components"));
        destruct (is_nullish (prop h message "attachments")); cbn [length app];
        rewrite ?app_nil_r; same_up_to_arith.
    + erewrite bind_ok by reflexivity.
      rewrite new_object_spec. cbn [store with_store].
      rewrite !with_store_twice, <- !app_assoc, !length_app.
      destruct (is_nullish (prop h message "components")); cbn [length app];
        rewrite ?app_nil_r; same_up_to_arith.
Qed.

End EditBodySpec.

(** ** The first steps of the operations *)

Section FirstSteps.
Context {C : Collaborators}.

Lemma original_path_spec params w :
  is_nullish params = false ->
  original_path params w = (Ok (original_endpoint (store w) params), w).
Proof.
  intros Hp. unfold original_path.
  do 2 erewrite bind_ok by (apply get_ok; exact Hp). reflexivity.
Qed.

Lemma callback_path_spec params w :
  is_nullish params = false ->
  callback_path params w = (Ok (callback_endpoint (store w) params), w).
Proof.
  intros Hp. unfold callback_path.
  do 2 erewrite bind_ok by (apply get_ok; exact Hp). reflexivity.
Qed.

Lemma webhook_path_spec params w :
  is_nullish params = false ->
  webhook_path params w = (Ok (webhook_endpoint (store w) params), w).
Proof.
  intros Hp. unfold webhook_path.
  do 2 erewrite bind_ok by (apply get_ok; exact Hp). reflexivity.
Qed.

Lemma followup_message_path_spec params input w :
  is_nullish params = false -> is_nullish input = false ->
  followup_message_path params input w
  = (Ok (followup_endpoint (store w) params input), w).
Proof.
  intros Hp Hi. unfold followup_message_path, followup_endpoint.
  do 2 erewrite bind_ok by (apply get_ok; exact Hp).
  erewrite bind_ok by (apply get_ok; exact Hi).
  erewrite bind_ok by reflexivity.
  erewrite bind_ok by (apply get_ok; exact Hi).
  destruct (truthy (prop (store w) input "thread_id")); [|reflexivity].
  erewrite bind_ok.
  2:{ erewrite bind_ok by (apply get_ok; exact Hi). reflexivity. }
  reflexivity.
Qed.

Lemma has_attachments_spec input w :
  is_nullish input = false ->
  has_attachments input w = (Ok (attachedb (store w) input), w).
Proof.
  intros Hi. unfold has_attachments, attachedb.
  erewrite bind_ok by (apply get_ok; exact Hi).
  destruct (truthy (prop (store w) input "attachments")) eqn:Ha; [|reflexivity].
  erewrite bind_ok by (apply get_ok; exact Hi).
  erewrite bind_ok by (apply get_ok; now apply truthy_not_nullish).
  reflexivity.
Qed.

Lemma ephemeral_flags_spec input w :
  is_nullish input = false ->
  ephemeral_flags input w = (Ok (VNum (flags_of (store w) input)), w).
Proof.
  intros Hi. unfold ephemeral_flags.
  erewrite bind_ok by (apply get_ok; exact Hi). reflexivity.
Qed.

Lemma default_object_given input w :
  input <> VUndef -> default_object input w = (Ok input, w).
Proof. now destruct input. Qed.

Lemma nullish_not_undef v : is_nullish v = false -> v <> VUndef.
Proof. now destruct v. Qed.

(** [edit_original] without attachments, up to the answer to its GET. *)
Lemma edit_original_json params input w :
  is_nullish params = false -> is_nullish input = false ->
  attachedb (store w) input = false ->
  let p := original_endpoint (store w) params in
  let w1 := with_event w (EAttempt "get" p VUndef) in
  callback.edit_original params input w
  = match network w (EAttempt "get" p VUndef) with
    | Throw _ => (Ok VNull, w1)
    | Ok (objs, message) =>
        let w2 := with_store w1 (store w ++ objs) in
        if truthy message then
          (let! body := edit_body input message in send_patch p body) w2
        else (Ok VNull, w2)
    end.
Proof.
  intros Hp Hi Ha p w1. unfold callback.edit_original.
  erewrite bind_ok by (apply default_object_given; now apply nullish_not_undef).
  erewrite bind_ok by (now apply original_path_spec).
  erewrite bind_ok by (now apply has_attachments_spec).
  rewrite Ha. fold p.
  unfold bind at 1, try_catch.
  erewrite bind_ok by (now apply original_path_spec).
  fold p. unfold attemptHandler at 1, call.
  destruct (network w (EAttempt "get" p VUndef)) as [[objs message]|e];
    cbn [absorb ret negb]; fold w1; [|reflexivity].
  destruct (truthy message); reflexivity.
Qed.

(** [followup.edit] without attachments, up to the answer to its GET. *)
Lemma followup_edit_json params input w :
  is_nullish params = false -> is_nullish input = false ->
  attachedb (store w) input = false ->
  let p := followup_endpoint (store w) params input in
  let w1 := with_event w (EAttempt "get" p VUndef) in
  followup.edit params input w
  = match network w (EAttempt "get" p VUndef) with
    | Throw e => (Throw e, w1)
    | Ok (objs, message) =>
        (let! body := edit_body input message in send_patch p body)
          (with_store w1 (store w ++ objs))
    end.
Proof.
  intros Hp Hi Ha p w1. unfold followup.edit.
  erewrite bind_ok by (now apply ephemeral_flags_spec).
  erewrite bind_ok by (now apply followup_message_path_spec).
  erewrite bind_ok by (now apply has_attachments_spec).
  rewrite Ha. fold p.
  unfold bind at 1, attemptHandler at 1, call.
  destruct (network w (EAttempt "get" p VUndef)) as [[objs message]|e];
    cbn [absorb]; fold w1; reflexivity.
Qed.

End FirstSteps.

(** ** What an edit sends *)

Section EditSends.
Context {C : Collaborators}.

Lemma lookup_after {A} (h X : list A) x Y :
  (h ++ X ++ x :: Y) !! (length h + length X) = Some x.
Proof. rewrite app_assoc. apply list_lookup_middle. now rewrite length_app. Qed.

Lemma sent_body_lookup h input message :
  sent_store h input message !! body_loc h input message
  = Some (body_object h input message).
Proof. apply lookup_after. Qed.

Lemma edit_sends input message p w :
  is_nullish input = false -> is_nullish message = false ->
  closed (store w) -> valid (store w) input -> valid (store w) message ->
  (let! body := edit_body input message in send_patch p body) w
  = send_patch p (VRef (body_loc (store w) input message))
      (with_store w (sent_store (store w) input message)).
Proof.
  intros Hi Hm Hc Hvi Hvm.
  erewrite bind_ok by (now apply edit_body_spec). reflexivity.
Qed.

Lemma given_emptyb_elements h x :
  given_emptyb h x = true <-> (elements h x = Some [] \/
    (truthy x = true /\ truthy (prop h x "length") = false /\ elements h x <> Some [])).
Proof.
  unfold given_emptyb. split.
  - intros H. apply andb_true_iff in H as [Hx Hl]. apply negb_true_iff in Hl.
    destruct (elements h x) as [[|c cs]|] eqn:He; [now left| |]; right; easy.
  - intros [He|(Hx & Hl & _)].
    + destruct x; try easy. simpl in *. destruct (h !! l) as [[[|[|]|] ps]|]; easy.
    + now rewrite Hx, Hl.
Qed.

Lemma elements_empty_given h x : elements h x = Some [] -> given_emptyb h x = true.
Proof. intros H. apply given_emptyb_elements. now left. Qed.

Lemma elements_cons_not_given h x c cs :
  elements h x = Some (c :: cs) -> given_emptyb h x = false.
Proof.
  destruct x; try easy. unfold given_emptyb. simpl.
  destruct (h !! l) as [[[|elems|] ps]|]; try easy.
  intros [= ->]. simpl. reflexivity.
Qed.

Lemma sent_components h input message :
  prop (sent_store h input message) (VRef (body_loc h input message)) "components"
  = if components_fresh h input message
    then VRef (length h + length (embeds_allocs h input message))
    else prop h message "components".
Proof.
  unfold prop. rewrite sent_body_lookup. reflexivity.
Qed.

Lemma sent_components_fresh h input message :
  components_fresh h input message = true ->
  elements (sent_store h input message)
    (VRef (length h + length (embeds_allocs h input message))) = Some [].
Proof.
  intros Hf. unfold elements, sent_store, edit_allocs. rewrite Hf.
  rewrite <- !app_assoc. cbn [app]. now rewrite lookup_after.
Qed.

Lemma components_claim_holds h input message :
  components_claim h (sent_store h input message) input message
    (VRef (body_loc h input message)).
Proof.
  unfold components_claim. rewrite sent_components. split.
  - intros He. unfold components_fresh. rewrite (elements_empty_given _ _ He).
    cbn [orb]. apply sent_components_fresh. unfold components_fresh.
    now rewrite (elements_empty_given _ _ He).
  - intros Hmine.
    assert (Hg : given_emptyb h (prop h input "components") = false).
    { destruct Hmine as [->|(c & cs & He)]; [reflexivity|].
      eapply elements_cons_not_given; eauto. }
    assert (Hf : components_fresh h input message
                 = is_nullish (prop h message "components"))
      by (unfold components_fresh; now rewrite Hg).
    destruct (is_nullish (prop h message "components")) eqn:Hk;
      rewrite Hf; [|reflexivity].
    now apply sent_components_fresh.
Qed.

(** What both edits send, whatever is claimed of it. *)
Lemma edits_send (P : heap -> heap -> value -> value -> value -> Prop)
    (params input : value) (w : world) (objs : list object) (message : value) :
  (forall h, P h (sent_store h input message) input message
               (VRef (body_loc h input message))) ->
  is_nullish params = false -> is_nullish input = false ->
  attachedb (store w) input = false ->
  let h := store w ++ objs in
  closed h -> valid h input -> valid h message ->
  (let p := original_endpoint (store w) params in
   network w (EAttempt "get" p VUndef) = Ok (objs, message) ->
   truthy message = true ->
   let wb := patch_world w p objs input message in
   let body := patch_body w objs input message in
   callback.edit_original params input w = send_patch p body wb
   /\ P h (store wb) input message body)
  /\ (let p := followup_endpoint (store w) params input in
      network w (EAttempt "get" p VUndef) = Ok (objs, message) ->
      is_nullish message = false ->
      let wb := patch_world w p objs input message in
      let body := patch_body w objs input message in
      followup.edit params input w = send_patch p body wb
      /\ P h (store wb) input message body).
Proof.
  intros HP Hp Hi Ha h Hc Hvi Hvm. split; intros p Hn Hm.
  - rewrite edit_original_json by easy. fold p. rewrite Hn. cbv zeta. rewrite Hm.
    rewrite edit_sends by first [ assumption | now apply truthy_not_nullish ].
    split; [reflexivity|]. apply HP.
  - rewrite followup_edit_json by easy. fold p. rewrite Hn.
    rewrite edit_sends by assumption.
    split; [reflexivity|]. apply HP.
Qed.

End EditSends.

Section EditClaims.
Context {C : Collaborators}.

(** C1. In an edit without attachments the components of the body are a
    new empty array when the caller passes an empty array; when the caller
    passes none, or a non-empty array, they are the fetched message's
    components, or a new empty array if the message has none: what the caller
    passed is not sent. *)
Theorem edit_components_follow_existing
    (params input : value) (w : world) (objs : list object) (message : value) :
  is_nullish params = false -> is_nullish input = false ->
  attachedb (store w) input = false ->
  let h := store w ++ objs in
  closed h -> valid h input -> valid h message ->
  (let p := original_endpoint (store w) params in
   network w (EAttempt "get" p VUndef) = Ok (objs, message) ->
   truthy message = true ->
   let wb := patch_world w p objs input message in
   let body := patch_body w objs input message in
   callback.edit_original params input w = send_patch p body wb
   /\ components_claim h (store wb) input message body)
  /\ (let p := followup_endpoint (store w) params input in
      network w (EAttempt "get" p VUndef) = Ok (objs, message) ->
      is_nullish message = false ->
      let wb := patch_world w p objs input message in
      let body := patch_body w objs input message in
      followup.edit params input w = send_patch p body wb
      /\ components_claim h (store wb) input message body).
Proof. apply (edits_send components_claim). intros h0. apply components_claim_holds. Qed.

End EditClaims.

Lemma edit_components_follow_existing_witness :
  let w := edit_world in
  let h := store w ++ fst (scripted_message 6) in
  (let p := "webhooks/42/tok/messages/@original" in
   let wb := patch_world w p (fst (scripted_message 6)) (VRef 1) (VRef 6) in
   let body := patch_body w (fst (scripted_message 6)) (VRef 1) (VRef 6) in
   callback.edit_original (C := scripted) (VRef 0) (VRef 1) w
   = send_patch (C := scripted) p body wb
   /\ components_claim h (store wb) (VRef 1) (VRef 6) body)
  /\ (let p := "webhooks/42/tok/messages/55?" in
      let wb := patch_world w p (fst (scripted_message 6)) (VRef 1) (VRef 6) in
      let body := patch_body w (fst (scripted_message 6)) (VRef 1) (VRef 6) in
      followup.edit (C := scripted) (VRef 0) (VRef 1) w
      = send_patch (C := scripted) p body wb
      /\ components_claim h (store wb) (VRef 1) (VRef 6) body).
Proof.
  intros w h.
  destruct (edit_components_follow_existing (C := scripted) (VRef 0) (VRef 1) w
              (fst (scripted_message 6)) (VRef 6)) as [A B];
    try reflexivity.
  split; [apply A | apply B]; reflexivity.
Defined.

Section EditEmbeds.

Lemma lookup_past {A} (h X : list A) i : (h ++ X) !! (length h + i) = X !! i.
Proof. rewrite lookup_app_r by lia. f_equal. lia. Qed.

Lemma sent_embeds h input message :
  prop (sent_store h input message) (VRef (body_loc h input message)) "embeds"
  = VRef (length h + length (embeds_allocs h input message) - 1).
Proof.
  unfold prop. rewrite sent_body_lookup. reflexivity.
Qed.

Lemma sent_embeds_cleared h input message :
  given_emptyb h (prop h input "embeds") = true ->
  elements (sent_store h input message)
    (prop (sent_store h input message) (VRef (body_loc h input message)) "embeds")
  = Some [].
Proof.
  intros Hg. rewrite sent_embeds. unfold sent_store, edit_allocs, embeds_allocs.
  rewrite Hg. cbn [length]. replace (length h + 1 - 1) with (length h + 0) by lia.
  unfold elements. now rewrite lookup_past.
Qed.

Lemma lookup_past0 {A} (h X : list A) : (h ++ X) !! length h = X !! 0.
Proof. rewrite <- (lookup_past h X 0). f_equal. lia. Qed.

Lemma prop_plain h l ps k :
  h !! l = Some (Object Plain ps) -> prop h (VRef l) k = named ps k.
Proof. intros H. unfold prop. now rewrite H. Qed.

(** Read a property of a plain object whose place past [h] is known. *)
Ltac read_plain :=
  erewrite prop_plain
    by (first [ rewrite lookup_past | rewrite lookup_past0 ]; reflexivity);
  cbv [named assoc String.eqb Ascii.eqb Bool.eqb].

(** The merged embed read back, sub-field by sub-field. *)
Lemma merged_objects_read h Y embed message ks :
  In ks subfields ->
  path (h ++ merged_objects h embed message ++ Y) (VRef (length h + 4)) ks
  = merged_field h embed message ks.
Proof.
  intros Hin. unfold merged_objects.
  set (f := merged_field h embed message). clearbody f.
  unfold subfields in Hin. cbn [In] in Hin.
  repeat (destruct Hin as [<-|Hin];
          [unfold path; cbn [fold_left]; repeat read_plain; reflexivity|]).
  contradiction.
Qed.

End EditEmbeds.

Section EditEmbedsClaims.
Context {C : Collaborators}.

Lemma sent_embeds_merged h input message :
  given_emptyb h (prop h input "embeds") = false ->
  let hs := sent_store h input message in
  elements hs (prop hs (VRef (body_loc h input message)) "embeds")
  = Some [VRef (length h + 4)]
  /\ forall ks, In ks subfields ->
       path hs (VRef (length h + 4)) ks
       = merged_field h (caller_embed h input) message ks.
Proof.
  intros Hg hs. subst hs. rewrite sent_embeds.
  unfold sent_store, edit_allocs, embeds_allocs. rewrite Hg.
  rewrite length_app. cbn [length merged_objects].
  replace (length h + (5 + 1) - 1) with (length h + 5) by lia.
  rewrite <- !app_assoc. split.
  - unfold elements. rewrite lookup_past. reflexivity.
  - intros ks Hin. now apply merged_objects_read.
Qed.

Lemma path_undef h ks : path h VUndef ks = VUndef.
Proof. unfold path. induction ks; simpl; auto. Qed.


Lemma caller_embed_omitted h input :
  prop h input "embeds" = VUndef -> caller_embed h input = VUndef.
Proof. intros H. unfold caller_embed. now rewrite H. Qed.


Lemma embeds_claim_holds h input message :
  embeds_claim h (sent_store h input message) input message
    (VRef (body_loc h input message)).
Proof.
  split.
  - intros He. apply sent_embeds_cleared. now apply elements_empty_given.
  - intros Hu.
    destruct (sent_embeds_merged h input message) as [Hs Hf];
      [now rewrite Hu|].
    eexists. split; [exact Hs|]. intros ks Hin. rewrite (Hf ks Hin).
    unfold merged_field. rewrite caller_embed_omitted by easy.
    now rewrite path_undef.
Qed.


(** C2, amended. In an edit without attachments the embeds of the body are a
    new empty array when the caller passes an empty array; when the caller
    passes no embeds they are an array of one embed, each sub-field of which
    is the same sub-field of the fetched message's first embed. *)
Theorem edit_embeds_cleared_or_rebuilt
    (params input : value) (w : world) (objs : list object) (message : value) :
  is_nullish params = false -> is_nullish input = false ->
  attachedb (store w) input = false ->
  let h := store w ++ objs in
  closed h -> valid h input -> valid h message ->
  (let p := original_endpoint (store w) params in
   network w (EAttempt "get" p VUndef) = Ok (objs, message) ->
   truthy message = true ->
   let wb := patch_world w p objs input message in
   let body := patch_body w objs input message in
   callback.edit_original params input w = send_patch p body wb
   /\ embeds_claim h (store wb) input message body)
  /\ (let p := followup_endpoint (store w) params input in
      network w (EAttempt "get" p VUndef) = Ok (objs, message) ->
      is_nullish message = false ->
      let wb := patch_world w p objs input message in
      let body := patch_body w objs input message in
      followup.edit params input w = send_patch p body wb
      /\ embeds_claim h (store wb) input message body).
Proof. apply (edits_send embeds_claim). intros h. apply embeds_claim_holds. Qed.


End EditEmbedsClaims.

Lemma edit_embeds_cleared_or_rebuilt_witness :
  let w := content_edit_world in
  let h := store w ++ fst (scripted_message 2) in
  (let p := "webhooks/42/tok/messages/@original" in
   let wb := patch_world w p (fst (scripted_message 2)) (VRef 1) (VRef 2) in
   let body := patch_body w (fst (scripted_message 2)) (VRef 1) (VRef 2) in
   callback.edit_original (C := scripted) (VRef 0) (VRef 1) w
   = send_patch (C := scripted) p body wb
   /\ embeds_claim h (store wb) (VRef 1) (VRef 2) body)
  /\ (let p := "webhooks/42/tok/messages/55?" in
      let wb := patch_world w p (fst (scripted_message 2)) (VRef 1) (VRef 2) in
      let body := patch_body w (fst (scripted_message 2)) (VRef 1) (VRef 2) in
      followup.edit (C := scripted) (VRef 0) (VRef 1) w
      = send_patch (C := scripted) p body wb
      /\ embeds_claim h (store wb) (VRef 1) (VRef 2) body).
Proof.
  intros w h.
  destruct (edit_embeds_cleared_or_rebuilt (C := scripted) (VRef 0) (VRef 1) w
              (fst (scripted_message 2)) (VRef 2)) as [A B];
    try reflexivity.
  split; [apply A | apply B]; reflexivity.
Defined.

(** C2 as stated fails: the caller passes no embeds, the fetched message has
    none, and the body carries one, built from nothing. *)
Lemma edit_embeds_not_kept :
  let w := content_edit_world in
  let p := "webhooks/42/tok/messages/@original" in
  exists r w',
    callback.edit_original (C := scripted_with bare_message) (VRef 0) (VRef 1) w
    = (r, w')
    /\ net w' = [EAttempt "get" p VUndef; EAttempt "patch" p (VRef 12)]
    /\ prop (store w) (VRef 1) "embeds" = VUndef
    /\ elements (store w') (prop (store w') (VRef 2) "embeds") = Some []
    /\ elements (store w') (prop (store w') (VRef 12) "embeds") = Some [VRef 9]
    /\ ~ embeds_claim_as_stated (store w') (store w') (VRef 1) (VRef 2) (VRef 12).
Proof.
  intros w p. eexists _, _. split; [vm_compute; reflexivity|].
  repeat split; try reflexivity.
  intros [_ H]. specialize (H eq_refl). vm_compute in H. discriminate H.
Qed.


(** The override at work: the new title, and the old colour. *)
Example edit_override_sample :
  let '(_, w') := callback.edit_original (C := scripted) (VRef 0) (VRef 1) edit_world in
  exists body,
    last (net w') = Some (EAttempt "patch" "webhooks/42/tok/messages/@original" body)
    /\ path (store w') body ["embeds"] <> VUndef
    /\ path (store w') (index (store w') (prop (store w') body "embeds") 0) ["title"]
       = VStr "new title"
    /\ path (store w') (index (store w') (prop (store w') body "embeds") 0) ["color"]
       = VNum 255.
Proof. vm_compute. eexists. repeat split. discriminate. Qed.


(** A sub-field the caller gives as [null] does not go out either: [??]
    takes the message's for it. *)
Example edit_null_subfield_replaced :
  let w := null_colour_world in
  let h := store w ++ fst (scripted_message 4) in
  exists r w',
    callback.edit_original (C := scripted) (VRef 0) (VRef 1) w = (r, w')
    /\ net w' = [EAttempt "get" "webhooks/42/tok/messages/@original" VUndef;
                 EAttempt "patch" "webhooks/42/tok/messages/@original" (VRef 15)]
    /\ path h (VRef 3) ["color"] = VNull
    /\ path (store w') (index (store w') (prop (store w') (VRef 15) "embeds") 0)
         ["color"] = VNum 255
    /\ ~ override_claim_as_stated h (store w') (VRef 1) (VRef 4) (VRef 15).
Proof.
  intros w h. eexists _, _. split; [vm_compute; reflexivity|].
  repeat (split; [reflexivity|]).
  intros H. destruct (H (VRef 3) [] eq_refl) as (m & Hm & Hf).
  vm_compute in Hm. injection Hm as <-.
  specialize (Hf ["color"]). vm_compute in Hf.
  discriminate Hf. tauto.
Qed.

Section EditFailures.
Context {C : Collaborators}.

(** C7. Without attachments, [edit_original] resolves with [null], and sends
    no PATCH, when the GET of the original message is rejected; a rejection
    of the PATCH, or of [extendPayload] after it, is the rejection of
    [edit_original]. *)
Theorem edit_original_null_on_missing_message (params input : value) (w : world) :
  is_nullish params = false -> is_nullish input = false ->
  attachedb (store w) input = false ->
  let p := original_endpoint (store w) params in
  (forall e,
     network w (EAttempt "get" p VUndef) = Throw e ->
     callback.edit_original params input w
     = (Ok VNull, with_event w (EAttempt "get" p VUndef)))
  /\ (forall objs message,
        network w (EAttempt "get" p VUndef) = Ok (objs, message) ->
        truthy message = true ->
        let h := store w ++ objs in
        closed h -> valid h input -> valid h message ->
        let wb := patch_world w p objs input message in
        let body := patch_body w objs input message in
        (forall e,
           network wb (EAttempt "patch" p body) = Throw e ->
           callback.edit_original params input w
           = (Throw e, with_event wb (EAttempt "patch" p body)))
        /\ (forall objs' attempt e,
              network wb (EAttempt "patch" p body) = Ok (objs', attempt) ->
              let w1 := with_event wb (EAttempt "patch" p body) in
              let w2 := with_store w1 (store w1 ++ objs') in
              extendPayload w2 attempt = Throw e ->
              callback.edit_original params input w = (Throw e, w2))).
Proof.
  intros Hp Hi Ha p. split.
  - intros e Hn. rewrite edit_original_json by easy. fold p. now rewrite Hn.
  - intros objs message Hn Hm h Hc Hvi Hvm wb body.
    destruct (edits_send (fun _ _ _ _ _ => True) params input w objs message)
      as [A _]; auto.
    destruct (A Hn Hm) as [Heq _]. fold p wb body in Heq. rewrite Heq.
    unfold send_patch, attemptHandler, call, external. split.
    + intros e He. unfold bind. now rewrite He.
    + intros objs' attempt e He Hx. unfold bind. rewrite He. cbn [absorb].
      now rewrite Hx.
Qed.

End EditFailures.

Lemma edit_original_null_on_missing_message_witness :
  let w := content_edit_world in
  let p := "webhooks/42/tok/messages/@original" in
  callback.edit_original (C := offline) (VRef 0) (VRef 1) w
  = (Ok VNull, with_event w (EAttempt "get" p VUndef))
  /\ (let wb := patch_world w p (fst (scripted_message 2)) (VRef 1) (VRef 2) in
      let body := patch_body w (fst (scripted_message 2)) (VRef 1) (VRef 2) in
      callback.edit_original (C := read_only) (VRef 0) (VRef 1) w
      = (Throw (Rejected (VStr "403")), with_event wb (EAttempt "patch" p body))).
Proof.
  intros w p. split.
  - apply (proj1 (edit_original_null_on_missing_message (C := offline)
                    (VRef 0) (VRef 1) w eq_refl eq_refl eq_refl)
             (Rejected (VStr "ECONNRESET"))).
    reflexivity.
  - apply (proj1 (proj2 (edit_original_null_on_missing_message (C := read_only)
                           (VRef 0) (VRef 1) w eq_refl eq_refl eq_refl)
                    (fst (scripted_message 2)) (VRef 2)
                    eq_refl eq_refl eq_refl eq_refl eq_refl)).
    reflexivity.
Defined.

Lemma get_original_swallows_failures_witness :
  let w := content_edit_world in
  let p := "webhooks/42/tok/messages/@original" in
  callback.get_original (C := offline) (VRef 0) w
  = (Ok VNull, with_event w (EAttempt "get" p VUndef))
  /\ callback.get_original (C := scripted) (VRef 0) w
     = (Ok (VRef 2),
        with_store (with_event w (EAttempt "get" p VUndef))
          ((store w ++ fst (scripted_message 2)) ++ [])).
Proof.
  intros w p. split.
  - apply (proj1 (proj2 (get_original_swallows_failures (C := offline) (VRef 0) w))
             p w (Rejected (VStr "ECONNRESET"))); reflexivity.
  - apply (proj2 (proj2 (get_original_swallows_failures (C := scripted) (VRef 0) w))
             p w (fst (scripted_message 2)) (VRef 2) [] (VRef 2)); reflexivity.
Defined.

Section FollowupEditFlags.
Context {C : Collaborators}.

(** C4, where the code departs from it. Without attachments the body
    [followup.edit] sends has no [flags], however [ephemeral] is set. *)
Theorem followup_edit_sends_no_flags
    (params input : value) (w : world) (objs : list object) (message : value) :
  is_nullish params = false -> is_nullish input = false ->
  attachedb (store w) input = false ->
  truthy (prop (store w) input "ephemeral") = true ->
  let h := store w ++ objs in
  closed h -> valid h input -> valid h message ->
  let p := followup_endpoint (store w) params input in
  network w (EAttempt "get" p VUndef) = Ok (objs, message) ->
  is_nullish message = false ->
  let wb := patch_world w p objs input message in
  let body := patch_body w objs input message in
  followup.edit params input w = send_patch p body wb
  /\ prop (store wb) body "flags" = VUndef.
Proof.
  intros Hp Hi Ha _ h Hc Hvi Hvm p Hn Hm.
  destruct (edits_send (fun _ hs _ _ body => prop hs body "flags" = VUndef)
              params input w objs message) as [_ B]; auto.
  intros h0. unfold prop. now rewrite sent_body_lookup.
Qed.

End FollowupEditFlags.

Lemma followup_edit_sends_no_flags_witness :
  let w := content_edit_world in
  let p := "webhooks/42/tok/messages/55?" in
  let wb := patch_world w p (fst (scripted_message 2)) (VRef 1) (VRef 2) in
  let body := patch_body w (fst (scripted_message 2)) (VRef 1) (VRef 2) in
  followup.edit (C := scripted) (VRef 0) (VRef 1) w
  = send_patch (C := scripted) p body wb
  /\ prop (store wb) body "flags" = VUndef.
Proof.
  intros w p.
  apply (followup_edit_sends_no_flags (C := scripted) (VRef 0) (VRef 1) w
           (fst (scripted_message 2)) (VRef 2)); reflexivity.
Defined.

(** ** Serialising *)

Section Serialising.

Lemma snapshot_primitive f h st v :
  primitive v = true -> snapshot f h st v = Some (json_of v).
Proof. destruct v; try discriminate; now destruct f. Qed.

Lemma snapshot_fields_flat go ps :
  (forall v, primitive v = true -> go v = Some (json_of v)) ->
  forallb primitive (map snd ps) = true ->
  snapshot_fields go ps = Some (fields_of ps).
Proof.
  intros Hgo. induction ps as [|[k v] ps IH]; simpl; [reflexivity|].
  intros H. apply andb_true_iff in H as [Hv Hps].
  rewrite (Hgo v Hv), (IH Hps). now destruct (json_of v).
Qed.

(** The walk through [{ type: t, data: input }] for a flat [input]. *)
Lemma walk_wrapper_flat hs lw li t ps :
  hs !! lw = Some (Object Plain [("type", VNum t); ("data", VRef li)]) ->
  hs !! li = Some (Object Plain ps) ->
  forallb primitive (map snd ps) = true ->
  walk hs (VRef lw)
  = Some (Some (JObj [("type", JNum t); ("data", JObj (fields_of ps))])).
Proof.
  intros Hw Hi Hps.
  assert (Hne : li <> lw) by (intros ->; rewrite Hw in Hi; now inversion Hi; subst).
  unfold walk. pose proof (lookup_lt_Some _ _ _ Hw) as Hlen.
  destruct (length hs) as [|f] eqn:Hf; [lia|].
  cbn [snapshot existsb]. rewrite Hw. cbn [okind oprops snapshot_fields snapshot].
  apply Nat.eqb_neq in Hne. rewrite Hne. cbn [existsb orb].
  rewrite Hi. cbn [okind oprops].
  rewrite (snapshot_fields_flat _ ps); [reflexivity| |exact Hps].
  intros v Hv. now apply snapshot_primitive.
Qed.

End Serialising.

(** ** reply *)

Section Reply.
Context {C : Collaborators}.

Lemma set_ok v k x w :
  is_nullish v = false ->
  set v k x w = (Ok tt, with_store w (store_set (store w) v k x)).
Proof. intros H. unfold set. now rewrite H. Qed.

Lemma try_rethrow {A} (m : M A) w : try_catch m (fun e => throw e) w = m w.
Proof. unfold try_catch, throw. now destruct (m w) as [[a|e] w']. Qed.

(** [reply] once [input.flags] is written. *)
Lemma reply_enters params input w :
  is_nullish input = false ->
  let w1 := with_store w (store_set (store w) input "flags"
                            (VNum (flags_of (store w) input))) in
  callback.reply params input w
  = (let! attached := has_attachments input in
     let! message :=
       (if (attached : bool) then
          let! url := callback_path params in
          let! flags := get input "flags" in
          sendAttachment "data" input url "post" (VNum 4) flags
        else callback.reply_post params input) in
     callback.reply_result input message) w1.
Proof.
  intros Hi w1. unfold callback.reply.
  erewrite bind_ok by (apply default_object_given; now apply nullish_not_undef).
  erewrite bind_ok by (now apply ephemeral_flags_spec).
  erewrite bind_ok by (now apply set_ok).
  apply try_rethrow.
Qed.

Lemma reply_json params input w :
  is_nullish input = false ->
  let w1 := with_store w (store_set (store w) input "flags"
                            (VNum (flags_of (store w) input))) in
  attachedb (store w1) input = false ->
  callback.reply params input w
  = (let! message := callback.reply_post params input in
     callback.reply_result input message) w1.
Proof.
  intros Hi w1 Ha. rewrite reply_enters by easy. fold w1.
  erewrite bind_ok by (now apply has_attachments_spec). now rewrite Ha.
Qed.

(** The POST of [reply], answered with status 204. *)
Lemma reply_post_204 params input w j objs message :
  is_nullish params = false ->
  let hw := store w ++ [Object Plain [("type", VNum 4); ("data", input)]] in
  let ev := callback_post (callback_endpoint (store w) params) (VStr (render j)) in
  walk hw (VRef (length (store w))) = Some (Some j) ->
  network (with_store w hw) ev = Ok (objs, message) ->
  prop (hw ++ objs) message "statusCode" = VNum 204 ->
  callback.reply_post params input w
  = (Ok message, with_store (with_event w ev) (hw ++ objs)).
Proof.
  intros Hp hw ev Hwalk Hn Hs. unfold callback.reply_post.
  erewrite bind_ok by (now apply callback_path_spec).
  erewrite bind_ok by apply new_object_spec.
  erewrite bind_ok with (a := VStr (render j)) (w' := with_store w hw)
    by (unfold JSON_stringify; cbn [store with_store]; fold hw; now rewrite Hwalk).
  erewrite bind_ok with (a := message)
                        (w' := with_store (with_event w ev) (hw ++ objs))
    by (unfold call; fold (callback_post (callback_endpoint (store w) params)
                             (VStr (render j))); fold ev; now rewrite Hn).
  assert (Hm : is_nullish message = false)
    by (destruct message; try easy; discriminate Hs).
  erewrite bind_ok by (now apply get_ok).
  cbn [store with_store with_event]. rewrite Hs. reflexivity.
Qed.

Lemma reply_result_true input message w :
  is_nullish input = false -> is_nullish message = false ->
  truthy (prop (store w) input "return_date") = false ->
  callback.reply_result input message w = (Ok (VBool true), w).
Proof.
  intros Hi Hm Hr. unfold callback.reply_result.
  erewrite bind_ok by (now apply get_ok).
  destruct (truthy (prop (store w) message "headers")); [|reflexivity].
  erewrite bind_ok by (now apply get_ok). now rewrite Hr.
Qed.

End Reply.

Section ReplyHi.
Context {C : Collaborators}.

Lemma hi_body_renders : render hi_json = hi_body.
Proof. reflexivity. Qed.

(** C9, amended. For [reply(params, {ephemeral: true, content: 'hi'})] the
    body handed to the transport is
    [{type: 4, data: {ephemeral: true, content: 'hi', flags: 64}}], the input
    whole with its flags written; answered with status 204, [reply] resolves
    with [true]. *)
Theorem reply_hi_sends_input_whole
    (params : value) (w : world) (li : loc) (objs : list object) (message : value) :
  is_nullish params = false ->
  store w !! li = Some hi_input ->
  let h1 := <[li := hi_input_flagged]> (store w) in
  let hw := h1 ++ [Object Plain [("type", VNum 4); ("data", VRef li)]] in
  let ev := callback_post (callback_endpoint h1 params) (VStr hi_body) in
  network (with_store w hw) ev = Ok (objs, message) ->
  prop (hw ++ objs) message "statusCode" = VNum 204 ->
  walk hw (VRef (length h1)) = Some (Some hi_json)
  /\ callback.reply params (VRef li) w
     = (Ok (VBool true), with_store (with_event w ev) (hw ++ objs)).
Proof.
  intros Hp Hl h1 hw ev Hn Hs.
  pose proof (lookup_lt_Some _ _ _ Hl) as Hlen.
  assert (H1 : store_set (store w) (VRef li) "flags"
                 (VNum (flags_of (store w) (VRef li))) = h1).
  { unfold store_set, flags_of, prop. rewrite Hl. reflexivity. }
  assert (Hl1 : h1 !! li = Some hi_input_flagged)
    by now apply list_lookup_insert_eq.
  assert (Hlw : hw !! li = Some hi_input_flagged)
    by now apply lookup_app_l_Some.
  assert (Hwalk : walk hw (VRef (length h1)) = Some (Some hi_json)).
  { apply (walk_wrapper_flat hw (length h1) li 4 (oprops hi_input_flagged)).
    - unfold hw. now rewrite lookup_past0.
    - exact Hlw.
    - reflexivity. }
  split; [exact Hwalk|].
  rewrite reply_json; rewrite ?H1; cbn [store with_store]; try reflexivity.
  - erewrite bind_ok.
    2:{ apply (reply_post_204 params (VRef li) (with_store w h1) hi_json objs message);
        try assumption. }
    apply reply_result_true; try reflexivity.
    + destruct message; try easy; discriminate Hs.
    + cbn [store with_store with_event]. unfold prop.
      now rewrite (lookup_app_l_Some _ _ _ _ Hlw).
  - unfold attachedb, prop. now rewrite Hl1.
Qed.

End ReplyHi.

Lemma reply_hi_sends_input_whole_witness :
  let ev := callback_post "interactions/7/tok/callback" (VStr hi_body) in
  walk [params_object; hi_input_flagged;
        Object Plain [("type", VNum 4); ("data", VRef 1)]] (VRef 2)
  = Some (Some hi_json)
  /\ exists h',
       callback.reply (C := scripted) (VRef 0) (VRef 1) hi_world
       = (Ok (VBool true), with_store (with_event hi_world ev) h').
Proof.
  intros ev.
  destruct (reply_hi_sends_input_whole (C := scripted) (VRef 0) hi_world 1
              [Object Plain [("statusCode", VNum 204); ("headers", VRef 4);
                             ("body", VStr "")];
               Object Plain [("date", VStr "Mon, 02 Nov 2026 10:00:00 GMT")]]
              (VRef 3)) as [Hw Hr]; try reflexivity.
  split; [exact Hw|]. eexists. exact Hr.
Defined.

(** C9 as stated fails: the data sent keeps the key [ephemeral]. *)
Lemma reply_hi_body_keeps_ephemeral :
  exists w',
    callback.reply (C := scripted) (VRef 0) (VRef 1) hi_world = (Ok (VBool true), w')
    /\ net w' = [callback_post "interactions/7/tok/callback" (VStr hi_body)]
    /\ hi_body <> hi_body_as_stated
    /\ (forall data, json_field hi_json "data" = Some data ->
        json_keys data = ["ephemeral"; "content"; "flags"]).
Proof.
  eexists. split; [vm_compute; reflexivity|].
  split; [reflexivity|]. split; [discriminate|].
  intros data [= <-]. reflexivity.
Qed.

(** ** Writes to the store *)

Section Writes.

Lemma length_store_set h v k x : length (store_set h v k x) = length h.
Proof.
  unfold store_set. destruct v; try reflexivity.
  destruct (h !! l); [apply length_insert|reflexivity].
Qed.

Lemma valid_store_set h a k x b : valid h b -> valid (store_set h a k x) b.
Proof.
  destruct b; try easy. rewrite !valid_ref, length_store_set. easy.
Qed.

(** A write to one object leaves every other value as it was. *)
Lemma prop_store_set_elsewhere h a k x b k' :
  b <> a -> prop (store_set h a k x) b k' = prop h b k'.
Proof.
  intros Hne. unfold store_set. destruct a; try reflexivity.
  destruct (h !! l) as [o|] eqn:Hl; [|reflexivity].
  destruct b; try reflexivity. unfold prop.
  rewrite list_lookup_insert_ne; [reflexivity|]. congruence.
Qed.

Lemma assoc_set_other k x ps k' :
  k' <> k -> assoc k' (assoc_set k x ps) = assoc k' ps.
Proof.
  intros Hne. induction ps as [|[k0 v] ps IH]; simpl.
  - destruct (String.eqb_spec k' k); [contradiction|reflexivity].
  - destruct (String.eqb_spec k k0) as [->|Hk]; simpl.
    + destruct (String.eqb_spec k' k0); [contradiction|reflexivity].
    + now rewrite IH.
Qed.

Lemma assoc_set_same k x ps : assoc k (assoc_set k x ps) = Some x.
Proof.
  induction ps as [|[k0 v] ps IH]; simpl.
  - now rewrite String.eqb_refl.
  - destruct (String.eqb_spec k k0) as [->|Hk]; simpl.
    + now rewrite String.eqb_refl.
    + destruct (String.eqb_spec k k0); [contradiction|exact IH].
Qed.

(** A write to one property leaves every other property as it was. *)
Lemma prop_store_set_other_key h a k x b k' :
  k' <> k -> prop (store_set h a k x) b k' = prop h b k'.
Proof.
  intros Hne. unfold store_set. destruct a; try reflexivity.
  destruct (h !! l) as [o|] eqn:Hl; [|reflexivity].
  destruct b; try reflexivity. unfold prop.
  destruct (decide (l = l0)) as [<-|Hl0].
  - rewrite list_lookup_insert_eq by (eapply lookup_lt_Some; eauto).
    rewrite Hl. unfold write_prop, named. cbn [okind oprops].
    rewrite assoc_set_other by easy. reflexivity.
  - now rewrite list_lookup_insert_ne.
Qed.

Lemma prop_store_set_same h l o k x :
  h !! l = Some o -> k <> "length" ->
  prop (store_set h (VRef l) k x) (VRef l) k = x.
Proof.
  intros Hl Hk. unfold store_set, prop. rewrite Hl.
  rewrite list_lookup_insert_eq by (eapply lookup_lt_Some; eauto).
  unfold write_prop, named. cbn [okind oprops]. rewrite assoc_set_same.
  apply String.eqb_neq in Hk. rewrite Hk. now destruct (okind o).
Qed.

End Writes.

(** ** The first loop of sendAttachment *)

Section CheckAttachments.
Context {C : Collaborators}.

Lemma check_attachment_nullish a w :
  is_nullish a = true -> check_attachment a w = (Throw TypeError, w).
Proof.
  intros Ha. unfold check_attachment, bind, get. now rewrite Ha.
Qed.

Lemma check_attachment_spec a w :
  is_nullish a = false ->
  check_attachment a w
  = let h := store w in
    let file := prop h a "file" in
    if unusable h a then (Throw (Error (VStr missing_properties)), w)
    else if isValidMedia h file then
      match file with
      | VStr url => fetch_file a url w
      | _ => (Ok tt, w)
      end
    else if is_buffer h file then (Ok tt, w)
    else (Throw (Error (VStr invalid_file_type)), w).
Proof.
  intros Ha. unfold check_attachment, unusable. cbv zeta.
  erewrite bind_ok by (now apply get_ok).
  erewrite bind_ok with
    (a := negb (truthy (prop (store w) a "file"))
          && negb (truthy (prop (store w) a "url"))
          || negb (truthy (prop (store w) a "filename"))) (w' := w).
  2:{ destruct (truthy (prop (store w) a "file")); cbn [negb andb orb].
      - erewrite bind_ok by (now apply get_ok). reflexivity.
      - erewrite bind_ok by (now apply get_ok).
        destruct (truthy (prop (store w) a "url")); cbn [negb andb orb].
        + erewrite bind_ok by (now apply get_ok). reflexivity.
        + reflexivity. }
  destruct (_ || _); [reflexivity|].
  erewrite bind_ok by (now apply get_ok).
  erewrite bind_ok by reflexivity.
  destruct (isValidMedia (store w) (prop (store w) a "file")).
  - erewrite bind_ok by (now apply get_ok).
    now destruct (prop (store w) a "file").
  - erewrite bind_ok by (now apply get_ok).
    erewrite bind_ok by reflexivity.
    now destruct (is_buffer (store w) (prop (store w) a "file")).
Qed.

Lemma unusable_nullish h a : is_nullish a = true -> unusable h a = true.
Proof. now destruct a. Qed.

(** An attachment without a file or a filename stops the loop, before
    anything is fetched for it. *)
Lemma check_attachment_unusable a w :
  unusable (store w) a = true -> exists e, check_attachment a w = (Throw e, w).
Proof.
  intros Hu. destruct (is_nullish a) eqn:Ha.
  - eexists. now apply check_attachment_nullish.
  - eexists. rewrite check_attachment_spec by easy. cbv zeta. now rewrite Hu.
Qed.

Lemma fetch_file_outcome a url w r w' :
  fetch_file a url w = (r, w') ->
  net w' = net w ++ [EFetch url]
  /\ (r = Ok tt -> exists X x, store w' = store_set (store w ++ X) a "file" x).
Proof.
  unfold fetch_file, bind, call, get, Buffer_from, set, new_buffer, alloc.
  destruct (network w (EFetch url)) as [[objs response]|e]; cbn [absorb];
    [|intros [= <- <-]; split; [reflexivity|discriminate]].
  destruct (is_nullish response);
    [intros [= <- <-]; split; [reflexivity|discriminate]|].
  cbn [store with_store with_event].
  set (h1 := store w ++ objs).
  set (data := prop h1 response "data").
  assert (Hdone : forall bytes,
    (if is_nullish a
     then (Throw TypeError,
           with_store (with_store (with_event w (EFetch url)) h1)
             (h1 ++ [Object (Buffer bytes) []]))
     else (Ok tt,
           with_store
             (with_store (with_store (with_event w (EFetch url)) h1)
                (h1 ++ [Object (Buffer bytes) []]))
             (store_set (h1 ++ [Object (Buffer bytes) []]) a "file"
                (VRef (length h1))))) = (r, w') ->
    net w' = net w ++ [EFetch url]
    /\ (r = Ok tt -> exists X x, store w' = store_set (store w ++ X) a "file" x)).
  { intros bytes. destruct (is_nullish a); intros [= <- <-];
      (split; [reflexivity|]); [discriminate|].
    intros _. exists (objs ++ [Object (Buffer bytes) []]), (VRef (length h1)).
    cbn [store with_store]. unfold h1. now rewrite app_assoc. }
  destruct data as [| | | |s|l]; cbn [store with_store with_event];
    try (intros [= <- <-]; split; [reflexivity|discriminate]).
  - apply Hdone.
  - destruct (h1 !! l) as [[[|elems|bytes] ps]|]; cbn [store with_store];
      try (intros [= <- <-]; split; [reflexivity|discriminate]);
      apply Hdone.
Qed.

Lemma unusable_app h X b : valid h b -> unusable (h ++ X) b = unusable h b.
Proof. intros Hb. unfold unusable. now rewrite !prop_app. Qed.

Lemma unusable_store_set h a k x b :
  b <> a -> unusable (store_set h a k x) b = unusable h b.
Proof. intros Hne. unfold unusable. now rewrite !prop_store_set_elsewhere. Qed.

(** What one round of the loop can do: at most one fetch; and when it goes
    through, an attachment that was unusable still is. *)
Lemma check_attachment_round a w r w' :
  check_attachment a w = (r, w') ->
  (exists fetched, net w' = net w ++ map EFetch fetched /\ length fetched <= 1)
  /\ (r = Ok tt ->
      forall b, valid (store w) b -> unusable (store w) b = true ->
                valid (store w') b /\ unusable (store w') b = true).
Proof.
  assert (Hsame : forall r0, (r0, w) = (r, w') ->
    (exists fetched, net w' = net w ++ map EFetch fetched /\ length fetched <= 1)
    /\ (r = Ok tt ->
        forall b, valid (store w) b -> unusable (store w) b = true ->
                  valid (store w') b /\ unusable (store w') b = true)).
  { intros r0 [= <- <-]. split; [|auto].
    exists []. simpl. rewrite app_nil_r. split; [reflexivity|lia]. }
  destruct (is_nullish a) eqn:Ha.
  - rewrite check_attachment_nullish by easy. apply Hsame.
  - rewrite check_attachment_spec by easy. cbv zeta.
    destruct (unusable (store w) a) eqn:Hu; [apply Hsame|].
    destruct (isValidMedia _ _).
    + destruct (prop (store w) a "file") eqn:Hf; try apply Hsame.
      intros Hfetch. apply fetch_file_outcome in Hfetch as [Hnet Hstore].
      split; [exists [s]; split; [exact Hnet|simpl; lia]|].
      intros Hr b Hvb Hub. destruct (Hstore Hr) as (X & x & ->).
      assert (Hne : b <> a) by (intros ->; congruence).
      split.
      * now apply valid_store_set, valid_app.
      * rewrite unusable_store_set by easy. now rewrite unusable_app.
    + destruct (is_buffer _ _); apply Hsame.
Qed.

End CheckAttachments.

(** C5 as stated fails: the second attachment has no file, and the first
    one has been fetched by the time the error is raised. *)
Lemma reply_fetches_before_rejecting :
  exists w',
    callback.reply (C := scripted) (VRef 0) (VRef 1) half_attached_world
    = (Throw (Error (VStr missing_properties)), w')
    /\ unusable (store half_attached_world) (VRef 4) = true
    /\ net w' = [EFetch "https://example.org/a.png"]
    /\ net w' <> net half_attached_world.
Proof.
  eexists. split; [vm_compute; reflexivity|].
  repeat split; discriminate.
Qed.

(** ** What a computation may do to the store *)

Section StoreSteps.
Context {C : Collaborators}.
Variable R : heap -> heap -> Prop.
Hypothesis R_refl : forall h, R h h.
Hypothesis R_trans : forall h1 h2 h3, R h1 h2 -> R h2 h3 -> R h1 h3.
Hypothesis R_grow : forall h X, R h (h ++ X).

Lemma steps_ret {A} (a : A) : steps R (ret a).
Proof. intros w r w' [= <- <-]. apply R_refl. Qed.

Lemma steps_throw {A} e : steps R (@throw A e).
Proof. intros w r w' [= <- <-]. apply R_refl. Qed.

Lemma steps_bind {A B} (m : M A) (k : A -> M B) :
  steps R m -> (forall a, steps R (k a)) -> steps R (bind m k).
Proof.
  intros Hm Hk w r w'. unfold bind.
  destruct (m w) as [[a|e] w1] eqn:Hrun.
  - intros Hk'. eapply R_trans; [eapply Hm; eauto|eapply Hk; eauto].
  - intros [= <- <-]. eapply Hm; eauto.
Qed.

Lemma steps_try {A} (m : M A) (handler : error -> M A) :
  steps R m -> (forall e, steps R (handler e)) -> steps R (try_catch m handler).
Proof.
  intros Hm Hh w r w'. unfold try_catch.
  destruct (m w) as [[a|e] w1] eqn:Hrun.
  - intros [= <- <-]. eapply Hm; eauto.
  - intros Hh'. eapply R_trans; [eapply Hm; eauto|eapply Hh; eauto].
Qed.

Lemma steps_get v k : steps R (get v k).
Proof. intros w r w'. unfold get. destruct (is_nullish v); intros [= <- <-]; auto. Qed.

Lemma steps_get_index v i : steps R (get_index v i).
Proof.
  intros w r w'. unfold get_index. destruct (is_nullish v); intros [= <- <-]; auto.
Qed.

Lemma steps_get_opt v k : steps R (get_opt v k).
Proof. intros w r w' [= <- <-]. auto. Qed.

Lemma steps_read {A} (f : heap -> A) : steps R (read f).
Proof. intros w r w' [= <- <-]. auto. Qed.

Lemma steps_template parts : steps R (template parts).
Proof. apply steps_read. Qed.

Lemma steps_iterate v : steps R (iterate v).
Proof.
  intros w r w'. unfold iterate. destruct v; try (intros [= <- <-]; auto).
  destruct (store w !! l) as [[[|elems|bytes] ps]|]; intros [= <- <-]; auto.
Qed.

Lemma steps_JSON_stringify v : steps R (JSON_stringify v).
Proof.
  intros w r w'. unfold JSON_stringify.
  destruct (walk (store w) v) as [[j|]|]; intros [= <- <-]; auto.
Qed.

Lemma steps_JSON_stringify_pretty v : steps R (JSON_stringify_pretty v).
Proof.
  intros w r w'. unfold JSON_stringify_pretty.
  destruct (walk (store w) v) as [[j|]|]; intros [= <- <-]; auto.
Qed.

Lemma steps_alloc o : steps R (alloc o).
Proof. intros w r w' [= <- <-]. apply R_grow. Qed.

Lemma steps_absorb a : steps R (absorb a).
Proof.
  intros w r w'. unfold absorb. destruct a as [[objs v]|e]; intros [= <- <-]; auto.
  apply R_grow.
Qed.

Lemma steps_external f v : steps R (external f v).
Proof. intros w r w' H. now apply steps_absorb in H. Qed.

Lemma steps_call e : steps R (call e).
Proof. intros w r w' H. unfold call in H. now apply steps_absorb in H. Qed.

Lemma steps_set v k x :
  (forall h, R h (store_set h v k x)) -> steps R (set v k x).
Proof.
  intros Hset w r w'. unfold set.
  destruct (is_nullish v); intros [= <- <-]; [apply R_refl|apply Hset].
Qed.

Lemma steps_for_each {A} (l : list A) (body : A -> M unit) :
  (forall x, steps R (body x)) -> steps R (for_each l body).
Proof.
  intros Hb. induction l as [|x l IH]; cbn [for_each].
  - apply steps_ret.
  - apply steps_bind; auto.
Qed.

Lemma steps_fold_m {A B} (l : list A) (body : B -> A -> M B) :
  (forall acc x, steps R (body acc x)) -> forall acc, steps R (fold_m l acc body).
Proof.
  intros Hb. induction l as [|x l IH]; intros acc; cbn [fold_m].
  - apply steps_ret.
  - apply steps_bind; auto.
Qed.

Lemma steps_map_m_from {A B} (l : list A) (f : nat -> A -> M B) :
  (forall i x, steps R (f i x)) -> forall i, steps R (map_m_from i l f).
Proof.
  intros Hf. induction l as [|x l IH]; intros i; cbn [map_m_from].
  - apply steps_ret.
  - apply steps_bind; [auto|]. intros y. apply steps_bind; [auto|].
    intros ys. apply steps_ret.
Qed.

Lemma steps_nullish_or a b : steps R b -> steps R (nullish_or a b).
Proof. intros Hb. unfold nullish_or. destruct (is_nullish a); [exact Hb|apply steps_ret]. Qed.

Lemma steps_world_fun {A} (f : world -> M A) :
  (forall w0, steps R (f w0)) -> steps R (fun w => f w w).
Proof. intros Hf w r w' H. eapply Hf; eauto. Qed.

End StoreSteps.

(** Take a computation apart, down to its reads, allocations and calls, with
    the three facts about the relation at hand. Writes are left over. *)
Ltac steps_auto :=
  repeat first
    [ assumption
    | apply steps_ret | apply steps_throw
    | apply steps_get | apply steps_get_index | apply steps_get_opt
    | apply steps_read | apply steps_template | apply steps_iterate
    | apply steps_JSON_stringify | apply steps_JSON_stringify_pretty
    | apply steps_alloc | apply steps_external | apply steps_call
    | apply steps_absorb
    | apply steps_nullish_or
    | apply steps_for_each
    | apply steps_fold_m
    | apply steps_map_m_from
    | apply steps_bind
    | apply steps_try
    | match goal with
      | |- forall _, _ => intro
      | |- steps _ (if ?b then _ else _) => destruct b
      | |- steps _ (match ?v with _ => _ end) => destruct v
      | H : forall _, steps _ _ |- steps _ _ => apply H
      | H : forall _ _, steps _ _ |- steps _ _ => apply H
      end ].

(** ** The flags written by reply and component_update *)

Section Flags.
Context {C : Collaborators}.
Variables (li : loc) (x : value).











End Flags.

Section FlagsWritten.
Context {C : Collaborators}.
Variables (li : loc) (x : value).






End FlagsWritten.

(** ** Stores that change in a few properties only *)

Section Changes.
Variable K : string -> bool.

Lemma changes_refl h : changes K h h.
Proof. split; [lia|]. intros l o Hl. exists o. auto. Qed.

Lemma changes_trans h1 h2 h3 :
  changes K h1 h2 -> changes K h2 h3 -> changes K h1 h3.
Proof.
  intros [L1 H1] [L2 H2]. split; [lia|]. intros l o Hl.
  destruct (H1 l o Hl) as (o' & Hl' & Hk' & Hp').
  destruct (H2 l o' Hl') as (o'' & Hl'' & Hk'' & Hp'').
  exists o''. split; [exact Hl''|]. split; [congruence|].
  intros k Hk. rewrite Hp'' by easy. now apply Hp'.
Qed.

Lemma changes_grow h X : changes K h (h ++ X).
Proof.
  split; [rewrite length_app; lia|]. intros l o Hl. exists o.
  split; [now apply lookup_app_l_Some|auto].
Qed.

Lemma changes_set h v k x : K k = true -> changes K h (store_set h v k x).
Proof.
  intros Hk. split; [now rewrite length_store_set|]. intros l o Hl.
  unfold store_set. destruct v as [| | | | |lv]; try (exists o; now auto).
  destruct (h !! lv) as [ov|] eqn:Hv; [|exists o; now auto].
  destruct (decide (lv = l)) as [->|Hne].
  - rewrite Hl in Hv. injection Hv as <-.
    exists (write_prop k x o).
    split; [apply list_lookup_insert_eq; eapply lookup_lt_Some; eauto|].
    split; [reflexivity|]. intros k' Hk'. cbn [write_prop oprops].
    apply assoc_set_other. congruence.
  - exists o. split; [now rewrite list_lookup_insert_ne|auto].
Qed.

Lemma changes_valid h h' v : changes K h h' -> valid h v -> valid h' v.
Proof.
  intros [L _]. destruct v; try easy. rewrite !valid_ref. lia.
Qed.

Lemma changes_prop h h' v k :
  changes K h h' -> valid h v -> K k = false -> prop h' v k = prop h v k.
Proof.
  intros [_ H] Hv Hk. destruct v as [| | | | |l]; try reflexivity.
  apply valid_ref in Hv. destruct (lookup_lt_is_Some_2 h l Hv) as [o Ho].
  destruct (H l o Ho) as (o' & Ho' & Hkind & Hp).
  unfold prop, named. rewrite Ho, Ho', Hkind, (Hp k Hk). reflexivity.
Qed.

Lemma changes_is_buffer h h' v :
  changes K h h' -> is_buffer h v = true -> is_buffer h' v = true.
Proof.
  intros [_ H]. destruct v as [| | | | |l]; try easy. unfold is_buffer.
  destruct (h !! l) as [o|] eqn:Ho; [|easy].
  destruct (H l o Ho) as (o' & Ho' & Hkind & _). rewrite Ho'.
  destruct o as [ko po], o' as [ko' po']. cbn in Hkind. now subst.
Qed.

Lemma changes_elements h h' v es :
  changes K h h' -> elements h v = Some es -> elements h' v = Some es.
Proof.
  intros [_ H]. destruct v as [| | | | |l]; try easy. unfold elements.
  destruct (h !! l) as [o|] eqn:Ho; [|easy].
  destruct (H l o Ho) as (o' & Ho' & Hkind & _). rewrite Ho'.
  destruct o as [ko po], o' as [ko' po']. cbn in Hkind. now subst.
Qed.

End Changes.

Section FilesFetched.

Lemma is_buffer_ref h v : is_buffer h v = true -> is_string v = false /\ valid h v.
Proof.
  destruct v as [| | | | |l]; try easy. unfold is_buffer. intros H.
  split; [reflexivity|]. apply valid_ref.
  destruct (h !! l) eqn:Hl; [|easy]. eapply lookup_lt_Some; eauto.
Qed.

Lemma files_fetched_refl h : files_fetched h h.
Proof. split; [apply changes_refl|]. intros v _. now left. Qed.

Lemma files_fetched_trans h1 h2 h3 :
  files_fetched h1 h2 -> files_fetched h2 h3 -> files_fetched h1 h3.
Proof.
  intros [C1 F1] [C2 F2]. split; [eapply changes_trans; eauto|].
  intros v Hv. pose proof (changes_valid _ _ _ _ C1 Hv) as Hv2.
  destruct (F1 v Hv) as [E1|[S1 B1]], (F2 v Hv2) as [E2|[S2 B2]].
  - left. congruence.
  - right. split; [congruence|exact B2].
  - right. split; [exact S1|]. rewrite E2. eapply changes_is_buffer; eauto.
  - apply is_buffer_ref in B1 as [B1 _]. congruence.
Qed.

Lemma files_fetched_grow h X : files_fetched h (h ++ X).
Proof.
  split; [apply changes_grow|]. intros v Hv. left. now apply prop_app.
Qed.

(** The write of the first loop: a Buffer where a string was. *)
Lemma files_fetched_set h a b :
  is_string (prop h a "file") = true -> is_buffer h (VRef b) = true ->
  files_fetched h (store_set h a "file" (VRef b)).
Proof.
  intros Hs Hb. split; [now apply changes_set|]. intros v Hv.
  destruct (decide (v = a)) as [->|Hne].
  - right. split; [exact Hs|].
    destruct a as [| | | | |la]; try discriminate Hs.
    destruct (h !! la) as [o|] eqn:Ho; [|unfold prop in Hs; now rewrite Ho in Hs].
    erewrite prop_store_set_same by (eauto; discriminate).
    eapply changes_is_buffer; [apply (changes_set only_file)|exact Hb]. reflexivity.
  - left. now apply prop_store_set_elsewhere.
Qed.

Lemma files_fetched_valid h h' v : files_fetched h h' -> valid h v -> valid h' v.
Proof. intros [Hc _]. eapply changes_valid; eauto. Qed.

End FilesFetched.

(** ** The first loop, when it goes through *)

Arguments store_set : simpl never.

Section FirstLoop.
Context {C : Collaborators}.

Lemma prop_string_ref h a k s :
  prop h a k = VStr s -> k <> "length" ->
  exists l o, a = VRef l /\ h !! l = Some o.
Proof.
  intros Hp Hk. apply String.eqb_neq in Hk.
  destruct a as [| | | |s'|l]; try discriminate Hp.
  - unfold prop in Hp. now rewrite Hk in Hp.
  - unfold prop in Hp. destruct (h !! l) as [o|] eqn:Ho; [eauto|discriminate].
Qed.

(** A fetch that goes through puts a Buffer where the string was; however
    it goes, nothing else is written. *)
Lemma fetch_file_fetched a url w r w' :
  prop (store w) a "file" = VStr url ->
  fetch_file a url w = (r, w') ->
  files_fetched (store w) (store w')
  /\ (r = Ok tt -> is_buffer (store w') (prop (store w') a "file") = true).
Proof.
  intros Hfile.
  destruct (prop_string_ref _ _ _ _ Hfile) as (la & oa & -> & Hla); [discriminate|].
  pose proof (lookup_lt_Some _ _ _ Hla) as Hlen.
  unfold fetch_file, bind, call, get, Buffer_from, set, new_buffer, alloc.
  destruct (network w (EFetch url)) as [[objs response]|e]; cbn [absorb];
    [|intros [= <- <-]; split; [apply files_fetched_refl|discriminate]].
  cbn [store with_store with_event]. set (h1 := store w ++ objs).
  assert (Hgrow : files_fetched (store w) h1) by apply files_fetched_grow.
  destruct (is_nullish response);
    [intros [= <- <-]; split; [exact Hgrow|discriminate]|].
  assert (Hdone : forall bytes,
    (Ok tt,
     with_store
       (with_store (with_store (with_event w (EFetch url)) h1)
          (h1 ++ [Object (Buffer bytes) []]))
       (store_set (h1 ++ [Object (Buffer bytes) []]) (VRef la) "file"
          (VRef (length h1)))) = (r, w') ->
    files_fetched (store w) (store w')
    /\ (r = Ok tt -> is_buffer (store w') (prop (store w') (VRef la) "file") = true)).
  { intros bytes [= <- <-]. cbn [store with_store].
    set (h2 := h1 ++ [Object (Buffer bytes) []]).
    assert (Hb : is_buffer h2 (VRef (length h1)) = true)
      by (unfold is_buffer, h2; now rewrite lookup_past0).
    assert (Hs : prop h2 (VRef la) "file" = VStr url).
    { unfold h2, h1. rewrite <- app_assoc, prop_app; [exact Hfile|].
      now apply valid_ref. }
    assert (Hset : files_fetched h2 (store_set h2 (VRef la) "file" (VRef (length h1))))
      by (apply files_fetched_set; [now rewrite Hs|exact Hb]).
    split.
    - eapply files_fetched_trans; [|exact Hset].
      unfold h2, h1. rewrite <- app_assoc. apply files_fetched_grow.
    - intros _.
      assert (Hla2 : h2 !! la = Some oa).
      { unfold h2, h1. rewrite <- app_assoc. now apply lookup_app_l_Some. }
      erewrite prop_store_set_same by (eauto; discriminate).
      destruct Hset as [Hc _]. eapply changes_is_buffer; eauto. }
  cbn [is_nullish].
  destruct (prop h1 response "data") as [| | | |s|l]; cbn [store with_store];
    try (intros [= <- <-]; split; [exact Hgrow|discriminate]).
  - apply Hdone.
  - destruct (h1 !! l) as [[[|elems|bytes] ps]|]; cbn [store with_store];
      try (intros [= <- <-]; split; [exact Hgrow|discriminate]);
      apply Hdone.
Qed.

(** One round of the loop. *)
Lemma check_attachment_fetched a w r w' :
  check_attachment a w = (r, w') ->
  files_fetched (store w) (store w')
  /\ (r = Ok tt ->
      is_nullish a = false
      /\ unusable (store w) a = false
      /\ is_string (prop (store w') a "file") = false
      /\ (is_string (prop (store w) a "file") = true ->
          is_buffer (store w') (prop (store w') a "file") = true)).
Proof.
  destruct (is_nullish a) eqn:Ha.
  { rewrite check_attachment_nullish by easy.
    intros [= <- <-]. split; [apply files_fetched_refl|discriminate]. }
  rewrite check_attachment_spec by easy. cbv zeta.
  destruct (unusable (store w) a) eqn:Hu;
    [intros [= <- <-]; split; [apply files_fetched_refl|discriminate]|].
  destruct (isValidMedia _ _) eqn:Hmedia.
  - destruct (prop (store w) a "file") as [| | | |url|l] eqn:Hf;
      try (intros [= <- <-]; split; [apply files_fetched_refl|];
           intros _; rewrite Hf; repeat split; discriminate).
    intros Hrun. destruct (fetch_file_fetched _ _ _ _ _ Hf Hrun) as [Hff Hbuf].
    split; [exact Hff|]. intros Hr. specialize (Hbuf Hr).
    repeat split; auto. now apply is_buffer_ref in Hbuf as [Hs _].
  - destruct (is_buffer (store w) (prop (store w) a "file")) eqn:Hb;
      intros [= <- <-]; (split; [apply files_fetched_refl|]); [|discriminate].
    intros _. apply is_buffer_ref in Hb as [Hs _].
    repeat split; auto. congruence.
Qed.

End FirstLoop.

Section LoopDone.
Context {C : Collaborators}.

Lemma nonstring_kept h h' a :
  files_fetched h h' -> valid h a ->
  is_string (prop h a "file") = false -> is_string (prop h' a "file") = false.
Proof.
  intros [_ F] Hv Hs. destruct (F a Hv) as [E|[S _]]; congruence.
Qed.

Lemma buffer_kept h h' a :
  files_fetched h h' -> valid h a ->
  is_buffer h (prop h a "file") = true -> is_buffer h' (prop h' a "file") = true.
Proof.
  intros [Hc F] Hv Hb. destruct (F a Hv) as [E|[S _]].
  - rewrite E. eapply changes_is_buffer; eauto.
  - apply is_buffer_ref in Hb as [Hb _]. congruence.
Qed.

(** The loop, gone through: every attachment has been through its round. *)
Lemma check_loop_done items : forall w w1,
  for_each items check_attachment w = (Ok tt, w1) ->
  Forall (valid (store w)) items ->
  files_fetched (store w) (store w1)
  /\ Forall (fetched_attachment (store w) (store w1)) items.
Proof.
  induction items as [|a items IH]; intros w w1; cbn [for_each].
  - intros [= <-] _. split; [apply files_fetched_refl|constructor].
  - unfold bind. destruct (check_attachment a w) as [[[]|e] w2] eqn:Hround;
      [|discriminate].
    intros Hrest Hvalid. apply Forall_cons in Hvalid as [Hva Hvrest].
    destruct (check_attachment_fetched _ _ _ _ Hround) as [F1 Hpost].
    destruct (Hpost eq_refl) as (Hna & _ & Hns & Hbuf).
    assert (Hvrest2 : Forall (valid (store w2)) items).
    { eapply Forall_impl; [exact Hvrest|]. intros b. now apply files_fetched_valid. }
    destruct (IH w2 w1 Hrest Hvrest2) as [F2 Hall].
    pose proof (files_fetched_valid _ _ _ F1 Hva) as Hva2.
    split; [eapply files_fetched_trans; eauto|]. constructor.
    + split; [exact Hna|]. split.
      * eapply nonstring_kept; eauto.
      * intros Hs. eapply buffer_kept; eauto.
    + rewrite Forall_forall in Hall, Hvrest, Hvrest2 |- *. intros b Hb.
      destruct (Hall b Hb) as (Hnb & Hnsb & Hbb).
      split; [exact Hnb|]. split; [exact Hnsb|]. intros Hs.
      destruct F1 as [_ F1]. destruct (F1 b (Hvrest b Hb)) as [E|[_ B]].
      * apply Hbb. congruence.
      * eapply buffer_kept; eauto.
Qed.



Lemma records_from_app h X i items :
  Forall (valid h) items -> records_from (h ++ X) i items = records_from h i items.
Proof.
  revert i. induction items as [|a items IH]; intros i Hv; [reflexivity|].
  apply Forall_cons in Hv as [Ha Hv]. cbn [records_from].
  rewrite IH by easy. unfold record_object. now rewrite !prop_app.
Qed.

(** [attachments.map(...)]: one record allocated per attachment. *)
Lemma map_records_spec items : forall i w,
  Forall (fun a => is_nullish a = false) items ->
  Forall (valid (store w)) items ->
  map_m_from i items reference_record w
  = (Ok (map VRef (seq (length (store w)) (length items))),
     with_store w (store w ++ records_from (store w) i items)).
Proof.
  induction items as [|a items IH]; intros i w Hn Hv; cbn [map_m_from].
  - unfold ret. cbn. rewrite app_nil_r. now destruct w.
  - apply Forall_cons in Hn as [Hna Hn]. apply Forall_cons in Hv as [Hva Hv].
    erewrite bind_ok with
      (a := VRef (length (store w)))
      (w' := with_store w (store w ++ [record_object (store w) i a])).
    2:{ unfold reference_record.
        erewrite bind_ok by (now apply get_ok).
        erewrite bind_ok by (now apply get_ok).
        unfold nullish_or, record_object.
        destruct (is_nullish (prop (store w) a "description"));
          erewrite bind_ok by reflexivity; reflexivity. }
    erewrite bind_ok.
    2:{ apply IH; [exact Hn|]. cbn [store with_store].
        eapply Forall_impl; [exact Hv|]. intros b. apply valid_app. }
    cbn [store with_store]. unfold ret. rewrite with_store_twice.
    rewrite records_from_app by easy.
    rewrite <- app_assoc, length_app. cbn [length app map seq records_from].
    repeat f_equal. lia.
Qed.

End LoopDone.

(** ** The loop, up to an attachment it cannot use *)

Section LoopStopped.
Context {C : Collaborators}.

Lemma for_each_app {A} (body : A -> M unit) (l1 l2 : list A) w :
  for_each (l1 ++ l2) body w
  = match for_each l1 body w with
    | (Ok _, w1) => for_each l2 body w1
    | (Throw e, w1) => (Throw e, w1)
    end.
Proof.
  revert w. induction l1 as [|x l1 IH]; intros w; cbn [for_each app].
  - reflexivity.
  - unfold bind. destruct (body x w) as [[[]|e] w0]; [apply IH|reflexivity].
Qed.

(** A round that has gone through leaves alone what was unusable. *)
Lemma check_loop_keeps_unusable items : forall w w1 b,
  for_each items check_attachment w = (Ok tt, w1) ->
  valid (store w) b -> unusable (store w) b = true ->
  valid (store w1) b /\ unusable (store w1) b = true.
Proof.
  induction items as [|a items IH]; intros w w1 b; cbn [for_each].
  - intros [= <-]. auto.
  - unfold bind. destruct (check_attachment a w) as [[[]|e] w0] eqn:Hc;
      [|discriminate].
    intros Hrest Hv Hu.
    destruct (check_attachment_round _ _ _ _ Hc) as [_ Hkeep].
    destruct (Hkeep eq_refl b Hv Hu) as [Hv0 Hu0]. eauto.
Qed.

(** The one call a round can make: the fetch of the attachment's file. *)
Lemma check_attachment_fetches a w r w' :
  check_attachment a w = (r, w') ->
  net w' = net w
  \/ exists url, prop (store w) a "file" = VStr url
                 /\ net w' = net w ++ [EFetch url].
Proof.
  assert (Hsame : forall r0, (r0, w) = (r, w') ->
            net w' = net w
            \/ exists url, prop (store w) a "file" = VStr url
                           /\ net w' = net w ++ [EFetch url]).
  { intros r0 [= <- <-]. now left. }
  destruct (is_nullish a) eqn:Ha.
  - rewrite check_attachment_nullish by easy. apply Hsame.
  - rewrite check_attachment_spec by easy. cbv zeta.
    destruct (unusable (store w) a); [apply Hsame|].
    destruct (isValidMedia _ _).
    + destruct (prop (store w) a "file") eqn:Hf; try apply Hsame.
      intros Hfetch. apply fetch_file_outcome in Hfetch as [Hnet _].
      right. eauto.
    + destruct (is_buffer _ _); apply Hsame.
Qed.

Lemma file_url_fetched h h' a :
  files_fetched h h' -> valid h a ->
  file_url h' a = file_url h a \/ file_url h' a = None.
Proof.
  intros [_ F] Hv. unfold file_url. destruct (F a Hv) as [E|[_ B]].
  - left. now rewrite E.
  - right. apply is_buffer_ref in B as [B _]. now destruct (prop h' a "file").
Qed.

(** Fetching takes strings away from the files, and puts none there. *)
Lemma file_urls_fetched h h' items :
  files_fetched h h' -> Forall (valid h) items ->
  sublist (file_urls h' items) (file_urls h items).
Proof.
  intros F. induction 1 as [|a items Hva Hv IH]; [constructor|].
  unfold file_urls. cbn [omap list_omap].
  destruct (file_url_fetched h h' a F Hva) as [-> | ->].
  - destruct (file_url h a); [now constructor|exact IH].
  - destruct (file_url h a); [now constructor|exact IH].
Qed.

(** Whatever the loop comes to, it has written to the [file] of attachments
    only, and called nothing but the fetch of files that were strings, in
    the order of their attachments. *)
Lemma check_loop_fetches items : forall w r w1,
  for_each items check_attachment w = (r, w1) ->
  Forall (valid (store w)) items ->
  files_fetched (store w) (store w1)
  /\ exists fetched,
       net w1 = net w ++ map EFetch fetched
       /\ sublist fetched (file_urls (store w) items).
Proof.
  induction items as [|a items IH]; intros w r w1; cbn [for_each].
  - intros [= <- <-] _. split; [apply files_fetched_refl|].
    exists []. cbn. rewrite app_nil_r. split; [reflexivity|constructor].
  - unfold bind. destruct (check_attachment a w) as [[[]|e] w0] eqn:Hc.
    + intros Hrest Hvalid. apply Forall_cons in Hvalid as [Hva Hv].
      destruct (check_attachment_fetched _ _ _ _ Hc) as [F1 _].
      assert (Hv0 : Forall (valid (store w0)) items).
      { eapply Forall_impl; [exact Hv|]. intros b. now apply files_fetched_valid. }
      destruct (IH w0 r w1 Hrest Hv0) as (F2 & f2 & Hn2 & Hs2).
      split; [eapply files_fetched_trans; eauto|].
      pose proof (file_urls_fetched _ _ items F1 Hv) as Hsub.
      assert (Hs : sublist f2 (file_urls (store w) items))
        by (etransitivity; eauto).
      destruct (check_attachment_fetches _ _ _ _ Hc) as [Hn1|(url & Hf & Hn1)].
      * exists f2. split; [now rewrite Hn2, Hn1|].
        unfold file_urls. cbn [omap list_omap]. fold (file_urls (store w) items).
        destruct (file_url (store w) a); [now constructor|exact Hs].
      * exists (url :: f2).
        split; [rewrite Hn2, Hn1, <- app_assoc; reflexivity|].
        unfold file_urls. cbn [omap list_omap]. fold (file_urls (store w) items).
        unfold file_url at 1. rewrite Hf. now constructor.
    + intros [= <- <-] Hvalid. apply Forall_cons in Hvalid as [Hva Hv].
      destruct (check_attachment_fetched _ _ _ _ Hc) as [F1 _].
      split; [exact F1|].
      destruct (check_attachment_fetches _ _ _ _ Hc) as [Hn1|(url & Hf & Hn1)].
      * exists []. cbn. rewrite app_nil_r. split; [exact Hn1|apply sublist_nil_l].
      * exists [url]. split; [exact Hn1|].
        unfold file_urls. cbn [omap list_omap]. fold (file_urls (store w) items).
        unfold file_url at 1. rewrite Hf. constructor. apply sublist_nil_l.
Qed.

(** Attachments that are ready go through the loop, and nothing happens. *)
Lemma check_loop_ready items : forall w,
  Forall (ready (store w)) items ->
  for_each items check_attachment w = (Ok tt, w).
Proof.
  induction 1 as [|a items [Hu Hb] _ IH]; cbn [for_each]; [reflexivity|].
  assert (Ha : is_nullish a = false).
  { destruct (is_nullish a) eqn:Ha; [|reflexivity].
    now rewrite unusable_nullish in Hu. }
  erewrite bind_ok; [exact IH|].
  rewrite check_attachment_spec by exact Ha. cbv zeta. rewrite Hu, Hb.
  apply is_buffer_ref in Hb as [Hs _].
  destruct (isValidMedia _ _); [|reflexivity].
  now destruct (prop (store w) a "file").
Qed.

(** The round of an attachment that cannot be used. *)
Lemma check_attachment_rejects b w :
  unusable (store w) b = true ->
  check_attachment b w = (Throw (validation_error b), w).
Proof.
  intros Hu. unfold validation_error. destruct (is_nullish b) eqn:Hb.
  - now apply check_attachment_nullish.
  - rewrite check_attachment_spec by easy. cbv zeta. now rewrite Hu.
Qed.

(** [sendAttachment] when its first loop throws. *)
Lemma sendAttachment_loop_throws sender params url method type flags w la pa items e w1 :
  prop (store w) params "attachments" = VRef la ->
  store w !! la = Some (Object (Array items) pa) ->
  for_each items check_attachment w = (Throw e, w1) ->
  sendAttachment sender params url method type flags w
  = (Throw (getAxiosError e), w1).
Proof.
  intros Ha Hla Hrun.
  assert (Hp : is_nullish params = false) by (destruct params; try easy; discriminate Ha).
  unfold sendAttachment.
  erewrite bind_ok by (now apply get_ok). rewrite Ha. cbn [truthy negb].
  erewrite try_throw; [reflexivity|].
  apply bind_throw. unfold check_attachments.
  erewrite bind_ok by (now apply get_ok). rewrite Ha.
  erewrite bind_ok with (a := items) (w' := w)
    by (unfold iterate; now rewrite Hla).
  exact Hrun.
Qed.

(** C5, amended. When the attachment at [i] has neither file nor url, or no
    filename, [sendAttachment] is rejected and the multipart request is
    never made. The rejection is what [getAxiosError] makes of the error on
    which the first loop stops: the validation error of that attachment (a
    TypeError when it is [null] or [undefined]) if the loop gets through the
    [i] attachments before it, the error of the round that stopped it if it
    does not. The world is left as the loop over those [i] attachments
    leaves it: all that has reached the network is the fetch of files among
    them that were strings, in their order, so nothing at all when the
    attachment is the first, or when those before it are named and hold
    their files in Buffers, in which case the error is the validation
    error. *)
Theorem sendAttachment_rejects_unusable
    (sender : string) (params : value) (url method : string) (type flags : value)
    (w : world) (la : loc) (pa : list (string * value)) (items : list value)
    (i : nat) (b : value) :
  prop (store w) params "attachments" = VRef la ->
  store w !! la = Some (Object (Array items) pa) ->
  Forall (valid (store w)) items ->
  items !! i = Some b ->
  unusable (store w) b = true ->
  let before := for_each (take i items) check_attachment w in
  let w1 := snd before in
  sendAttachment sender params url method type flags w
  = (Throw (getAxiosError match fst before with
                          | Ok _ => validation_error b
                          | Throw e => e
                          end), w1)
  /\ (exists fetched,
        net w1 = net w ++ map EFetch fetched
        /\ sublist fetched (file_urls (store w) (take i items)))
  /\ (i = 0 -> fst before = Ok tt /\ w1 = w)
  /\ (Forall (ready (store w)) (take i items) -> fst before = Ok tt /\ w1 = w).
Proof.
  intros Ha Hla Hv Hi Hu before w1.
  pose proof (take_drop_middle items i b Hi) as Hitems.
  assert (Hvb : valid (store w) b).
  { rewrite Forall_forall in Hv. apply Hv, list_elem_of_lookup. eauto. }
  assert (Hvt : Forall (valid (store w)) (take i items)) by now apply Forall_take.
  destruct (for_each (take i items) check_attachment w) as [r0 w0] eqn:Hbefore.
  subst before w1. cbn [fst snd].
  split; [|split; [|split]].
  - apply (sendAttachment_loop_throws _ _ _ _ _ _ _ la pa items); try assumption.
    rewrite <- Hitems, for_each_app, Hbefore.
    destruct r0 as [[]|e]; [|reflexivity].
    destruct (check_loop_keeps_unusable _ _ _ b Hbefore Hvb Hu) as [_ Hu0].
    cbn [for_each]. apply bind_throw. now apply check_attachment_rejects.
  - destruct (check_loop_fetches _ _ _ _ Hbefore Hvt) as (_ & fetched & Hn & Hs).
    eauto.
  - intros ->. cbn in Hbefore. now injection Hbefore as <- <-.
  - intros Hready. rewrite (check_loop_ready _ _ Hready) in Hbefore.
    now injection Hbefore as <- <-.
Qed.

End LoopStopped.

Lemma sendAttachment_rejects_unusable_witness :
  let w := half_attached_world in
  let w1 := snd (for_each [VRef 3] (check_attachment (C := scripted)) w) in
  sendAttachment (C := scripted) "data" (VRef 1) "interactions/7/tok/callback" "post"
    (VNum 4) (VNum 0) w
  = (Throw (Error (VStr missing_properties)), w1)
  /\ exists fetched,
       net w1 = map EFetch fetched
       /\ sublist fetched ["https://example.org/a.png"].
Proof.
  intros w w1.
  pose proof (sendAttachment_rejects_unusable (C := scripted) "data" (VRef 1)
                "interactions/7/tok/callback" "post" (VNum 4) (VNum 0)
                half_attached_world 2 [] [VRef 3; VRef 4] 1 (VRef 4)
                eq_refl eq_refl
                ltac:(repeat constructor)
                eq_refl eq_refl) as H.
  cbv zeta in H. destruct H as (Hrun & Hnet & _).
  split; [exact Hrun|exact Hnet].
Defined.

(** The error need not be the validation error: here the first attachment
    is to be fetched, the transport rejects the fetch, and that rejection is
    what [reply] is rejected with; the second attachment is never looked
    at. *)
Example unusable_after_failed_fetch :
  callback.reply (C := offline) (VRef 0) (VRef 1) half_attached_world
  = (Throw (Rejected (VStr "ECONNRESET")),
     with_store
       (with_event half_attached_world (EFetch "https://example.org/a.png"))
       (flags_written (store half_attached_world) (VRef 1))).
Proof. reflexivity. Qed.

(** ** The attachments rewritten *)

Section Rewritten.
Context {C : Collaborators}.

Lemma grows_refl h : grows h h.
Proof. exists []. now rewrite app_nil_r. Qed.

Lemma grows_trans h1 h2 h3 : grows h1 h2 -> grows h2 h3 -> grows h1 h3.
Proof. intros [X ->] [Y ->]. exists (X ++ Y). now rewrite app_assoc. Qed.

Lemma grows_grow h X : grows h (h ++ X).
Proof. now exists X. Qed.



Lemma length_records_from h i items : length (records_from h i items) = length items.
Proof. revert i. induction items; intros i; cbn; auto. Qed.



Lemma elements_lookup h l items :
  elements h (VRef l) = Some items ->
  exists ps, h !! l = Some (Object (Array items) ps).
Proof.
  unfold elements. destruct (h !! l) as [[[|elems|] ps]|]; try discriminate.
  intros [= ->]. eauto.
Qed.

Lemma rewrite_attachments_spec params flags w la items :
  prop (store w) params "attachments" = VRef la ->
  elements (store w) (VRef la) = Some items ->
  Forall (fun a => is_nullish a = false) items ->
  Forall (valid (store w)) items ->
  rewrite_attachments params flags w
  = (Ok tt, with_store w (rewritten_store (store w) params flags items)).
Proof.
  intros Ha He Hn Hv.
  assert (Hp : is_nullish params = false) by (destruct params; try easy; discriminate Ha).
  set (h2 := store_set (store w) params "flags" flags).
  assert (Hc : changes flags_and_attachments (store w) h2)
    by now apply changes_set.
  assert (Ha2 : prop h2 params "attachments" = VRef la).
  { unfold h2. rewrite prop_store_set_other_key; [exact Ha|discriminate]. }
  pose proof (changes_elements _ _ _ _ _ Hc He) as He2.
  destruct (elements_lookup _ _ _ He2) as [pa2 Hla2].
  unfold rewrite_attachments.
  erewrite bind_ok by (now apply set_ok). fold h2.
  erewrite bind_ok by (apply get_ok; exact Hp).
  cbn [store with_store]. rewrite Ha2.
  erewrite bind_ok with
    (a := VRef (length (store w) + length items))
    (w' := with_store w
             (h2 ++ records_from h2 0 items
                 ++ [Object (Array (map VRef (seq (length (store w)) (length items)))) []])).
  2:{ unfold map_references. cbn [store with_store]. rewrite Hla2.
      erewrite bind_ok.
      2:{ apply map_records_spec; cbn [store with_store]; [exact Hn|].
          eapply Forall_impl; [exact Hv|]. intros b. eapply changes_valid; eauto. }
      rewrite new_array_spec. cbn [store with_store].
      rewrite !with_store_twice, length_app, length_records_from, <- app_assoc.
      replace (length h2) with (length (store w)) by (unfold h2; now rewrite length_store_set).
      reflexivity. }
  rewrite set_ok by exact Hp. cbn [store with_store].
  rewrite with_store_twice. reflexivity.
Qed.

End Rewritten.

Section AfterTheLoops.
Context {C : Collaborators}.

Lemma prop_ref_valid h v k l : prop h v k = VRef l -> valid h v.
Proof.
  destruct v as [| | | |s|lv]; try discriminate.
  - unfold prop. now destruct (k =? "length").
  - unfold prop. destruct (h !! lv) eqn:Hl; [|discriminate].
    intros _. apply valid_ref. eapply lookup_lt_Some; eauto.
Qed.


End AfterTheLoops.

Section Replaced.





End Replaced.

(** ** The bytes of the fetched files *)

Section FetchedBytes.
Context {C : Collaborators}.








End FetchedBytes.

Section InPlace.
Context {C : Collaborators}.





End InPlace.


(** The file fetched in [attached_world]: the two bytes of the answer. *)
Example fetched_bytes_sample :
  let h' := store (snd (sendAttachment (C := scripted) "data" (VRef 1)
                          "interactions/7/tok/callback" "post" (VNum 4) (VNum 64)
                          attached_world)) in
  bytes_of h' (prop h' (VRef 3) "file") = Some [Byte.x89; Byte.x50]
  /\ bytes_of h' (prop h' (VRef 4) "file") = Some [Byte.x00; Byte.x01].
Proof. split; reflexivity. Qed.

(** C8, where the code departs from it. [followup.create] gives the footer
    and the author of an embed that have an icon and no text the zero-width
    space; [reply] sends the same embed as it is, without [footer.text] and
    without [author.name]. *)
Theorem reply_sends_icons_without_placeholder :
  (exists w',
     callback.reply (C := scripted) (VRef 0) (VRef 1) icon_world = (Ok (VBool true), w')
     /\ net w' = [callback_post "interactions/7/tok/callback" (VStr icon_body)]
     /\ path (store w') (VRef 3) ["footer"; "text"] = VUndef
     /\ path (store w') (VRef 3) ["author"; "name"] = VUndef)
  /\ (exists r w' body,
        followup.create (C := scripted) (VRef 0) (VRef 1) icon_world = (r, w')
        /\ net w' = [EAttempt "post" "webhooks/42/tok" body]
        /\ elements (store w') (prop (store w') body "embeds") = Some [VRef 3]
        /\ path (store w') (VRef 3) ["footer"; "text"] = VStr zwsp
        /\ path (store w') (VRef 3) ["author"; "name"] = VStr zwsp).
Proof.
  split.
  - eexists. split; [vm_compute; reflexivity|]. repeat split.
  - eexists _, _, _. split; [vm_compute; reflexivity|]. repeat split.
Qed.

(** * The rest of the module *)

(** ** What reaches the console *)

Section Runs.
Context {C : Collaborators}.
Variable R : world -> world -> Prop.
Hypothesis R_refl : forall w, R w w.
Hypothesis R_trans : forall w1 w2 w3, R w1 w2 -> R w2 w3 -> R w1 w3.
Hypothesis R_store : forall w h, R w (with_store w h).

Lemma runs_ret {A} (a : A) : runs R (ret a).
Proof. intros w r w' [= <- <-]. apply R_refl. Qed.

Lemma runs_throw {A} e : runs R (@throw A e).
Proof. intros w r w' [= <- <-]. apply R_refl. Qed.

Lemma runs_bind {A B} (m : M A) (k : A -> M B) :
  runs R m -> (forall a, runs R (k a)) -> runs R (bind m k).
Proof.
  intros Hm Hk w r w'. unfold bind.
  destruct (m w) as [[a|e] w1] eqn:Hrun.
  - intros Hk'. eapply R_trans; [eapply Hm; eauto|eapply Hk; eauto].
  - intros [= <- <-]. eapply Hm; eauto.
Qed.

Lemma runs_try {A} (m : M A) (handler : error -> M A) :
  runs R m -> (forall e, runs R (handler e)) -> runs R (try_catch m handler).
Proof.
  intros Hm Hh w r w'. unfold try_catch.
  destruct (m w) as [[a|e] w1] eqn:Hrun.
  - intros [= <- <-]. eapply Hm; eauto.
  - intros Hh'. eapply R_trans; [eapply Hm; eauto|eapply Hh; eauto].
Qed.

Lemma runs_get v k : runs R (get v k).
Proof. intros w r w'. unfold get. destruct (is_nullish v); intros [= <- <-]; auto. Qed.

Lemma runs_get_index v i : runs R (get_index v i).
Proof.
  intros w r w'. unfold get_index. destruct (is_nullish v); intros [= <- <-]; auto.
Qed.

Lemma runs_get_opt v k : runs R (get_opt v k).
Proof. intros w r w' [= <- <-]. auto. Qed.

Lemma runs_get_opt_index v i : runs R (get_opt_index v i).
Proof. intros w r w' [= <- <-]. auto. Qed.

Lemma runs_get_path v ks : runs R (get_path v ks).
Proof. intros w r w' [= <- <-]. auto. Qed.

Lemma runs_read {A} (f : heap -> A) : runs R (read f).
Proof. intros w r w' [= <- <-]. auto. Qed.

Lemma runs_template parts : runs R (template parts).
Proof. apply runs_read. Qed.

Lemma runs_set v k x : runs R (set v k x).
Proof. intros w r w'. unfold set. destruct (is_nullish v); intros [= <- <-]; auto. Qed.

Lemma runs_iterate v : runs R (iterate v).
Proof.
  intros w r w'. unfold iterate. destruct v; try (intros [= <- <-]; auto).
  destruct (store w !! l) as [[[|elems|bytes] ps]|]; intros [= <- <-]; auto.
Qed.

Lemma runs_JSON_stringify v : runs R (JSON_stringify v).
Proof.
  intros w r w'. unfold JSON_stringify.
  destruct (walk (store w) v) as [[j|]|]; intros [= <- <-]; auto.
Qed.

Lemma runs_JSON_stringify_pretty v : runs R (JSON_stringify_pretty v).
Proof.
  intros w r w'. unfold JSON_stringify_pretty.
  destruct (walk (store w) v) as [[j|]|]; intros [= <- <-]; auto.
Qed.

Lemma runs_alloc o : runs R (alloc o).
Proof. intros w r w' [= <- <-]. apply R_store. Qed.

Lemma runs_absorb a : runs R (absorb a).
Proof.
  intros w r w'. unfold absorb. destruct a as [[objs v]|e]; intros [= <- <-]; auto.
Qed.

Lemma runs_external f v : runs R (external f v).
Proof. intros w r w' H. now apply runs_absorb in H. Qed.

Lemma runs_call e : (forall w, R w (with_event w e)) -> runs R (call e).
Proof.
  intros He w r w' H. unfold call in H. apply runs_absorb in H.
  eapply R_trans; [apply He|exact H].
Qed.

Lemma runs_nullish_or a b : runs R b -> runs R (nullish_or a b).
Proof. intros Hb. unfold nullish_or. destruct (is_nullish a); [exact Hb|apply runs_ret]. Qed.

Lemma runs_for_each {A} (l : list A) (body : A -> M unit) :
  (forall x, runs R (body x)) -> runs R (for_each l body).
Proof.
  intros Hb. induction l as [|x l IH]; cbn [for_each].
  - apply runs_ret.
  - apply runs_bind; auto.
Qed.

Lemma runs_fold_m {A B} (l : list A) (body : B -> A -> M B) :
  (forall acc x, runs R (body acc x)) -> forall acc, runs R (fold_m l acc body).
Proof.
  intros Hb. induction l as [|x l IH]; intros acc; cbn [fold_m].
  - apply runs_ret.
  - apply runs_bind; auto.
Qed.

Lemma runs_map_m_from {A B} (l : list A) (f : nat -> A -> M B) :
  (forall i x, runs R (f i x)) -> forall i, runs R (map_m_from i l f).
Proof.
  intros Hf. induction l as [|x l IH]; intros i; cbn [map_m_from].
  - apply runs_ret.
  - apply runs_bind; [auto|]. intros y. apply runs_bind; [auto|].
    intros ys. apply runs_ret.
Qed.

Lemma runs_Buffer_from v : runs R (Buffer_from v).
Proof.
  intros w r w'. unfold Buffer_from, new_buffer.
  destruct v as [| | | |s|l]; try (intros [= <- <-]; auto).
  destruct (store w !! l) as [[[|elems|bytes] ps]|]; intros [= <- <-]; auto.
Qed.

Lemma runs_map_references atts : runs R (map_references atts).
Proof.
  assert (Hrec : forall i a, runs R (reference_record i a)).
  { intros i a. unfold reference_record, new_object.
    repeat first [ apply runs_bind | apply runs_get | apply runs_nullish_or
                 | apply runs_ret | apply runs_alloc | intro ]. }
  intros w r w'. unfold map_references.
  destruct atts as [| | | |s|l]; try (intros [= <- <-]; auto).
  destruct (store w !! l) as [[[|elems|bytes] ps]|]; try (intros [= <- <-]; auto).
  - revert w r w'.
    change (runs R (let! records := map_m_from 0 elems reference_record
                    in new_array records)).
    apply runs_bind; [now apply runs_map_m_from|intro; apply runs_alloc].
  - revert w r w'.
    change (runs R (let! _ := map_m_from 0 (map byte_value bytes) reference_record
                    in new_buffer (map (fun _ => Byte.x00) bytes))).
    apply runs_bind; [now apply runs_map_m_from|intro; apply runs_alloc].
Qed.

End Runs.

(** Take a computation apart, down to its reads, writes and allocations, with
    the three facts about the relation at hand. Calls are left over, with
    what the relation has to say of their event. *)
Ltac runs_step :=
  match goal with
  | |- _ => assumption
  | |- forall _, _ => intro; cbv beta zeta
  | |- runs _ (bind _ _) => apply runs_bind
  | |- runs _ (try_catch _ _) => apply runs_try
  | |- runs _ (ret _) => apply runs_ret
  | |- runs _ (throw _) => apply runs_throw
  | |- runs _ (get _ _) => apply runs_get
  | |- runs _ (get_index _ _) => apply runs_get_index
  | |- runs _ (get_opt _ _) => apply runs_get_opt
  | |- runs _ (get_opt_index _ _) => apply runs_get_opt_index
  | |- runs _ (get_path _ _) => apply runs_get_path
  | |- runs _ (read _) => apply runs_read
  | |- runs _ (template _) => apply runs_template
  | |- runs _ (iterate _) => apply runs_iterate
  | |- runs _ (set _ _ _) => apply runs_set
  | |- runs _ (JSON_stringify _) => apply runs_JSON_stringify
  | |- runs _ (JSON_stringify_pretty _) => apply runs_JSON_stringify_pretty
  | |- runs _ (alloc _) => apply runs_alloc
  | |- runs _ (new_object _) => apply runs_alloc
  | |- runs _ (new_array _) => apply runs_alloc
  | |- runs _ (new_buffer _) => apply runs_alloc
  | |- runs _ (external _ _) => apply runs_external
  | |- runs _ (absorb _) => apply runs_absorb
  | |- runs _ (Buffer_from _) => apply runs_Buffer_from
  | |- runs _ (map_references _) => apply runs_map_references
  | |- runs _ (nullish_or _ _) => apply runs_nullish_or
  | |- runs _ (for_each _ _) => apply runs_for_each
  | |- runs _ (fold_m _ _ _) => apply runs_fold_m
  | |- runs _ (map_m_from _ _ _) => apply runs_map_m_from
  | |- runs _ (call _) => apply runs_call
  | |- runs _ (attemptHandler _ _ _) => apply runs_call
  | |- runs _ (if ?b then _ else _) => destruct b
  | |- runs _ (match ?v with _ => _ end) => destruct v
  | H : forall _, runs _ _ |- runs _ _ => apply H
  | H : forall _ _, runs _ _ |- runs _ _ => apply H
  end.

Ltac runs_auto := cbv beta zeta; repeat runs_step.

Lemma same_console_refl w : same_console w w.
Proof. reflexivity. Qed.

Lemma same_console_trans w1 w2 w3 :
  same_console w1 w2 -> same_console w2 w3 -> same_console w1 w3.
Proof. unfold same_console. congruence. Qed.

Lemma same_console_store w h : same_console w (with_store w h).
Proof. reflexivity. Qed.

Lemma same_net_refl w : same_net w w.
Proof. reflexivity. Qed.

Lemma same_net_trans w1 w2 w3 : same_net w1 w2 -> same_net w2 w3 -> same_net w1 w3.
Proof. unfold same_net. congruence. Qed.

Lemma same_net_store w h : same_net w (with_store w h).
Proof. reflexivity. Qed.

Ltac quiet_auto :=
  unfold quiet;
  pose proof same_console_refl as Rr;
  pose proof same_console_trans as Rt;
  pose proof same_console_store as Rs;
  runs_auto; try reflexivity.

Ltac calls_nothing_auto :=
  unfold calls_nothing;
  pose proof same_net_refl as Rr;
  pose proof same_net_trans as Rt;
  pose proof same_net_store as Rs;
  runs_auto.

Section Console.
Context {C : Collaborators}.

Lemma sendAttachment_quiet sender params url method type flags :
  quiet (sendAttachment sender params url method type flags).
Proof.
  unfold sendAttachment, check_attachments, check_attachment, fetch_file,
    append_files, append_file, rewrite_attachments, payload_json, dispatch,
    new_object.
  quiet_auto.
Qed.

Lemma edit_body_quiet input message : quiet (edit_body input message).
Proof.
  unfold edit_body, merged_embed, fallback, given_empty, new_object, new_array.
  quiet_auto.
Qed.

End Console.

Section Logged.
Context {C : Collaborators}.

(** X1. Whatever [handleCallbacks] is rejected with, it has logged, once; when it
    resolves it has logged nothing. *)
Theorem handleCallbacks_logs_what_it_throws
    (method path : string) (type data return_date : value) (w w' : world)
    (r : result value) :
  handleCallbacks method path type data return_date w = (r, w') ->
  console w' = console w ++ match r with Throw e => [e] | Ok _ => [] end.
Proof.
  unfold handleCallbacks. unfold try_catch at 1.
  match goal with
  | |- context [match ?m w with _ => _ end] =>
      assert (Hq : quiet m) by quiet_auto;
      destruct (m w) as [[v|e] w1] eqn:Hrun
  end.
  - intros [= <- <-]. rewrite (Hq _ _ _ Hrun). now rewrite app_nil_r.
  - intros [= <- <-]. cbn [console with_log]. now rewrite (Hq _ _ _ Hrun).
Qed.

End Logged.

Lemma handleCallbacks_logs_what_it_throws_witness :
  exists w',
    handleCallbacks (C := offline) "post" "interactions/7/tok/callback" (VNum 5)
      VUndef (VBool true) hi_world
    = (Throw (Rejected (VStr "ECONNRESET")), w')
    /\ console w' = [Rejected (VStr "ECONNRESET")].
Proof.
  eexists. split; [reflexivity|].
  exact (handleCallbacks_logs_what_it_throws (C := offline) "post"
           "interactions/7/tok/callback" (VNum 5) VUndef (VBool true)
           hi_world _ _ eq_refl).
Defined.

(** ** handleCallbacks *)

Section HandleCallbacks.
Context {C : Collaborators}.

(** [handleCallbacks] up to the answer to its request. *)
Lemma handleCallbacks_answered method path type data return_date w j objs r :
  let wrapper := Object Plain [("type", type); ("data", data)] in
  let ev := https_event method path (VStr (render j)) in
  walk (store w ++ [wrapper]) (VRef (length (store w))) = Some (Some j) ->
  network (with_store w (store w ++ [wrapper])) ev = Ok (objs, r) ->
  is_nullish r = false ->
  let w2 := answered w wrapper ev objs in
  let status := prop (store w2) r "statusCode" in
  handleCallbacks method path type data return_date w
  = try_catch
      (if success status then
         if truthy return_date then
           let! headers := get r "headers" in
           get headers "date"
         else
           try_catch
             (let! body := get r "body" in external JSON_parse body)
             (fun _ => let! body := get r "body" in nullish_or body (ret r))
       else
         let! body := get r "body" in
         let! len := get body "length" in
         let! reason :=
           (if truthy len then
              let! body := get r "body" in
              let! json := read (fun h => isValidJSON h body) in
              if (json : bool) then external returnErr r else get r "body"
            else ret r) in
         throw (Error reason))
      (fun e => fun w => (Throw e, with_log w e)) w2.
Proof.
  intros wrapper ev Hwalk Hn Hr w2 status.
  unfold handleCallbacks. unfold try_catch at 1 3.
  erewrite bind_ok by apply new_object_spec.
  erewrite bind_ok with (a := VStr (render j))
                        (w' := with_store w (store w ++ [wrapper]))
    by (unfold JSON_stringify; cbn [store with_store]; fold wrapper;
        now rewrite Hwalk).
  erewrite bind_ok with (a := r) (w' := w2)
    by (unfold call; fold (https_event method path (VStr (render j))); fold ev;
        now rewrite Hn).
  erewrite bind_ok by (now apply get_ok).
  reflexivity.
Qed.

(** X2. Without [return_date], and for an answer whose status is no string and
    no object, [handleCallbacks] resolves exactly when the status is from 200
    to 299: with what [JSON.parse] makes of the body, and when [JSON.parse]
    throws, with the body as it is, or with the whole answer when the body is
    [undefined] or [null]. *)
Theorem handleCallbacks_resolves_on_2xx
    (method path : string) (type data return_date : value) (w : world)
    (j : json) (objs : list object) (r : value) :
  let wrapper := Object Plain [("type", type); ("data", data)] in
  let ev := https_event method path (VStr (render j)) in
  walk (store w ++ [wrapper]) (VRef (length (store w))) = Some (Some j) ->
  network (with_store w (store w ++ [wrapper])) ev = Ok (objs, r) ->
  is_nullish r = false ->
  truthy return_date = false ->
  let w2 := answered w wrapper ev objs in
  converts_directly (prop (store w2) r "statusCode") = true ->
  let body := prop (store w2) r "body" in
  (success (prop (store w2) r "statusCode") = true ->
   handleCallbacks method path type data return_date w
   = match JSON_parse w2 body with
     | Ok (objs', parsed) => (Ok parsed, with_store w2 (store w2 ++ objs'))
     | Throw _ => (Ok (if is_nullish body then r else body), w2)
     end)
  /\ (success (prop (store w2) r "statusCode") = false ->
      exists e w3,
        handleCallbacks method path type data return_date w = (Throw e, w3)).
Proof.
  intros wrapper ev Hwalk Hn Hr Hd w2 _ body.
  rewrite (handleCallbacks_answered method path type data return_date w j objs r)
    by assumption.
  fold wrapper ev w2. split; intros Hs; rewrite Hs.
  - rewrite Hd. unfold try_catch at 1 2.
    erewrite bind_ok by (now apply get_ok). fold body.
    unfold external, absorb.
    destruct (JSON_parse w2 body) as [[objs' parsed]|e]; [reflexivity|].
    erewrite bind_ok by (now apply get_ok). fold body.
    unfold nullish_or. now destruct (is_nullish body).
  - unfold try_catch.
    match goal with
    | |- context [match ?m w2 with _ => _ end] =>
        destruct (m w2) as [[v|e] w3] eqn:Hrun
    end; [|eauto].
    exfalso. revert Hrun. unfold bind, throw.
    repeat match goal with
           | |- context [match ?m ?w0 with _ => _ end] =>
               destruct (m w0) as [[?|?] ?]
           end; discriminate.
Qed.

(** X3. With [return_date], an answer whose status is from 200 to 299 resolves
    with the [date] of its headers, and its body is not looked at; without
    headers it is a TypeError, thrown and logged. *)
Theorem handleCallbacks_returns_the_date
    (method path : string) (type data return_date : value) (w : world)
    (j : json) (objs : list object) (r : value) :
  let wrapper := Object Plain [("type", type); ("data", data)] in
  let ev := https_event method path (VStr (render j)) in
  walk (store w ++ [wrapper]) (VRef (length (store w))) = Some (Some j) ->
  network (with_store w (store w ++ [wrapper])) ev = Ok (objs, r) ->
  is_nullish r = false ->
  truthy return_date = true ->
  let w2 := answered w wrapper ev objs in
  success (prop (store w2) r "statusCode") = true ->
  let headers := prop (store w2) r "headers" in
  handleCallbacks method path type data return_date w
  = if is_nullish headers then (Throw TypeError, with_log w2 TypeError)
    else (Ok (prop (store w2) headers "date"), w2).
Proof.
  intros wrapper ev Hwalk Hn Hr Hd w2 Hs headers.
  rewrite (handleCallbacks_answered method path type data return_date w j objs r)
    by assumption.
  fold wrapper ev w2. rewrite Hs, Hd. unfold try_catch.
  erewrite bind_ok by (now apply get_ok). fold headers.
  unfold get. now destruct (is_nullish headers).
Qed.

(** X4. An answer whose status is no string and no object, and not from 200 to
    299, is an [Error], thrown and logged: of the answer itself when its body
    is empty, of what [returnErr] makes of the answer when the body passes
    [isValidJSON], of the body otherwise. *)
Theorem handleCallbacks_rejects_other_statuses
    (method path : string) (type data return_date : value) (w : world)
    (j : json) (objs : list object) (r : value) :
  let wrapper := Object Plain [("type", type); ("data", data)] in
  let ev := https_event method path (VStr (render j)) in
  walk (store w ++ [wrapper]) (VRef (length (store w))) = Some (Some j) ->
  network (with_store w (store w ++ [wrapper])) ev = Ok (objs, r) ->
  is_nullish r = false ->
  let w2 := answered w wrapper ev objs in
  converts_directly (prop (store w2) r "statusCode") = true ->
  success (prop (store w2) r "statusCode") = false ->
  let body := prop (store w2) r "body" in
  is_nullish body = false ->
  handleCallbacks method path type data return_date w
  = if truthy (prop (store w2) body "length") then
      if isValidJSON (store w2) body then
        match returnErr w2 r with
        | Ok (objs', err) =>
            (Throw (Error err),
             with_log (with_store w2 (store w2 ++ objs')) (Error err))
        | Throw e => (Throw e, with_log w2 e)
        end
      else (Throw (Error body), with_log w2 (Error body))
    else (Throw (Error r), with_log w2 (Error r)).
Proof.
  intros wrapper ev Hwalk Hn Hr w2 _ Hs body Hb.
  rewrite (handleCallbacks_answered method path type data return_date w j objs r)
    by assumption.
  fold wrapper ev w2. rewrite Hs. unfold try_catch.
  erewrite bind_ok by (now apply get_ok). fold body.
  erewrite bind_ok by (now apply get_ok).
  destruct (truthy (prop (store w2) body "length")); [|reflexivity].
  unfold bind at 1. unfold bind at 1.
  rewrite get_ok by assumption. fold body.
  unfold bind at 1, read. 
  destruct (isValidJSON (store w2) body).
  - unfold external, absorb. now destruct (returnErr w2 r) as [[objs' err]|e].
  - rewrite get_ok by assumption. reflexivity.
Qed.

End HandleCallbacks.

Lemma handleCallbacks_resolves_on_2xx_witness :
  let wrapper := Object Plain [("type", VNum 8); ("data", VUndef)] in
  let ev := https_event "post" "interactions/7/tok/callback"
              (VStr (render (JObj [("type", JNum 8)]))) in
  handleCallbacks (C := answering headless) "post" "interactions/7/tok/callback"
    (VNum 8) VUndef VUndef hi_world
  = (Ok (VStr "ok"), answered hi_world wrapper ev (fst (headless 3))).
Proof.
  intros wrapper ev.
  exact (proj1 (handleCallbacks_resolves_on_2xx (C := answering headless) "post"
                  "interactions/7/tok/callback" (VNum 8) VUndef VUndef hi_world
                  (JObj [("type", JNum 8)]) (fst (headless 3)) (VRef 3)
                  eq_refl eq_refl eq_refl eq_refl eq_refl) eq_refl).
Defined.

Lemma handleCallbacks_returns_the_date_witness :
  let wrapper := Object Plain [("type", VNum 8); ("data", VUndef)] in
  let ev := https_event "post" "interactions/7/tok/callback"
              (VStr (render (JObj [("type", JNum 8)]))) in
  handleCallbacks (C := answering headless) "post" "interactions/7/tok/callback"
    (VNum 8) VUndef (VBool true) hi_world
  = (Throw TypeError,
     with_log (answered hi_world wrapper ev (fst (headless 3))) TypeError).
Proof.
  intros wrapper ev.
  exact (handleCallbacks_returns_the_date (C := answering headless) "post"
           "interactions/7/tok/callback" (VNum 8) VUndef (VBool true) hi_world
           (JObj [("type", JNum 8)]) (fst (headless 3)) (VRef 3)
           eq_refl eq_refl eq_refl eq_refl eq_refl).
Defined.

Lemma handleCallbacks_rejects_other_statuses_witness :
  let wrapper := Object Plain [("type", VNum 8); ("data", VUndef)] in
  let ev := https_event "post" "interactions/7/tok/callback"
              (VStr (render (JObj [("type", JNum 8)]))) in
  handleCallbacks (C := answering bad_request) "post" "interactions/7/tok/callback"
    (VNum 8) VUndef VUndef hi_world
  = (Throw (Error (VStr "Bad Request")),
     with_log (answered hi_world wrapper ev (fst (bad_request 3)))
       (Error (VStr "Bad Request"))).
Proof.
  intros wrapper ev.
  exact (handleCallbacks_rejects_other_statuses (C := answering bad_request) "post"
           "interactions/7/tok/callback" (VNum 8) VUndef VUndef hi_world
           (JObj [("type", JNum 8)]) (fst (bad_request 3)) (VRef 3)
           eq_refl eq_refl eq_refl eq_refl eq_refl eq_refl).
Defined.

(** ** defer, component_defer, autocomplete_reply, modal_reply, upgrade *)

Section PlainCallbacks.
Context {C : Collaborators}.

Lemma with_store_same w : with_store w (store w) = w.
Proof. now destruct w. Qed.

Lemma default_object_spec input w :
  default_object input w
  = (Ok (default_input (store w) input),
     with_store w (default_store (store w) input)).
Proof.
  destruct input; cbn [default_object default_input default_store];
    unfold ret; now rewrite ?with_store_same.
Qed.

Lemma default_input_not_nullish h input :
  input <> VNull -> is_nullish (default_input h input) = false.
Proof. now destruct input. Qed.

(** However it ends, [handleCallbacks] has made its one request. *)
Lemma handleCallbacks_sends method path type data return_date w j r w' :
  walk (store w ++ [Object Plain [("type", type); ("data", data)]])
    (VRef (length (store w))) = Some (Some j) ->
  handleCallbacks method path type data return_date w = (r, w') ->
  net w' = net w ++ [https_event method path (VStr (render j))].
Proof.
  intros Hwalk. set (wrapper := Object Plain [("type", type); ("data", data)]) in *.
  set (ev := https_event method path (VStr (render j))).
  destruct (network (with_store w (store w ++ [wrapper])) ev) as [[objs a]|e] eqn:Hn.
  - destruct (is_nullish a) eqn:Ha.
    + unfold handleCallbacks, try_catch.
      erewrite bind_ok by apply new_object_spec.
      erewrite bind_ok with (a := VStr (render j))
                            (w' := with_store w (store w ++ [wrapper]))
        by (unfold JSON_stringify; cbn [store with_store]; fold wrapper;
            now rewrite Hwalk).
      erewrite bind_ok with (a := a) (w' := answered w wrapper ev objs)
        by (unfold call; fold (https_event method path (VStr (render j))); fold ev;
            now rewrite Hn).
      unfold bind, get. rewrite Ha. now intros [= <- <-].
    + rewrite (handleCallbacks_answered method path type data return_date w j objs a)
        by assumption.
      fold wrapper ev. unfold try_catch at 1.
      match goal with
      | |- context [match ?m (answered w wrapper ev objs) with _ => _ end] =>
          assert (Hq : calls_nothing m) by calls_nothing_auto;
          destruct (m (answered w wrapper ev objs)) as [[v|e] w3] eqn:Hrun
      end; intros [= <- <-]; cbn [net with_log]; now rewrite (Hq _ _ _ Hrun).
  - unfold handleCallbacks, try_catch.
    erewrite bind_ok by apply new_object_spec.
    erewrite bind_ok with (a := VStr (render j))
                          (w' := with_store w (store w ++ [wrapper]))
      by (unfold JSON_stringify; cbn [store with_store]; fold wrapper;
          now rewrite Hwalk).
    erewrite bind_throw with (e := e)
        (w' := with_event (with_store w (store w ++ [wrapper])) ev)
      by (unfold call; fold (https_event method path (VStr (render j))); fold ev;
          now rewrite Hn).
    now intros [= <- <-].
Qed.

Lemma walk_wrapper_undef h t :
  walk (h ++ [Object Plain [("type", VNum t); ("data", VUndef)]]) (VRef (length h))
  = Some (Some (type_json t)).
Proof.
  unfold walk. rewrite length_app, Nat.add_1_r.
  cbn [snapshot existsb]. now rewrite lookup_past0.
Qed.

Lemma deferred_sends type params input w r w' :
  is_nullish params = false -> input <> VNull ->
  let h0 := default_store (store w) input in
  let flags := flags_of h0 (default_input (store w) input) in
  callback.deferred type params input w = (r, w') ->
  net w' = net w
           ++ [callback_post (callback_endpoint h0 params)
                 (VStr (render (flags_json type flags)))].
Proof.
  intros Hp Hi h0 flags. unfold callback.deferred.
  erewrite bind_ok by apply default_object_spec. fold h0.
  erewrite bind_ok by (now apply callback_path_spec).
  erewrite bind_ok by (now apply ephemeral_flags_spec, default_input_not_nullish).
  erewrite bind_ok by apply new_object_spec.
  cbn [store with_store]. fold flags.
  intros Hrun.
  apply (handleCallbacks_sends _ _ _ _ _ _ (flags_json type flags)) in Hrun;
    [exact Hrun|].
  cbn [store with_store].
  apply (walk_wrapper_flat _ _ (length h0) type [("flags", VNum flags)]).
  - now rewrite lookup_past0.
  - rewrite <- app_assoc. now rewrite lookup_past0.
  - reflexivity.
Qed.

(** X5. [defer] and [component_defer] make one request, whose body is
    [{"type":5,"data":{"flags":f}}], or of type 6: [f] is 64 when
    [input.ephemeral] is truthy and 0 otherwise, and nothing else of the
    input is sent. *)
Theorem defer_sends_the_flags_only
    (params input : value) (w w' : world) (r : result value) :
  is_nullish params = false -> input <> VNull ->
  let h0 := default_store (store w) input in
  let flags := flags_of h0 (default_input (store w) input) in
  let sent type :=
    net w ++ [callback_post (callback_endpoint h0 params)
                (VStr (render (flags_json type flags)))] in
  (callback.defer params input w = (r, w') -> net w' = sent 5%Z)
  /\ (callback.component_defer params input w = (r, w') -> net w' = sent 6%Z).
Proof.
  intros Hp Hi h0 flags sent. split; now apply deferred_sends.
Qed.

Lemma plain_callback_sends type params w r w' :
  is_nullish params = false ->
  callback.plain_callback type params VUndef w = (r, w') ->
  net w' = net w
           ++ [callback_post (callback_endpoint (store w) params)
                 (VStr (render (type_json type)))].
Proof.
  intros Hp. unfold callback.plain_callback.
  erewrite bind_ok by (now apply callback_path_spec).
  intros Hrun.
  apply (handleCallbacks_sends _ _ _ _ _ _ (type_json type)) in Hrun;
    [exact Hrun|apply walk_wrapper_undef].
Qed.

(** X6. Called without an input, [autocomplete_reply], [modal_reply] and
    [upgrade] still make their request: its body is [{"type":8}],
    [{"type":9}], [{"type":10}], without [data]. *)
Theorem callbacks_without_input_send_the_type
    (params : value) (w w' : world) (r : result value) :
  is_nullish params = false ->
  let sent type :=
    net w ++ [callback_post (callback_endpoint (store w) params)
                (VStr (render (type_json type)))] in
  (callback.autocomplete_reply params VUndef w = (r, w') -> net w' = sent 8%Z)
  /\ (callback.modal_reply params VUndef w = (r, w') -> net w' = sent 9%Z)
  /\ (callback.upgrade params VUndef w = (r, w') -> net w' = sent 10%Z).
Proof.
  intros Hp sent. repeat split; now apply plain_callback_sends.
Qed.

End PlainCallbacks.

Lemma defer_sends_the_flags_only_witness :
  exists w',
    callback.defer (C := scripted) (VRef 0) (VRef 1) hi_world
    = (Ok (VStr "Mon, 02 Nov 2026 10:00:00 GMT"), w')
    /\ net w' = [callback_post "interactions/7/tok/callback"
                   (VStr (render (flags_json 5 64)))].
Proof.
  eexists. split; [reflexivity|].
  exact (proj1 (defer_sends_the_flags_only (C := scripted) (VRef 0) (VRef 1)
                  hi_world _ _ eq_refl ltac:(discriminate)) eq_refl).
Defined.

Lemma callbacks_without_input_send_the_type_witness :
  exists w',
    callback.upgrade (C := scripted) (VRef 0) VUndef hi_world
    = (Ok (VStr ""), w')
    /\ net w' = [callback_post "interactions/7/tok/callback"
                   (VStr (render (type_json 10)))].
Proof.
  eexists. split; [reflexivity|].
  exact (proj2 (proj2 (callbacks_without_input_send_the_type (C := scripted)
                         (VRef 0) hi_world _ _ eq_refl)) eq_refl).
Defined.

(** ** What the operations write *)

(** [steps_auto] by the shape of the computation; what is known of the
    helpers is looked up among the hypotheses. *)
Ltac steps_step :=
  match goal with
  | |- _ => assumption
  | |- forall _, _ => intro; cbv beta zeta
  | |- steps _ (bind _ _) => apply steps_bind
  | |- steps _ (try_catch _ _) => apply steps_try
  | |- steps _ (ret _) => apply steps_ret
  | |- steps _ (throw _) => apply steps_throw
  | |- steps _ (get _ _) => apply steps_get
  | |- steps _ (get_index _ _) => apply steps_get_index
  | |- steps _ (get_opt _ _) => apply steps_get_opt
  | |- steps _ (read _) => apply steps_read
  | |- steps _ (template _) => apply steps_template
  | |- steps _ (iterate _) => apply steps_iterate
  | |- steps _ (JSON_stringify _) => apply steps_JSON_stringify
  | |- steps _ (JSON_stringify_pretty _) => apply steps_JSON_stringify_pretty
  | |- steps _ (alloc _) => apply steps_alloc
  | |- steps _ (new_object _) => apply steps_alloc
  | |- steps _ (new_array _) => apply steps_alloc
  | |- steps _ (new_buffer _) => apply steps_alloc
  | |- steps _ (external _ _) => apply steps_external
  | |- steps _ (absorb _) => apply steps_absorb
  | |- steps _ (call _) => apply steps_call
  | |- steps _ (attemptHandler _ _ _) => apply steps_call
  | |- steps _ (nullish_or _ _) => apply steps_nullish_or
  | |- steps _ (for_each _ _) => apply steps_for_each
  | |- steps _ (fold_m _ _ _) => apply steps_fold_m
  | |- steps _ (map_m_from _ _ _) => apply steps_map_m_from
  | |- steps _ (set _ _ _) => apply steps_set
  | |- steps _ (if ?b then _ else _) => destruct b
  | |- steps _ (match ?v with _ => _ end) => destruct v
  | H : forall _, steps _ _ |- steps _ _ => apply H
  | H : forall _ _, steps _ _ |- steps _ _ => apply H
  | H : forall _ _ _ _ _, steps _ _ |- steps _ _ => apply H
  | H : forall _ _ _ _ _ _, steps _ _ |- steps _ _ => apply H
  end.

Ltac steps_fast := cbv beta zeta; repeat steps_step.

Section StoreStepsOfHelpers.
Context {C : Collaborators}.
Variable R : heap -> heap -> Prop.
Hypothesis R_refl : forall h, R h h.
Hypothesis R_trans : forall h1 h2 h3, R h1 h2 -> R h2 h3 -> R h1 h3.
Hypothesis R_grow : forall h X, R h (h ++ X).

Lemma steps_get_opt_index v i : steps R (get_opt_index v i).
Proof. intros w r w' [= <- <-]. auto. Qed.

Lemma steps_get_path v ks : steps R (get_path v ks).
Proof. intros w r w' [= <- <-]. auto. Qed.

Lemma steps_Buffer_from v : steps R (Buffer_from v).
Proof.
  intros w r w'. unfold Buffer_from, new_buffer.
  destruct v as [| | | |s|l].
  1-4: intros [= <- <-]; apply R_refl.
  - apply (steps_alloc R), R_grow.
  - destruct (store w !! l) as [[[|elems|bytes] ps]|].
    1,4: intros [= <- <-]; apply R_refl.
    all: apply (steps_alloc R), R_grow.
Qed.

Lemma steps_map_references atts : steps R (map_references atts).
Proof.
  assert (Hrec : forall i a, steps R (reference_record i a))
    by (intros i a; unfold reference_record, new_object; steps_auto).
  intros w r w'. unfold map_references.
  destruct atts as [| | | |s|l].
  1-5: intros [= <- <-]; apply R_refl.
  destruct (store w !! l) as [[[|elems|bytes] ps]|].
  1,4: intros [= <- <-]; apply R_refl.
  - revert w r w'.
    change (steps R (let! records := map_m_from 0 elems reference_record
                     in new_array records)).
    unfold new_array. steps_auto.
  - revert w r w'.
    change (steps R (let! _ := map_m_from 0 (map byte_value bytes) reference_record
                     in new_buffer (map (fun _ => Byte.x00) bytes))).
    unfold new_buffer. steps_auto.
Qed.

Lemma steps_handleCallbacks method path type data return_date :
  steps R (handleCallbacks method path type data return_date).
Proof.
  unfold handleCallbacks, new_object. steps_auto.
  intros w r w' [= <- <-]. apply R_refl.
Qed.

Lemma steps_default_object input : steps R (default_object input).
Proof. destruct input; cbn [default_object]; unfold new_object; steps_auto. Qed.

Lemma steps_edit_body input message : steps R (edit_body input message).
Proof.
  pose proof steps_get_opt_index. pose proof steps_get_path.
  unfold edit_body, merged_embed, fallback, given_empty. steps_fast.
Qed.

End StoreStepsOfHelpers.

Section Footprints.
Context {C : Collaborators}.

Ltac grows_auto :=
  pose proof grows_refl as Rr;
  pose proof grows_trans as Rt;
  pose proof grows_grow as Rg;
  pose proof (steps_handleCallbacks grows Rr Rt Rg) as Rh;
  pose proof (steps_default_object grows Rr Rg) as Rd;
  pose proof (steps_edit_body grows Rr Rt Rg) as Re;
  steps_fast.

(** X20. The operations that only wrap [attemptHandler] or [handleCallbacks]
    write to no object: whatever they are handed and however they end, the
    store they leave is the store they found, with new objects after it. *)
Theorem wrappers_only_allocate (params input : value) :
  steps grows (callback.get_original params)
  /\ steps grows (callback.defer params input)
  /\ steps grows (callback.component_defer params input)
  /\ steps grows (callback.autocomplete_reply params input)
  /\ steps grows (callback.modal_reply params input)
  /\ steps grows (callback.delete_original params)
  /\ steps grows (callback.upgrade params input)
  /\ steps grows (followup.get params input)
  /\ steps grows (followup.del params input).
Proof.
  unfold callback.get_original, callback.defer, callback.component_defer,
    callback.deferred, callback.autocomplete_reply, callback.modal_reply,
    callback.upgrade, callback.plain_callback, callback.delete_original,
    followup.get, followup.del, followup.message_path, followup_message_path,
    original_path, callback_path, ephemeral_flags, attemptHandler, new_object.
  repeat (split; [grows_auto|]). grows_auto.
Qed.

Ltac changes_auto K :=
  pose proof (changes_refl K) as Rr;
  pose proof (changes_trans K) as Rt;
  pose proof (changes_grow K) as Rg;
  pose proof (steps_handleCallbacks (changes K) Rr Rt Rg) as Rh;
  pose proof (steps_default_object (changes K) Rr Rg) as Rd;
  pose proof (steps_edit_body (changes K) Rr Rt Rg) as Re;
  pose proof (steps_Buffer_from (changes K) Rr Rg) as Rb;
  pose proof (steps_map_references (changes K) Rr Rt Rg) as Rm;
  pose proof (steps_get_opt_index (changes K) Rr) as Ri;
  pose proof (steps_get_path (changes K) Rr) as Rp;
  steps_fast;
  try (apply changes_set; reflexivity).

Lemma sendAttachment_footprint K sender params url method type flags :
  (forall k, attachment_keys k = true -> K k = true) ->
  steps (changes K) (sendAttachment sender params url method type flags).
Proof.
  intros HK.
  assert (Hf : K "flags" = true) by now apply HK.
  assert (Ha : K "attachments" = true) by now apply HK.
  assert (Hi : K "file" = true) by now apply HK.
  pose proof (changes_refl K) as Rr.
  pose proof (changes_trans K) as Rt.
  pose proof (changes_grow K) as Rg.
  pose proof (steps_Buffer_from (changes K) Rr Rg) as Rb.
  pose proof (steps_map_references (changes K) Rr Rt Rg) as Rm.
  unfold sendAttachment, check_attachments, check_attachment, fetch_file,
    append_files, append_file, rewrite_attachments, payload_json, dispatch.
  steps_fast; now apply changes_set.
Qed.

(** X21. Of the objects they find in the store, [reply], [component_update],
    [edit_original] and [followup.edit] write nothing but [flags],
    [attachments] and [file]; [followup.create] nothing but these and the
    [text] and [name] of its placeholders. No object is removed, and none
    becomes of another kind. *)
Theorem operations_write_few_properties (params input : value) :
  steps (changes attachment_keys) (callback.reply params input)
  /\ steps (changes attachment_keys) (callback.component_update params input)
  /\ steps (changes attachment_keys) (callback.edit_original params input)
  /\ steps (changes attachment_keys) (followup.edit params input)
  /\ steps (changes create_keys) (followup.create params input).
Proof.
  assert (Hs : forall sender p url method type flags,
             steps (changes attachment_keys)
               (sendAttachment sender p url method type flags))
    by (intros; now apply sendAttachment_footprint).
  assert (Hc : forall sender p url method type flags,
             steps (changes create_keys)
               (sendAttachment sender p url method type flags)).
  { intros. apply sendAttachment_footprint. intros k Hk.
    unfold create_keys. now rewrite Hk. }
  split; [|split; [|split; [|split]]].
  - unfold callback.reply, callback.reply_post, callback.reply_result,
      has_attachments, callback_path, ephemeral_flags, new_object.
    changes_auto attachment_keys.
  - unfold callback.component_update, has_attachments, callback_path,
      ephemeral_flags.
    changes_auto attachment_keys.
  - unfold callback.edit_original, has_attachments, original_path.
    changes_auto attachment_keys.
  - unfold followup.edit, has_attachments, followup_message_path, ephemeral_flags.
    changes_auto attachment_keys.
  - unfold followup.create, followup.fill_placeholders, followup.placeholder,
      followup.or_empty, has_attachments, webhook_path, ephemeral_flags,
      attemptHandler, new_object, new_array.
    changes_auto create_keys.
Qed.

End Footprints.

Lemma wrappers_only_allocate_witness :
  grows (store hi_world)
    (store (snd (callback.defer (C := scripted) (VRef 0) (VRef 1) hi_world))).
Proof.
  exact (proj1 (proj2 (wrappers_only_allocate (C := scripted) (VRef 0) (VRef 1)))
           hi_world _ _ (surjective_pairing _)).
Defined.

Lemma operations_write_few_properties_witness :
  changes attachment_keys (store attached_world)
    (store (snd (callback.reply (C := scripted) (VRef 0) (VRef 1) attached_world))).
Proof.
  exact (proj1 (operations_write_few_properties (C := scripted) (VRef 0) (VRef 1))
           attached_world _ _ (surjective_pairing _)).
Defined.

(** ** reply, whatever the answer *)

Section ReplyAnswered.
Context {C : Collaborators}.

(** [reply_post] up to the answer to its request. *)
Lemma reply_post_answered params input w j objs message :
  is_nullish params = false ->
  let wrapper := typed 4 input in
  let ev := callback_post (callback_endpoint (store w) params) (VStr (render j)) in
  walk (store w ++ [wrapper]) (VRef (length (store w))) = Some (Some j) ->
  network (with_store w (store w ++ [wrapper])) ev = Ok (objs, message) ->
  is_nullish message = false ->
  let w2 := answered w wrapper ev objs in
  callback.reply_post params input w
  = (if negb (strict_eq (prop (store w2) message "statusCode") (VNum 204)) then
       let! body := get message "body" in
       let! len := get body "length" in
       if truthy len then
         let! json := read (fun h => isValidJSON h body) in
         if (json : bool) then
           let! err := external returnErr message in
           let! text := JSON_stringify_pretty err in
           throw (Error text)
         else throw (Error body)
       else throw (Error message)
     else ret message) w2.
Proof.
  intros Hp wrapper ev Hwalk Hn Hm w2. unfold callback.reply_post.
  erewrite bind_ok by (now apply callback_path_spec).
  erewrite bind_ok by apply new_object_spec.
  erewrite bind_ok with (a := VStr (render j))
                        (w' := with_store w (store w ++ [wrapper]))
    by (unfold JSON_stringify; cbn [store with_store]; fold (typed 4 input);
        fold wrapper; now rewrite Hwalk).
  erewrite bind_ok with (a := message) (w' := w2)
    by (unfold call; fold (callback_post (callback_endpoint (store w) params)
                             (VStr (render j))); fold ev; now rewrite Hn).
  erewrite bind_ok by (now apply get_ok).
  reflexivity.
Qed.

Lemma reply_result_spec input message w :
  is_nullish input = false -> is_nullish message = false ->
  let headers := prop (store w) message "headers" in
  callback.reply_result input message w
  = (Ok (if truthy headers && truthy (prop (store w) input "return_date")
         then prop (store w) headers "date" else VBool true), w).
Proof.
  intros Hi Hm headers. unfold callback.reply_result.
  erewrite bind_ok by (now apply get_ok). fold headers.
  destruct (truthy headers) eqn:Hh; [|reflexivity].
  erewrite bind_ok by (now apply get_ok).
  destruct (truthy (prop (store w) input "return_date")); [|reflexivity].
  erewrite bind_ok by (now apply get_ok). fold headers.
  now rewrite get_ok by now apply truthy_not_nullish.
Qed.


(** X9. Without attachments, answered with status 204, [reply] resolves with the
    [date] of the answer's headers when the answer has headers and
    [input.return_date] is truthy, and with [true] otherwise. *)
Theorem reply_resolves_on_204
    (params input : value) (w : world) (j : json) (objs : list object)
    (message : value) :
  is_nullish params = false -> is_nullish input = false ->
  let w1 := with_store w (flags_written (store w) input) in
  attachedb (store w1) input = false ->
  let wrapper := typed 4 input in
  let ev := callback_post (callback_endpoint (store w1) params) (VStr (render j)) in
  walk (store w1 ++ [wrapper]) (VRef (length (store w1))) = Some (Some j) ->
  network (with_store w1 (store w1 ++ [wrapper])) ev = Ok (objs, message) ->
  let w2 := answered w1 wrapper ev objs in
  prop (store w2) message "statusCode" = VNum 204 ->
  let headers := prop (store w2) message "headers" in
  callback.reply params input w
  = (Ok (if truthy headers && truthy (prop (store w2) input "return_date")
         then prop (store w2) headers "date" else VBool true), w2).
Proof.
  intros Hp Hi w1 Ha wrapper ev Hwalk Hn w2 Hs headers.
  assert (Hm : is_nullish message = false)
    by (destruct message; try easy; discriminate Hs).
  rewrite reply_json by assumption. fold (flags_written (store w) input). fold w1.
  unfold bind at 1.
  rewrite (reply_post_answered params input w1 j objs message) by assumption.
  fold wrapper ev w2. rewrite Hs. cbn [strict_eq Z.eqb Pos.eqb negb]. unfold ret.
  now apply reply_result_spec.
Qed.

(** X10. Without [params], [reply] has written the flags into its input by the
    time it fails, and [component_update] has not: both are rejected with a
    TypeError before any request is made. *)
Theorem callbacks_without_params (params input : value) (w : world) :
  is_nullish params = true -> is_nullish input = false ->
  callback.reply params input w
  = (Throw TypeError, with_store w (flags_written (store w) input))
  /\ callback.component_update params input w = (Throw TypeError, w).
Proof.
  intros Hp Hi. split.
  - rewrite reply_enters by assumption.
    erewrite bind_ok by (now apply has_attachments_spec).
    assert (Hpath : forall w0, callback_path params w0 = (Throw TypeError, w0))
      by (intros w0; unfold callback_path, bind, get; now rewrite Hp).
    destruct (attachedb _ input).
    + unfold bind. now rewrite Hpath.
    + unfold bind, callback.reply_post, bind. now rewrite Hpath.
  - unfold callback.component_update.
    erewrite bind_ok by (apply default_object_given; now apply nullish_not_undef).
    unfold bind, callback_path, bind, get. now rewrite Hp.
Qed.

End ReplyAnswered.


Lemma reply_resolves_on_204_witness :
  exists w',
    callback.reply (C := answering no_content) (VRef 0) (VRef 1) dated_world
    = (Ok (VStr "Mon, 02 Nov 2026 10:00:00 GMT"), w').
Proof.
  eexists.
  exact (reply_resolves_on_204 (C := answering no_content) (VRef 0) (VRef 1)
           dated_world
           (flat_json 4 [("content", VStr "hi"); ("return_date", VBool true);
                         ("flags", VNum 0)])
           (fst (no_content 3)) (VRef 3)
           eq_refl eq_refl eq_refl eq_refl eq_refl eq_refl).
Defined.

Lemma callbacks_without_params_witness :
  callback.reply (C := scripted) VUndef (VRef 1) hi_world
  = (Throw TypeError,
     world_of [params_object; hi_input_flagged])
  /\ callback.component_update (C := scripted) VUndef (VRef 1) hi_world
     = (Throw TypeError, hi_world).
Proof.
  exact (callbacks_without_params (C := scripted) VUndef (VRef 1) hi_world
           eq_refl eq_refl).
Defined.

(** ** What reply and component_update send for a flat input *)

Section FlatInput.
Context {C : Collaborators}.

(** However it ends, [reply_post] has made its one request. *)
Lemma reply_post_sends params input w j r w' :
  is_nullish params = false ->
  walk (store w ++ [typed 4 input]) (VRef (length (store w))) = Some (Some j) ->
  callback.reply_post params input w = (r, w') ->
  net w' = net w
           ++ [callback_post (callback_endpoint (store w) params) (VStr (render j))].
Proof.
  intros Hp Hwalk.
  set (ev := callback_post (callback_endpoint (store w) params) (VStr (render j))).
  destruct (network (with_store w (store w ++ [typed 4 input])) ev)
    as [[objs a]|e] eqn:Hn.
  - destruct (is_nullish a) eqn:Ha.
    + unfold callback.reply_post.
      erewrite bind_ok by (now apply callback_path_spec).
      erewrite bind_ok by apply new_object_spec.
      erewrite bind_ok with (a := VStr (render j))
                            (w' := with_store w (store w ++ [typed 4 input]))
        by (unfold JSON_stringify; cbn [store with_store]; fold (typed 4 input);
            now rewrite Hwalk).
      erewrite bind_ok with (a := a) (w' := answered w (typed 4 input) ev objs)
        by (unfold call; fold (callback_post (callback_endpoint (store w) params)
                                 (VStr (render j))); fold ev; now rewrite Hn).
      unfold bind, get. rewrite Ha. now intros [= <- <-].
    + rewrite (reply_post_answered params input w j objs a) by assumption.
      fold ev.
      match goal with
      | |- ?m ?w2 = _ -> _ =>
          assert (Hq : calls_nothing m) by calls_nothing_auto;
          intros Hrun; now rewrite (Hq _ _ _ Hrun)
      end.
  - unfold callback.reply_post.
    erewrite bind_ok by (now apply callback_path_spec).
    erewrite bind_ok by apply new_object_spec.
    erewrite bind_ok with (a := VStr (render j))
                          (w' := with_store w (store w ++ [typed 4 input]))
      by (unfold JSON_stringify; cbn [store with_store]; fold (typed 4 input);
          now rewrite Hwalk).
    erewrite bind_throw with (e := e)
        (w' := with_event (with_store w (store w ++ [typed 4 input])) ev)
      by (unfold call; fold (callback_post (callback_endpoint (store w) params)
                               (VStr (render j))); fold ev; now rewrite Hn).
    now intros [= <- <-].
Qed.

Lemma reply_result_calls_nothing input message :
  calls_nothing (callback.reply_result input message).
Proof. unfold callback.reply_result. calls_nothing_auto. Qed.

(** [component_update] without attachments. *)
Lemma component_update_json params input w :
  is_nullish params = false -> is_nullish input = false ->
  let w1 := with_store w (flags_written (store w) input) in
  attachedb (store w1) input = false ->
  callback.component_update params input w
  = handleCallbacks "post" (callback_endpoint (store w) params) (VNum 7) input
      VUndef w1.
Proof.
  intros Hp Hi w1 Ha. unfold callback.component_update.
  erewrite bind_ok by (apply default_object_given; now apply nullish_not_undef).
  erewrite bind_ok by (now apply callback_path_spec).
  erewrite bind_ok by (now apply ephemeral_flags_spec).
  erewrite bind_ok by (now apply set_ok).
  fold (flags_written (store w) input). fold w1.
  erewrite bind_ok by (now apply has_attachments_spec). now rewrite Ha.
Qed.

Lemma primitive_assoc_set k x ps :
  primitive x = true -> forallb primitive (map snd ps) = true ->
  forallb primitive (map snd (assoc_set k x ps)) = true.
Proof.
  intros Hx. induction ps as [|[k' v] ps IH]; cbn; [now rewrite Hx|].
  intros H. apply andb_true_iff in H as [Hv Hps].
  destruct (k =? k')%string; cbn; [now rewrite Hx|]. rewrite Hv. now apply IH.
Qed.

Lemma primitive_named ps k :
  forallb primitive (map snd ps) = true -> primitive (named ps k) = true.
Proof.
  unfold named. induction ps as [|[k' v] ps IH]; cbn; [reflexivity|].
  intros H. apply andb_true_iff in H as [Hv Hps].
  destruct (k =? k')%string; auto.
Qed.

Lemma prop_primitive h h' a k : primitive a = true -> prop h' a k = prop h a k.
Proof. now destruct a. Qed.

(** X7. For an input whose properties all hold primitives, none of them
    named as an index, in a store whose numbers are all safe integers (at
    most 2^53 - 1 in size), and whose [attachments], if any, are empty: [reply]
    and [component_update] make one request, whose body is
    [{"type":4,"data":{...}}], or of type 7, the data being every property of
    the input that does not hold [undefined], [ephemeral] among them, in the
    order the caller gave them, with [flags] overwritten where it stood or
    added last. *)
Theorem callbacks_send_a_flat_input_whole
    (params : value) (li : loc) (ps : list (string * value)) (w w' : world)
    (r : result value) :
  is_nullish params = false ->
  store w !! li = Some (Object Plain ps) ->
  forallb primitive (map snd ps) = true ->
  insertion_ordered ps = true ->
  safe_store (store w) = true ->
  attachedb (store w) (VRef li) = false ->
  let sent := assoc_set "flags" (VNum (flags_of (store w) (VRef li))) ps in
  let h1 := <[li := Object Plain sent]> (store w) in
  (callback.reply params (VRef li) w = (r, w') ->
   net w' = net w ++ [callback_post (callback_endpoint h1 params)
                        (VStr (render (flat_json 4 sent)))])
  /\ (callback.component_update params (VRef li) w = (r, w') ->
      net w' = net w ++ [callback_post (callback_endpoint (store w) params)
                           (VStr (render (flat_json 7 sent)))]).
Proof.
  intros Hp Hl Hflat _ _ Ha sent h1.
  pose proof (lookup_lt_Some _ _ _ Hl) as Hlen.
  assert (H1 : flags_written (store w) (VRef li) = h1)
    by (unfold flags_written, store_set; now rewrite Hl).
  assert (Hl1 : h1 !! li = Some (Object Plain sent))
    by now apply list_lookup_insert_eq.
  assert (Hsent : forallb primitive (map snd sent) = true)
    by now apply primitive_assoc_set.
  assert (Ha1 : attachedb h1 (VRef li) = false).
  { rewrite <- Ha, <- H1. unfold attachedb, flags_written.
    rewrite prop_store_set_other_key by discriminate.
    do 2 f_equal. apply prop_primitive.
    unfold prop. rewrite Hl. now apply primitive_named. }
  assert (Hwalk : forall t,
    walk (h1 ++ [typed t (VRef li)]) (VRef (length h1))
    = Some (Some (flat_json t sent))).
  { intros t. apply (walk_wrapper_flat _ _ li t sent).
    - now rewrite lookup_past0.
    - now apply lookup_app_l_Some.
    - exact Hsent. }
  split.
  - rewrite reply_json; fold (flags_written (store w) (VRef li));
      rewrite ?H1; try easy.
    unfold bind.
    destruct (callback.reply_post params (VRef li) (with_store w h1))
      as [[message|e] w2] eqn:Hpost.
    + intros Hres.
      rewrite (reply_result_calls_nothing _ _ _ _ _ Hres).
      exact (reply_post_sends params (VRef li) (with_store w h1) _ _ _ Hp
               (Hwalk 4%Z) Hpost).
    + intros [= <- <-].
      exact (reply_post_sends params (VRef li) (with_store w h1) _ _ _ Hp
               (Hwalk 4%Z) Hpost).
  - rewrite component_update_json; fold (flags_written (store w) (VRef li));
      rewrite ?H1; try easy.
    intros Hrun.
    exact (handleCallbacks_sends "post" _ (VNum 7) (VRef li) VUndef
             (with_store w h1) _ _ _ (Hwalk 7%Z) Hrun).
Qed.

End FlatInput.

Lemma callbacks_send_a_flat_input_whole_witness :
  exists w',
    callback.component_update (C := scripted) (VRef 0) (VRef 1) hi_world
    = (Ok (VStr ""), w')
    /\ net w' = [callback_post "interactions/7/tok/callback"
                   (VStr (render (flat_json 7 (oprops hi_input_flagged))))].
Proof.
  eexists. split; [reflexivity|].
  exact (proj2 (callbacks_send_a_flat_input_whole (C := scripted) (VRef 0) 1
                  (oprops hi_input) hi_world _ _
                  eq_refl eq_refl eq_refl eq_refl eq_refl eq_refl) eq_refl).
Defined.

(** ** The multipart request *)

Section Multipart.
Context {C : Collaborators}.

Lemma append_file_spec params w la pa items acc i a :
  prop (store w) params "attachments" = VRef la ->
  store w !! la = Some (Object (Array items) pa) ->
  items !! i = Some a -> is_nullish a = false ->
  append_file params acc i w
  = (Ok (acc ++ [Part ("files[" +:+ string_of_nat i +:+ "]")
                   (prop (store w) a "file") (prop (store w) a "filename")]), w).
Proof.
  intros Ha Hla Hi Hna.
  assert (Hp : is_nullish params = false) by (destruct params; try easy; discriminate Ha).
  assert (Hidx : get_index (VRef la) i w = (Ok a, w))
    by (unfold get_index, index; cbn [is_nullish]; rewrite Hla; cbn [okind];
        now rewrite Hi).
  unfold append_file.
  erewrite bind_ok by (now apply get_ok). rewrite Ha.
  erewrite bind_ok by exact Hidx.
  erewrite bind_ok by (now apply get_ok).
  erewrite bind_ok by (now apply get_ok). rewrite Ha.
  erewrite bind_ok by exact Hidx.
  erewrite bind_ok by (now apply get_ok).
  reflexivity.
Qed.

Lemma append_loop_spec params w la pa items :
  prop (store w) params "attachments" = VRef la ->
  store w !! la = Some (Object (Array items) pa) ->
  Forall (fun a => is_nullish a = false) items ->
  forall k i acc, i + k = length items ->
    fold_m (seq i k) acc (append_file params) w
    = (Ok (acc ++ file_parts (store w) i (drop i items)), w).
Proof.
  intros Ha Hla Hn. induction k as [|k IH]; intros i acc Hik; cbn [seq fold_m].
  - rewrite drop_ge by lia. cbn. now rewrite app_nil_r.
  - destruct (lookup_lt_is_Some_2 items i) as [a Hai]; [lia|].
    assert (Hna : is_nullish a = false).
    { rewrite Forall_forall in Hn. apply Hn. apply list_elem_of_lookup. eauto. }
    erewrite bind_ok by (eapply append_file_spec; eauto).
    rewrite IH by lia. rewrite (drop_S _ _ _ Hai). cbn [file_parts].
    now rewrite <- app_assoc.
Qed.

(** The second loop: one part per attachment, in the order of the array. *)
Lemma append_files_spec params w la pa items :
  prop (store w) params "attachments" = VRef la ->
  store w !! la = Some (Object (Array items) pa) ->
  Forall (fun a => is_nullish a = false) items ->
  append_files params w = (Ok (file_parts (store w) 0 items), w).
Proof.
  intros Ha Hla Hn.
  assert (Hp : is_nullish params = false) by (destruct params; try easy; discriminate Ha).
  unfold append_files.
  erewrite bind_ok by (now apply get_ok). rewrite Ha.
  erewrite bind_ok by (now apply get_ok).
  assert (Hlen : prop (store w) (VRef la) "length" = VNum (Z.of_nat (length items)))
    by (unfold prop; now rewrite Hla).
  rewrite Hlen. cbn [to_number]. rewrite Nat2Z.id.
  now rewrite (append_loop_spec params w la pa items Ha Hla Hn (length items) 0 []).
Qed.

(** However it ends, [dispatch] has made its one request. *)
Lemma dispatch_sends method url form w r w' :
  dispatch method url form w = (r, w') ->
  net w' = net w ++ [multipart_event (store w) method url form].
Proof.
  unfold dispatch. erewrite bind_ok by reflexivity.
  fold (multipart_event (store w) method url form).
  set (ev := multipart_event (store w) method url form).
  unfold bind at 1, call.
  destruct (network w ev) as [[objs a]|e]; cbn [absorb];
    [|now intros [= <- <-]].
  match goal with
  | |- ?m ?w2 = _ -> _ =>
      assert (Hq : calls_nothing m) by calls_nothing_auto;
      intros Hrun; now rewrite (Hq _ _ _ Hrun)
  end.
Qed.

Lemma payload_json_calls_nothing sender params type :
  calls_nothing (payload_json sender params type).
Proof. unfold payload_json, new_object. calls_nothing_auto. Qed.

(** X11. Once every attachment has gone through the first loop, and when the
    payload serialises, [sendAttachment] makes one multipart request to
    [https://discord.com/api/v10/] followed by its [url]: first the files,
    named [files[0]], [files[1]], ... in the order of the attachments and
    each with its [filename], as the first loop left them, then
    [payload_json]. *)
Theorem sendAttachment_sends_the_files_in_order
    (sender : string) (params : value) (url method : string) (type flags : value)
    (w w1 w3 w' : world) (la : loc) (items : list value) (payload : value)
    (r : result value) :
  prop (store w) params "attachments" = VRef la ->
  elements (store w) (VRef la) = Some items ->
  Forall (valid (store w)) items ->
  check_attachments params w = (Ok tt, w1) ->
  payload_json sender params type
    (with_store w1 (rewritten_store (store w1) params flags items))
  = (Ok payload, w3) ->
  sendAttachment sender params url method type flags w = (r, w') ->
  net w' = net w1
           ++ [multipart_event (store w3) method url
                 (file_parts (store w1) 0 items
                  ++ [Part "payload_json" payload VUndef])].
Proof.
  intros Ha He Hv Hloop Hpay Hrun.
  assert (Hp : is_nullish params = false) by (destruct params; try easy; discriminate Ha).
  destruct (elements_lookup _ _ _ He) as [pa Hla].
  assert (Hfor : for_each items check_attachment w = (Ok tt, w1)).
  { revert Hloop. unfold check_attachments.
    erewrite bind_ok by (now apply get_ok). rewrite Ha.
    erewrite bind_ok with (a := items) (w' := w)
      by (unfold iterate; now rewrite Hla).
    easy. }
  destruct (check_loop_done items w w1 Hfor Hv) as [[Hc _] Hall].
  assert (Ha1 : prop (store w1) params "attachments" = VRef la)
    by (erewrite changes_prop; eauto; now apply prop_ref_valid in Ha).
  pose proof (changes_elements _ _ _ _ _ Hc He) as He1.
  destruct (elements_lookup _ _ _ He1) as [pa1 Hla1].
  assert (Hn : Forall (fun a => is_nullish a = false) items)
    by (eapply Forall_impl; [exact Hall|]; now intros a [Hna _]).
  assert (Hv1 : Forall (valid (store w1)) items)
    by (eapply Forall_impl; [exact Hv|]; intros a; eapply changes_valid; eauto).
  revert Hrun. unfold sendAttachment.
  erewrite bind_ok by (now apply get_ok). rewrite Ha. cbn [truthy negb].
  unfold try_catch.
  erewrite bind_ok by exact Hloop.
  erewrite bind_ok by (now apply (append_files_spec params w1 la pa1 items)).
  erewrite bind_ok by (now apply (rewrite_attachments_spec params flags w1 la items)).
  erewrite bind_ok by exact Hpay.
  pose proof (payload_json_calls_nothing _ _ _ _ _ _ Hpay) as Hnet.
  unfold same_net in Hnet. cbn [net with_store] in Hnet.
  destruct (dispatch method url _ w3) as [[v|e] w4] eqn:Hd;
    unfold throw; intros [= <- <-];
    apply dispatch_sends in Hd; now rewrite Hd, Hnet.
Qed.

(** X13. What [sendAttachment] makes of the answer to its request, when the
    status of the answer is no string and no object and the numbers of the
    store are safe integers: it resolves with the [data] of the answer unless
    the status is below 200, or 300 and above, so also when the answer has no
    status; otherwise it throws an [Error] that spells out the status and
    [data.errors]. *)
Theorem dispatch_checks_the_status
    (method url : string) (form : list part) (w : world) (objs : list object)
    (response : value) :
  let ev := multipart_event (store w) method url form in
  network w ev = Ok (objs, response) ->
  is_nullish response = false ->
  let w2 := with_store (with_event w ev) (store w ++ objs) in
  let status := prop (store w2) response "status" in
  let data := prop (store w2) response "data" in
  converts_directly status = true ->
  safe_store (store w2) = true ->
  dispatch method url form w
  = (if failed status then
       if is_nullish data then Throw TypeError
       else Throw (Error (VStr (request_failed (store w2) status
                                  (prop (store w2) data "errors"))))
     else Ok data, w2).
Proof.
  intros ev Hn Hr w2 status data _ _. unfold dispatch.
  erewrite bind_ok by reflexivity.
  fold (multipart_event (store w) method url form). fold ev.
  erewrite bind_ok with (a := response) (w' := w2)
    by (unfold call; now rewrite Hn).
  erewrite bind_ok by (now apply get_ok). fold status. fold (failed status).
  destruct (failed status).
  - unfold bind at 1. unfold get at 1. rewrite Hr. fold data.
    unfold bind at 1, get at 1.
    destruct (is_nullish data); [reflexivity|].
    reflexivity.
  - unfold get. now rewrite Hr.
Qed.

Lemma snapshot_fields_keys go ps fs :
  snapshot_fields go ps = Some fs -> incl (map fst fs) (map fst ps).
Proof.
  revert fs. induction ps as [|[k v] ps IH]; intros fs; cbn.
  - now intros [= <-].
  - destruct (go v) as [r|]; [|discriminate].
    destruct (snapshot_fields go ps) as [fs'|]; [|discriminate].
    intros [= <-]. specialize (IH fs' eq_refl).
    destruct r; cbn; [apply incl_cons; [now left|]|]; now apply incl_tl.
Qed.

Lemma assoc_remove_keys k ps :
  ~ In k (map fst (assoc_remove k ps))
  /\ incl (map fst (assoc_remove k ps)) (map fst ps).
Proof.
  induction ps as [|[k' v] ps [IH1 IH2]]; cbn; [split; [tauto|apply incl_refl]|].
  destruct (k =? k')%string eqn:Hk.
  - split; [exact IH1|now apply incl_tl].
  - apply String.eqb_neq in Hk. split.
    + cbn. intros [E|I]; [congruence|tauto].
    + cbn. apply incl_cons; [now left|now apply incl_tl].
Qed.

Lemma walk_data_wrapper h rest :
  let h2 := h ++ [Object Plain rest; Object Plain [("data", VRef (length h))]] in
  walk h2 (VRef (length h + 1))
  = match snapshot_fields (snapshot (length h + 1) h2 [length h; length h + 1]) rest with
    | Some fs => Some (Some (JObj [("data", JObj fs)]))
    | None => None
    end.
Proof.
  intros h2. unfold walk.
  replace (length h2) with (S (length h + 1)) by (unfold h2; rewrite length_app; cbn; lia).
  cbn [snapshot existsb].
  replace (h2 !! (length h + 1)) with (Some (Object Plain [("data", VRef (length h))]))
    by (unfold h2; now rewrite lookup_past).
  cbn [okind oprops snapshot_fields snapshot existsb].
  replace (Nat.eqb (length h) (length h + 1)) with false by (symmetry; apply Nat.eqb_neq; lia).
  cbn [orb].
  replace (h2 !! length h) with (Some (Object Plain rest))
    by (unfold h2; now rewrite lookup_past0).
  cbn [okind oprops].
  now destruct (snapshot_fields _ rest).
Qed.

(** X12. The payload of a sender other than ['data'] is [{"data":{...}}]: no
    [type], and among the properties of [params] no [attachments], so the
    reference records just put there are not sent. *)
Theorem payload_without_attachments
    (sender : string) (params type : value) (w w' : world) (payload : value) :
  sender <> "data" ->
  payload_json sender params type w = (Ok payload, w') ->
  exists fs,
    payload = VStr (render (JObj [("data", JObj fs)]))
    /\ ~ In "attachments" (map fst fs)
    /\ incl (map fst fs) (map fst (own_props (store w) params)).
Proof.
  intros Hs. apply String.eqb_neq in Hs. unfold payload_json. rewrite Hs.
  destruct (is_nullish params); [unfold bind, throw; discriminate|].
  erewrite bind_ok by reflexivity.
  erewrite bind_ok by apply new_object_spec.
  erewrite bind_ok by apply new_object_spec.
  cbn [store with_store].
  set (rest := assoc_remove "attachments" (own_props (store w) params)).
  unfold JSON_stringify. cbn [store with_store].
  rewrite length_app. cbn [length]. rewrite <- app_assoc. cbn [app].
  rewrite walk_data_wrapper.
  destruct (snapshot_fields _ rest) as [fs|] eqn:Hfs; [|discriminate].
  intros [= <- _]. exists fs. split; [reflexivity|].
  pose proof (snapshot_fields_keys _ _ _ Hfs) as Hin.
  destruct (assoc_remove_keys "attachments" (own_props (store w) params))
    as [Hno Hsub].
  split.
  - intros Hk. apply Hno. now apply Hin.
  - intros k Hk. apply Hsub. now apply Hin.
Qed.

(** X14. A first attachment that has its [file] and [filename], but whose file is
    neither valid media nor a Buffer, is rejected for its file type, with
    what [getAxiosError] makes of the error: nothing has been requested and
    nothing written. *)
Theorem sendAttachment_rejects_other_files
    (sender : string) (params : value) (url method : string) (type flags : value)
    (w : world) (la : loc) (pa : list (string * value)) (a : value)
    (rest : list value) :
  prop (store w) params "attachments" = VRef la ->
  store w !! la = Some (Object (Array (a :: rest)) pa) ->
  is_nullish a = false ->
  unusable (store w) a = false ->
  let file := prop (store w) a "file" in
  isValidMedia (store w) file = false ->
  is_buffer (store w) file = false ->
  sendAttachment sender params url method type flags w
  = (Throw (getAxiosError (Error (VStr invalid_file_type))), w).
Proof.
  intros Ha Hla Hna Hu file Hm Hb.
  assert (Hp : is_nullish params = false) by (destruct params; try easy; discriminate Ha).
  unfold sendAttachment.
  erewrite bind_ok by (now apply get_ok). rewrite Ha. cbn [truthy negb].
  erewrite try_throw; [reflexivity|].
  apply bind_throw. unfold check_attachments.
  erewrite bind_ok by (now apply get_ok). rewrite Ha.
  erewrite bind_ok with (a := a :: rest) (w' := w)
    by (unfold iterate; now rewrite Hla).
  cbn [for_each]. apply bind_throw.
  rewrite check_attachment_spec by assumption. cbv zeta.
  fold file. now rewrite Hu, Hm, Hb.
Qed.

End Multipart.

Lemma sendAttachment_sends_the_files_in_order_witness :
  let w := attached_world in
  let url := "interactions/7/tok/callback" in
  let w1 := snd (check_attachments (C := scripted) (VRef 1) w) in
  let items := [VRef 3; VRef 4] in
  file_parts (store w1) 0 items
  = [Part "files[0]" (VRef 8) (VStr "a.png"); Part "files[1]" (VRef 5) (VStr "b.bin")]
  /\ exists payload w3,
       net (snd (sendAttachment (C := scripted) "data" (VRef 1) url "post"
                   (VNum 4) (VNum 64) w))
       = [EFetch "https://example.org/a.png";
          multipart_event (C := scripted) (store w3) "post" url
            (file_parts (store w1) 0 items ++ [Part "payload_json" payload VUndef])].
Proof.
  intros w url w1 items. split; [vm_compute; reflexivity|].
  pose (run := payload_json "data" (VRef 1) (VNum 4)
                 (with_store w1 (rewritten_store (store w1) (VRef 1) (VNum 64) items))).
  exists (match fst run with Ok v => v | Throw _ => VUndef end), (snd run).
  apply (sendAttachment_sends_the_files_in_order (C := scripted) "data" (VRef 1)
           url "post" (VNum 4) (VNum 64) w w1 (snd run) _ 2 items _
           (fst (sendAttachment (C := scripted) "data" (VRef 1) url "post"
                   (VNum 4) (VNum 64) w))).
  - reflexivity.
  - reflexivity.
  - repeat constructor.
  - vm_compute. reflexivity.
  - vm_compute. reflexivity.
  - apply surjective_pairing.
Defined.

Lemma dispatch_checks_the_status_witness :
  let ev := multipart_event (C := answering statusless) (store hi_world) "post"
              "webhooks/42/tok" [] in
  dispatch (C := answering statusless) "post" "webhooks/42/tok" [] hi_world
  = (Ok (VStr "done"),
     with_store (with_event hi_world ev) (store hi_world ++ fst (statusless 2))).
Proof.
  intros ev.
  exact (dispatch_checks_the_status (C := answering statusless) "post"
           "webhooks/42/tok" [] hi_world (fst (statusless 2)) (VRef 2)
           eq_refl eq_refl eq_refl eq_refl).
Defined.

Lemma payload_without_attachments_witness :
  let run := payload_json "body" (VRef 1) VNull attached_world in
  exists payload fs,
    fst run = Ok payload
    /\ payload = VStr (render (JObj [("data", JObj fs)]))
    /\ ~ In "attachments" (map fst fs).
Proof.
  intros run.
  pose (payload := match fst run with Ok v => v | Throw _ => VUndef end).
  assert (Hrun : run = (Ok payload, snd run)) by (vm_compute; reflexivity).
  destruct (payload_without_attachments "body" (VRef 1) VNull
              attached_world (snd run) payload ltac:(discriminate) Hrun)
    as (fs & Hp & Hno & _).
  exists payload, fs. split; [now rewrite Hrun|]. now split.
Defined.

Lemma sendAttachment_rejects_other_files_witness :
  sendAttachment (C := scripted) "data" (VRef 1) "interactions/7/tok/callback"
    "post" (VNum 4) (VNum 0) text_attached_world
  = (Throw (Error (VStr invalid_file_type)), text_attached_world).
Proof.
  exact (sendAttachment_rejects_other_files (C := scripted) "data" (VRef 1)
           "interactions/7/tok/callback" "post" (VNum 4) (VNum 0)
           text_attached_world 2 [] (VRef 3) []
           eq_refl eq_refl eq_refl eq_refl eq_refl eq_refl).
Defined.

(** ** followup.create *)

Section Placeholders.
Context {C : Collaborators}.

Lemma truthy_prop_ref h x k :
  truthy (prop h x k) = true -> k <> "length" ->
  exists l o, x = VRef l /\ h !! l = Some o.
Proof.
  intros Ht Hk. apply String.eqb_neq in Hk.
  destruct x as [| | | |s|l]; try discriminate Ht.
  - unfold prop in Ht. now rewrite Hk in Ht.
  - unfold prop in Ht. destruct (h !! l) as [o|] eqn:Ho; [eauto|discriminate].
Qed.

Lemma placed_refl h : placed h h.
Proof. repeat split; auto. Qed.

Lemma placed_trans h1 h2 h3 : placed h1 h2 -> placed h2 h3 -> placed h1 h3.
Proof.
  intros (L1 & K1 & P1) (L2 & K2 & P2). split; [congruence|]. split.
  - intros v k Hk. now rewrite K2, K1.
  - intros v k.
    assert (Hicon : prop h2 v "icon_url" = prop h1 v "icon_url") by now apply K1.
    destruct (P2 v k) as [E2|(F2 & I2 & Z2)], (P1 v k) as [E1|(F1 & I1 & Z1)].
    + left. congruence.
    + right. repeat split; congruence.
    + right. repeat split; congruence.
    + rewrite Z1 in F2. discriminate F2.
Qed.

Lemma placeholder_not_length k : placeholder_keys k = true -> k <> "length".
Proof. now intros Hk ->. Qed.

Lemma placed_set h x label :
  placeholder_keys label = true ->
  truthy (prop h x "icon_url") = true ->
  truthy (prop h x label) = false ->
  placed h (store_set h x label (VStr zwsp)).
Proof.
  intros Hl Hi Hf. split; [apply length_store_set|]. split.
  - intros v k Hk. apply prop_store_set_other_key. congruence.
  - intros v k.
    destruct (decide (k = label)) as [->|Hne];
      [|left; now apply prop_store_set_other_key].
    destruct (decide (v = x)) as [->|Hv];
      [|left; now apply prop_store_set_elsewhere].
    right. split; [exact Hf|]. split; [exact Hi|].
    destruct (truthy_prop_ref _ _ _ Hi) as (l & o & -> & Ho); [discriminate|].
    eapply prop_store_set_same; eauto. now apply placeholder_not_length.
Qed.

Lemma placed_placeholder h e holder label :
  placeholder_keys label = true -> placed h (placeholder_store h e holder label).
Proof.
  intros Hl. unfold placeholder_store.
  destruct (truthy (prop h (prop h e holder) "icon_url")) eqn:Hi;
    [|apply placed_refl].
  destruct (truthy (prop h (prop h e holder) label)) eqn:Hf; cbn [negb andb];
    [apply placed_refl|].
  now apply placed_set.
Qed.

Lemma placeholder_labelled h e holder label :
  placeholder_keys holder = false -> placeholder_keys label = true ->
  labelled (placeholder_store h e holder label) holder label e.
Proof.
  intros Hh Hl. pose proof (placed_placeholder h e holder label Hl) as (_ & K & _).
  unfold labelled. cbv zeta. rewrite !K by easy. unfold placeholder_store.
  set (x := prop h e holder).
  destruct (truthy (prop h x "icon_url")) eqn:Hi; [|congruence].
  destruct (truthy (prop h x label)) eqn:Hf; cbn [negb andb]; [congruence|].
  intros _.
  destruct (truthy_prop_ref _ _ _ Hi) as (l & o & Hx & Ho); [discriminate|].
  rewrite Hx. erewrite prop_store_set_same; eauto.
  now apply placeholder_not_length.
Qed.

Lemma labelled_placed h h' e holder label :
  placeholder_keys holder = false ->
  labelled h holder label e -> placed h h' -> labelled h' holder label e.
Proof.
  intros Hh Hlab (_ & K & P). unfold labelled in *. cbv zeta in *.
  rewrite !K by easy. intros Hi. specialize (Hlab Hi).
  destruct (P (prop h e holder) label) as [E|(_ & _ & Z)]; [congruence|].
  now rewrite Z.
Qed.

Lemma filled_placed h e :
  placed h (filled h e)
  /\ labelled (filled h e) "footer" "text" e
  /\ labelled (filled h e) "author" "name" e.
Proof.
  unfold filled. split; [|split].
  - eapply placed_trans; now apply placed_placeholder.
  - eapply labelled_placed; [reflexivity| |now apply placed_placeholder].
    now apply placeholder_labelled.
  - now apply placeholder_labelled.
Qed.

Lemma filled_all_placed items : forall h,
  placed h (filled_all h items)
  /\ Forall (fun e => labelled (filled_all h items) "footer" "text" e
                      /\ labelled (filled_all h items) "author" "name" e) items.
Proof.
  induction items as [|e items IH]; intros h; cbn [filled_all fold_left].
  - split; [apply placed_refl|constructor].
  - destruct (filled_placed h e) as (P1 & F1 & A1).
    destruct (IH (filled h e)) as [P2 Hall].
    split; [eapply placed_trans; eauto|].
    constructor; [|exact Hall].
    split; eapply labelled_placed; eauto.
Qed.

(** What has become of a footer, or an author, once the loop is through. *)
Lemma placeholder_set_of h h' e holder label :
  placeholder_keys holder = false ->
  placed h h' -> labelled h' holder label e -> placeholder_set h h' holder label e.
Proof.
  intros Hh (_ & K & P) Hlab. unfold placeholder_set, labelled in *. cbv zeta in *.
  rewrite K in Hlab |- * by easy. rewrite K in Hlab |- * by easy.
  split; [reflexivity|]. split; [reflexivity|].
  set (x := prop h e holder) in *.
  destruct (P x label) as [E|(F & I & Z)].
  - destruct (truthy (prop h x "icon_url")) eqn:Hi; [|easy].
    destruct (truthy (prop h x label)) eqn:Hf; [easy|].
    specialize (Hlab eq_refl). congruence.
  - now rewrite I, F, Z.
Qed.

Lemma placeholder_spec embed holder label w :
  is_nullish embed = false ->
  followup.placeholder embed holder label w
  = (Ok tt, with_store w (placeholder_store (store w) embed holder label)).
Proof.
  intros He. unfold followup.placeholder, placeholder_store. cbv zeta.
  erewrite bind_ok by (now apply get_ok).
  erewrite bind_ok by reflexivity.
  set (x := prop (store w) embed holder).
  destruct (truthy (prop (store w) x "icon_url")) eqn:Hi; cbn [andb];
    [|unfold ret; now rewrite with_store_same].
  erewrite bind_ok by (now apply get_ok).
  erewrite bind_ok by reflexivity. fold x.
  destruct (truthy (prop (store w) x label)); cbn [negb];
    [unfold ret; now rewrite with_store_same|].
  erewrite bind_ok by (now apply get_ok). fold x.
  apply set_ok. destruct x; try easy; discriminate Hi.
Qed.

Lemma fill_spec items : forall w,
  Forall (fun e => is_nullish e = false) items ->
  for_each items followup.fill_placeholders w
  = (Ok tt, with_store w (filled_all (store w) items)).
Proof.
  induction items as [|e items IH]; intros w Hn; cbn [for_each filled_all fold_left].
  - unfold ret. now rewrite with_store_same.
  - apply Forall_cons in Hn as [He Hn].
    erewrite bind_ok.
    2:{ unfold followup.fill_placeholders.
        erewrite bind_ok by (now apply placeholder_spec).
        now apply placeholder_spec. }
    rewrite IH by exact Hn. cbn [store with_store].
    now rewrite !with_store_twice.
Qed.

End Placeholders.

Section Create.
Context {C : Collaborators}.

Lemma valid_same_length h h' v : length h' = length h -> valid h v -> valid h' v.
Proof. intros Hl. destruct v; try easy. rewrite !valid_ref. lia. Qed.

Lemma or_empty_spec x w :
  followup.or_empty x w
  = if has_length (store w) x then (Ok x, w)
    else (Ok (VRef (length (store w))),
          with_store w (store w ++ [Object (Array []) []])).
Proof.
  unfold followup.or_empty, has_length. erewrite bind_ok by reflexivity.
  destruct (truthy (prop (store w) x "length")); [reflexivity|apply new_array_spec].
Qed.

Lemma has_length_app h X x : valid h x -> has_length (h ++ X) x = has_length h x.
Proof. intros Hx. unfold has_length. now rewrite prop_app. Qed.

(** [create] from the body on, in a store where the loop has gone through. *)
Lemma create_tail_spec input flags url w :
  is_nullish input = false ->
  valid (store w) input ->
  valid (store w) (prop (store w) input "components") ->
  let h := store w in
  (let! c := get input "content" in
   let! content := nullish_or c (ret (VStr "")) in
   let! e := get input "embeds" in
   let! embeds_out := followup.or_empty e in
   let! k := get input "components" in
   let! components := followup.or_empty k in
   let! t := get input "tts" in
   let tts := if truthy t then t else VBool false in
   let! a := get input "allowed_mentions" in
   let! allowed_mentions := nullish_or a (ret VNull) in
   let! tn := get input "thread_name" in
   let! thread_name := nullish_or tn (ret VNull) in
   let! at' := get input "attachments" in
   let! attachments := nullish_or at' (new_array []) in
   let! body :=
     new_object [("content", content); ("embeds", embeds_out);
                 ("components", components); ("tts", tts);
                 ("allowed_mentions", allowed_mentions);
                 ("thread_name", thread_name); ("flags", VNum flags);
                 ("attachments", attachments)] in
   let! attempt := attemptHandler "post" url body in
   external extendPayload attempt) w
  = send_post url (VRef (length h + length (create_allocs h input)))
      (with_store w (h ++ create_allocs h input
                       ++ [create_body_object h flags input])).
Proof.
  intros Hi Hv Hvk h. unfold create_allocs, create_body_object. cbv zeta.
  erewrite bind_ok by (now apply get_ok). fold h.
  erewrite bind_ok with
    (a := if is_nullish (prop h input "content") then VStr ""
          else prop h input "content") (w' := w)
    by (unfold nullish_or; now destruct (is_nullish (prop h input "content"))).
  erewrite bind_ok by (now apply get_ok). fold h.
  set (E := if has_length h (prop h input "embeds") then []
            else [Object (Array []) []]).
  erewrite bind_ok with
    (a := if has_length h (prop h input "embeds") then prop h input "embeds"
          else VRef (length h))
    (w' := with_store w (h ++ E)).
  2:{ rewrite or_empty_spec. fold h. unfold E.
      destruct (has_length h (prop h input "embeds")); [|reflexivity].
      now rewrite app_nil_r, with_store_same. }
  erewrite bind_ok by (now apply get_ok). cbn [store with_store].
  rewrite (prop_app h E input) by easy.
  set (K := if has_length h (prop h input "components") then []
            else [Object (Array []) []]).
  erewrite bind_ok with
    (a := if has_length h (prop h input "components")
          then prop h input "components"
          else VRef (length h + length E))
    (w' := with_store w (h ++ E ++ K)).
  2:{ rewrite or_empty_spec. cbn [store with_store].
      rewrite has_length_app by easy. unfold K.
      destruct (has_length h (prop h input "components")).
      - now rewrite app_nil_r.
      - now rewrite with_store_twice, length_app, <- app_assoc. }
  assert (Hv' : valid (h ++ E ++ K) input) by now apply valid_app.
  erewrite bind_ok by (now apply get_ok). cbn [store with_store].
  erewrite bind_ok by (now apply get_ok). cbn [store with_store].
  rewrite !(prop_app h (E ++ K) input) by easy.
  erewrite bind_ok with
    (a := if is_nullish (prop h input "allowed_mentions") then VNull
          else prop h input "allowed_mentions") (w' := with_store w (h ++ E ++ K))
    by (unfold nullish_or; now destruct (is_nullish (prop h input "allowed_mentions"))).
  erewrite bind_ok by (now apply get_ok). cbn [store with_store].
  rewrite !(prop_app h (E ++ K) input) by easy.
  erewrite bind_ok with
    (a := if is_nullish (prop h input "thread_name") then VNull
          else prop h input "thread_name") (w' := with_store w (h ++ E ++ K))
    by (unfold nullish_or; now destruct (is_nullish (prop h input "thread_name"))).
  erewrite bind_ok by (now apply get_ok). cbn [store with_store].
  rewrite !(prop_app h (E ++ K) input) by easy.
  set (A := if is_nullish (prop h input "attachments") then [Object (Array []) []]
            else []).
  erewrite bind_ok with
    (a := if is_nullish (prop h input "attachments")
          then VRef (length h + length E + length K)
          else prop h input "attachments")
    (w' := with_store w (h ++ E ++ K ++ A)).
  2:{ unfold nullish_or, A.
      destruct (is_nullish (prop h input "attachments")).
      - rewrite new_array_spec. cbn [store with_store].
        now rewrite with_store_twice, !length_app, <- !app_assoc, Nat.add_assoc.
      - now rewrite app_nil_r. }
  erewrite bind_ok by apply new_object_spec. cbn [store with_store].
  rewrite with_store_twice, <- !app_assoc, !length_app.
  unfold send_post, E, K, A.
  destruct (has_length h (prop h input "embeds")),
    (has_length h (prop h input "components")),
    (is_nullish (prop h input "attachments"));
    cbn [length app]; rewrite ?Nat.add_0_r;
    repeat first [ reflexivity | lia | progress f_equal ].
Qed.

Lemma elements_items_valid h v items :
  closed h -> elements h v = Some items -> Forall (valid h) items.
Proof.
  intros Hc He. destruct v as [| | | | |l]; try discriminate He.
  destruct (elements_lookup _ _ _ He) as [ps Hl].
  pose proof (closed_lookup _ _ _ Hc Hl) as Hall. unfold values_of in Hall.
  cbn [okind] in Hall. now apply Forall_app in Hall as [_ Hall].
Qed.

Lemma embed_items_valid h input items :
  closed h -> embed_items h input = Some items -> Forall (valid h) items.
Proof.
  intros Hc. unfold embed_items.
  destruct (is_nullish (prop h input "embeds")); [intros [= <-]; constructor|].
  now apply elements_items_valid.
Qed.

(** The loop of [create], with its guard. *)
Lemma create_loop_spec input items w :
  is_nullish input = false ->
  embed_items (store w) input = Some items ->
  Forall (fun e => is_nullish e = false) items ->
  (if truthy (prop (store w) (prop (store w) input "embeds") "length") then
     let! embeds := get input "embeds" in
     let! items := iterate embeds in
     for_each items followup.fill_placeholders
   else ret tt) w
  = (Ok tt, with_store w (filled_all (store w) items)).
Proof.
  intros Hi He Hn. unfold embed_items in He.
  set (e := prop (store w) input "embeds") in *.
  destruct (is_nullish e) eqn:Hne.
  - injection He as <-. replace (prop (store w) e "length") with VUndef
      by now destruct e.
    cbn. unfold ret. now rewrite with_store_same.
  - destruct e as [| | | | |l] eqn:Ee; try discriminate He.
    destruct (elements_lookup _ _ _ He) as [ps Hl].
    assert (Hlen : prop (store w) (VRef l) "length" = VNum (Z.of_nat (length items)))
      by (unfold prop; now rewrite Hl).
    rewrite Hlen. destruct items as [|a items].
    + cbn. unfold ret. now rewrite with_store_same.
    + cbn [truthy length]. rewrite Nat2Z.inj_succ.
      replace (Z.succ (Z.of_nat (length items)) =? 0)%Z with false
        by (symmetry; apply Z.eqb_neq; lia).
      cbn [negb].
      erewrite bind_ok by (now apply get_ok). fold e. rewrite Ee.
      erewrite bind_ok with (a := a :: items) (w' := w)
        by (unfold iterate; now rewrite Hl).
      now apply fill_spec.
Qed.

(** [create] without attachments, up to its request. *)
Lemma create_sends params input w items :
  is_nullish params = false -> is_nullish input = false ->
  attachedb (store w) input = false ->
  closed (store w) -> valid (store w) input ->
  embed_items (store w) input = Some items ->
  Forall (fun e => is_nullish e = false) items ->
  followup.create params input w
  = send_post (webhook_endpoint (store w) params) (post_body w items input)
      (post_world w items input).
Proof.
  intros Hp Hi Ha Hc Hv He Hn. unfold followup.create.
  erewrite bind_ok by (apply default_object_given; now apply nullish_not_undef).
  erewrite bind_ok by (now apply ephemeral_flags_spec).
  erewrite bind_ok by (now apply webhook_path_spec).
  erewrite bind_ok by (now apply has_attachments_spec).
  rewrite Ha.
  erewrite bind_ok by (now apply get_ok).
  erewrite bind_ok by reflexivity.
  erewrite bind_ok by (now apply (create_loop_spec input items)).
  destruct (filled_all_placed items (store w)) as [(L & K & _) _].
  set (h1 := filled_all (store w) items) in *.
  rewrite create_tail_spec; cbn [store with_store].
  - unfold post_body, post_world. cbv zeta. fold h1.
    now rewrite with_store_twice.
  - exact Hi.
  - now apply (valid_same_length (store w)).
  - rewrite K by reflexivity. apply (valid_same_length (store w)); [exact L|].
    now apply closed_prop_valid.
Qed.

Lemma create_body_lookup h flags input :
  (h ++ create_allocs h input ++ [create_body_object h flags input])
    !! (length h + length (create_allocs h input))
  = Some (create_body_object h flags input).
Proof. apply lookup_after. Qed.

Lemma placed_has_length h h' x : placed h h' -> has_length h' x = has_length h x.
Proof. intros (_ & K & _). unfold has_length. now rewrite K. Qed.

(** X15. Without attachments, the body [create] sends holds, for [content], the
    caller's or [''] when it is [undefined] or [null]; for [embeds] and for
    [components], the caller's when it has a truthy length and an empty
    array otherwise; for [tts], the caller's when truthy and [false]
    otherwise; for [allowed_mentions] and [thread_name], the caller's or
    [null]; for [flags], 64 when [input.ephemeral] is truthy and 0 otherwise,
    whatever [input.flags] holds; for [attachments], the caller's or an empty
    array. *)
Theorem create_sends_its_defaults
    (params input : value) (w : world) (items : list value) :
  is_nullish params = false -> is_nullish input = false ->
  attachedb (store w) input = false ->
  closed (store w) -> valid (store w) input ->
  embed_items (store w) input = Some items ->
  Forall (fun e => is_nullish e = false) items ->
  let wb := post_world w items input in
  let body := post_body w items input in
  followup.create params input w
  = send_post (webhook_endpoint (store w) params) body wb
  /\ create_defaults (store w) (store wb) input body.
Proof.
  intros Hp Hi Ha Hc Hv He Hn wb body.
  split; [now apply create_sends|].
  destruct (filled_all_placed items (store w)) as [P _].
  pose proof P as (L & K & _).
  unfold wb, body, post_world, post_body, create_defaults. cbv zeta.
  set (h := store w) in *. set (h1 := filled_all h items) in *.
  cbn [store with_store].
  set (hs := h1 ++ create_allocs h1 input
                ++ [create_body_object h1 (flags_of h input) input]).
  assert (Hb : hs !! (length h1 + length (create_allocs h1 input))
               = Some (create_body_object h1 (flags_of h input) input))
    by apply create_body_lookup.
  unfold create_body_object in Hb. cbv zeta in Hb.
  rewrite !(prop_plain hs _ _ _ Hb).
  cbv [named assoc String.eqb Ascii.eqb Bool.eqb].
  rewrite !(placed_has_length h h1) by exact P.
  rewrite !K by reflexivity.
  unfold hs, create_allocs.
  rewrite !(placed_has_length h h1) by exact P.
  rewrite !K by reflexivity.
  repeat split.
  - destruct (has_length h (prop h input "embeds")); [reflexivity|].
    unfold elements. now rewrite lookup_past0.
  - destruct (has_length h (prop h input "components")); [reflexivity|].
    destruct (has_length h (prop h input "embeds")); cbn [app].
    + unfold elements. now rewrite lookup_past0.
    + unfold elements. rewrite (lookup_past h1 _ 1). reflexivity.
  - destruct (is_nullish (prop h input "attachments")); [|reflexivity].
    destruct (has_length h (prop h input "embeds")),
      (has_length h (prop h input "components")); cbn [app];
      unfold elements.
    all: rewrite <- ?Nat.add_assoc;
      first [ rewrite lookup_past0 | rewrite lookup_past ]; reflexivity.
Qed.

(** X16. Without attachments, by the time [create] sends its body every embed of
    the input has been through the loop: a footer with a truthy [icon_url]
    and a falsy [text] has the zero-width space for its text, any other
    footer the text it had; and so for an author and its [name]. *)
Theorem create_fills_placeholders
    (params input : value) (w : world) (items : list value) :
  is_nullish params = false -> is_nullish input = false ->
  attachedb (store w) input = false ->
  closed (store w) -> valid (store w) input ->
  embed_items (store w) input = Some items ->
  Forall (fun e => is_nullish e = false) items ->
  let wb := post_world w items input in
  followup.create params input w
  = send_post (webhook_endpoint (store w) params) (post_body w items input) wb
  /\ Forall (fun e => placeholder_set (store w) (store wb) "footer" "text" e
                      /\ placeholder_set (store w) (store wb) "author" "name" e)
       items.
Proof.
  intros Hp Hi Ha Hc Hv He Hn wb.
  split; [now apply create_sends|].
  destruct (filled_all_placed items (store w)) as [P Hall].
  pose proof P as (L & K & _).
  pose proof (embed_items_valid _ _ _ Hc He) as Hvalid.
  unfold wb, post_world. cbv zeta. cbn [store with_store].
  set (h := store w) in *. set (h1 := filled_all h items) in *.
  rewrite Forall_forall in Hall, Hvalid |- *. intros e Hin.
  destruct (Hall e Hin) as [Hf Ha'].
  assert (Hlift : forall holder label,
            placeholder_keys holder = false ->
            labelled h1 holder label e ->
            placeholder_set h (h1 ++ create_allocs h1 input
                                  ++ [create_body_object h1 (flags_of h input) input])
              holder label e).
  { intros holder label Hh Hlab.
    destruct (placeholder_set_of h h1 e holder label Hh P Hlab) as (E1 & E2 & E3).
    assert (Hve : valid h1 e) by (apply (valid_same_length h); auto).
    assert (Hvx : valid h1 (prop h e holder))
      by (apply (valid_same_length h); [exact L|]; apply closed_prop_valid; auto).
    unfold placeholder_set. cbv zeta.
    rewrite (prop_app h1 _ e) by exact Hve.
    rewrite !(prop_app h1 _ (prop h e holder)) by exact Hvx.
    auto. }
  split; now apply Hlift.
Qed.

End Create.

Lemma create_sends_its_defaults_witness :
  let wb := post_world create_world [VRef 3] (VRef 1) in
  let body := post_body create_world [VRef 3] (VRef 1) in
  followup.create (C := scripted) (VRef 0) (VRef 1) create_world
  = send_post (C := scripted) "webhooks/42/tok" body wb
  /\ prop (store wb) body "content" = VStr ""
  /\ prop (store wb) body "embeds" = VRef 2
  /\ prop (store wb) body "tts" = VNum 1
  /\ prop (store wb) body "flags" = VNum 0.
Proof.
  intros wb body.
  destruct (create_sends_its_defaults (C := scripted) (VRef 0) (VRef 1) create_world
              [VRef 3] eq_refl eq_refl eq_refl eq_refl eq_refl eq_refl
              ltac:(repeat constructor))
    as [Hrun (Hc & He & _ & Ht & _ & _ & Hf & _)].
  split; [exact Hrun|]. split; [exact Hc|]. split; [exact He|].
  split; [exact Ht|exact Hf].
Defined.

Lemma create_fills_placeholders_witness :
  let wb := post_world create_world [VRef 3] (VRef 1) in
  followup.create (C := scripted) (VRef 0) (VRef 1) create_world
  = send_post (C := scripted) "webhooks/42/tok"
      (post_body create_world [VRef 3] (VRef 1)) wb
  /\ prop (store wb) (VRef 4) "text" = VStr zwsp
  /\ prop (store wb) (VRef 5) "name" = VStr "me".
Proof.
  intros wb.
  destruct (create_fills_placeholders (C := scripted) (VRef 0) (VRef 1) create_world
              [VRef 3] eq_refl eq_refl eq_refl eq_refl eq_refl eq_refl
              ltac:(repeat constructor))
    as [Hrun Hall].
  split; [exact Hrun|].
  destruct (Forall_inv Hall) as [(_ & _ & Hfoot) (_ & _ & Hauth)].
  split; [exact Hfoot|exact Hauth].
Defined.

(** ** The edits, besides their embeds and components *)

Section EditRest.
Context {C : Collaborators}.

Lemma edit_rest_claim_holds h input message :
  edit_rest_claim h (sent_store h input message) input message
    (VRef (body_loc h input message)).
Proof.
  unfold edit_rest_claim. cbv zeta.
  rewrite !(prop_plain _ _ _ _ (sent_body_lookup h input message)).
  cbv [named assoc String.eqb Ascii.eqb Bool.eqb].
  split; [reflexivity|]. split; [reflexivity|].
  destruct (is_nullish (prop h input "attachments")) eqn:Hm; [|reflexivity].
  destruct (is_nullish (prop h message "attachments")) eqn:Hk; [|reflexivity].
  unfold elements, sent_store, edit_allocs, attachments_fresh.
  rewrite Hm, Hk. cbn [andb].
  destruct (components_fresh h input message).
  - rewrite <- !app_assoc, (app_assoc (embeds_allocs h input message)).
    replace (length h + length (embeds_allocs h input message) + 1)
      with (length h + length (embeds_allocs h input message ++ [Object (Array []) []]))
      by (rewrite length_app; cbn; lia).
    cbn [app]. now rewrite lookup_after.
  - rewrite <- !app_assoc. cbn [app]. now rewrite lookup_after.
Qed.

(** X17. In an edit without attachments the body holds, for [content], the
    caller's, and the content of the message when the caller's is
    [undefined] or [null], so that an empty string is sent as it is; for
    [allowed_mentions], the caller's and nothing else; for [attachments],
    the caller's, else those of the message, else an empty array. *)
Theorem edit_keeps_content_and_attachments
    (params input : value) (w : world) (objs : list object) (message : value) :
  is_nullish params = false -> is_nullish input = false ->
  attachedb (store w) input = false ->
  let h := store w ++ objs in
  closed h -> valid h input -> valid h message ->
  (let p := original_endpoint (store w) params in
   network w (EAttempt "get" p VUndef) = Ok (objs, message) ->
   truthy message = true ->
   let wb := patch_world w p objs input message in
   let body := patch_body w objs input message in
   callback.edit_original params input w = send_patch p body wb
   /\ edit_rest_claim h (store wb) input message body)
  /\ (let p := followup_endpoint (store w) params input in
      network w (EAttempt "get" p VUndef) = Ok (objs, message) ->
      is_nullish message = false ->
      let wb := patch_world w p objs input message in
      let body := patch_body w objs input message in
      followup.edit params input w = send_patch p body wb
      /\ edit_rest_claim h (store wb) input message body).
Proof.
  intros Hp Hi Ha h Hc Hvi Hvm.
  apply (edits_send edit_rest_claim); auto.
  intros h0. apply edit_rest_claim_holds.
Qed.

(** X18. [followup.get] and [followup.edit] are rejected with what their GET is
    rejected with, and [edit] then sends no PATCH: nothing is caught, as it
    is in [get_original] and [edit_original]. *)
Theorem followup_rejections_are_not_caught
    (params input : value) (w : world) (e : error) :
  is_nullish params = false -> is_nullish input = false ->
  let get := EAttempt "get" (followup_endpoint (store w) params input) VUndef in
  network w get = Throw e ->
  followup.get params input w = (Throw e, with_event w get)
  /\ (attachedb (store w) input = false ->
      followup.edit params input w = (Throw e, with_event w get)).
Proof.
  intros Hp Hi get Hn. split.
  - unfold followup.get.
    erewrite bind_ok by (now apply followup_message_path_spec).
    apply bind_throw. unfold attemptHandler, call. fold get. now rewrite Hn.
  - intros Ha. rewrite followup_edit_json by assumption. fold get. now rewrite Hn.
Qed.

End EditRest.

Lemma edit_keeps_content_and_attachments_witness :
  let w := content_edit_world in
  let p := "webhooks/42/tok/messages/55?" in
  let wb := patch_world w p (fst (scripted_message 2)) (VRef 1) (VRef 2) in
  let body := patch_body w (fst (scripted_message 2)) (VRef 1) (VRef 2) in
  followup.edit (C := scripted) (VRef 0) (VRef 1) w
  = send_patch (C := scripted) p body wb
  /\ prop (store wb) body "content" = VStr "new"
  /\ prop (store wb) body "allowed_mentions" = VUndef.
Proof.
  intros w p wb body.
  destruct (proj2 (edit_keeps_content_and_attachments (C := scripted) (VRef 0)
                     (VRef 1) w (fst (scripted_message 2)) (VRef 2)
                     eq_refl eq_refl eq_refl eq_refl eq_refl eq_refl)
              eq_refl eq_refl)
    as [Hrun (Hc & Hm & _)].
  split; [exact Hrun|]. split; [exact Hc|exact Hm].
Defined.

Lemma followup_rejections_are_not_caught_witness :
  let w := content_edit_world in
  let get := EAttempt "get" "webhooks/42/tok/messages/55?" VUndef in
  followup.get (C := offline) (VRef 0) (VRef 1) w
  = (Throw (Rejected (VStr "ECONNRESET")), with_event w get)
  /\ followup.edit (C := offline) (VRef 0) (VRef 1) w
     = (Throw (Rejected (VStr "ECONNRESET")), with_event w get).
Proof.
  intros w get.
  destruct (followup_rejections_are_not_caught (C := offline) (VRef 0) (VRef 1) w
              (Rejected (VStr "ECONNRESET")) eq_refl eq_refl eq_refl)
    as [Hg He].
  split; [exact Hg|exact (He eq_refl)].
Defined.

(** ** What the operations leave alone *)

Section LeftAlone.
Context {C : Collaborators}.

(** X19. An edit without attachments writes to no object, so neither to the
    caller's input nor to the message it has fetched: the store it leaves is
    the store it found, with new objects after it, and when the GET has
    answered, it is the store as it was once the fetched message had come in
    (the objects [objs] of the answer, put after the store the call found),
    with new objects after it. *)
Theorem edits_without_attachments_only_allocate
    (params input : value) (w w' : world) (r : result value) :
  is_nullish params = false -> is_nullish input = false ->
  attachedb (store w) input = false ->
  (callback.edit_original params input w = (r, w') ->
   grows (store w) (store w')
   /\ forall objs message,
        network w (EAttempt "get" (original_endpoint (store w) params) VUndef)
        = Ok (objs, message) ->
        grows (store w ++ objs) (store w'))
  /\ (followup.edit params input w = (r, w') ->
      grows (store w) (store w')
      /\ forall objs message,
           network w (EAttempt "get" (followup_endpoint (store w) params input)
                        VUndef)
           = Ok (objs, message) ->
           grows (store w ++ objs) (store w')).
Proof.
  intros Hp Hi Ha.
  pose proof grows_refl as Rr. pose proof grows_trans as Rt.
  pose proof grows_grow as Rg.
  assert (Hsend : forall p message,
            steps grows (let! body := edit_body input message in send_patch p body)).
  { intros p message. pose proof (steps_edit_body grows Rr Rt Rg) as Re.
    unfold send_patch. steps_fast. }
  split.
  - rewrite edit_original_json by assumption.
    destruct (network w _) as [[objs message]|e];
      [|intros [= <- <-]; split; [apply Rr|discriminate]].
    cbv zeta. destruct (truthy message).
    + intros Hrun. apply Hsend in Hrun. cbn [store with_store with_event] in Hrun.
      split; [eapply Rt; [apply Rg|exact Hrun]|].
      intros objs' message' [= <- <-]. exact Hrun.
    + intros [= <- <-]. split; [apply Rg|].
      intros objs' message' [= <- <-]. apply Rr.
  - rewrite followup_edit_json by assumption.
    destruct (network w _) as [[objs message]|e];
      [|intros [= <- <-]; split; [apply Rr|discriminate]].
    intros Hrun. apply Hsend in Hrun. cbn [store with_store with_event] in Hrun.
    split; [eapply Rt; [apply Rg|exact Hrun]|].
    intros objs' message' [= <- <-]. exact Hrun.
Qed.

(** X22. Nothing but [handleCallbacks] writes to the console: [reply], whose
    [catch] only throws again, the edits, [followup.create] and the wrappers
    of [attemptHandler] log nothing, however they end. *)
Theorem operations_log_nothing (params input : value) :
  quiet (callback.get_original params)
  /\ quiet (callback.reply params input)
  /\ quiet (callback.edit_original params input)
  /\ quiet (callback.delete_original params)
  /\ quiet (followup.get params input)
  /\ quiet (followup.create params input)
  /\ quiet (followup.edit params input)
  /\ quiet (followup.del params input).
Proof.
  unfold callback.get_original, callback.reply, callback.reply_post,
    callback.reply_result, callback.edit_original, callback.delete_original,
    followup.get, followup.create, followup.fill_placeholders,
    followup.placeholder, followup.or_empty, followup.edit, followup.del,
    followup.message_path, followup_message_path, original_path, callback_path,
    webhook_path, has_attachments, ephemeral_flags, default_object, edit_body,
    merged_embed, fallback, given_empty, sendAttachment, check_attachments,
    check_attachment, fetch_file, append_files, append_file, rewrite_attachments,
    payload_json, dispatch.
  repeat (split; [quiet_auto|]). quiet_auto.
Qed.

End LeftAlone.

(** ** The requests of the operations *)

Section Requests.
Context {C : Collaborators}.
Variable P : event -> Prop.

Lemma sends_refl w : sends P w w.
Proof. exists []. split; [now rewrite app_nil_r|constructor]. Qed.

Lemma sends_trans w1 w2 w3 : sends P w1 w2 -> sends P w2 w3 -> sends P w1 w3.
Proof.
  intros (e1 & N1 & F1) (e2 & N2 & F2). exists (e1 ++ e2). split.
  - now rewrite N2, N1, app_assoc.
  - now apply Forall_app.
Qed.

Lemma sends_store w h : sends P w (with_store w h).
Proof. exists []. split; [cbn; now rewrite app_nil_r|constructor]. Qed.

Lemma sends_log w e : sends P w (with_log w e).
Proof. exists []. split; [cbn; now rewrite app_nil_r|constructor]. Qed.

Lemma sends_event w e : P e -> sends P w (with_event w e).
Proof. intros He. exists [e]. split; [reflexivity|]. now repeat constructor. Qed.

Lemma sends_handleCallbacks method path type data return_date :
  (forall body, P (https_event method path body)) ->
  runs (sends P) (handleCallbacks method path type data return_date).
Proof.
  intros He. pose proof sends_refl. pose proof sends_trans. pose proof sends_store.
  unfold handleCallbacks. runs_auto.
  - apply sends_event. apply He.
  - intros w r w' [= <- <-]. apply sends_log.
Qed.

Lemma sends_sendAttachment sender params url method type flags :
  (forall u, P (EFetch u)) ->
  (forall u form headers, P (EMultipart method u form headers)) ->
  runs (sends P) (sendAttachment sender params url method type flags).
Proof.
  intros Hf Hm. pose proof sends_refl. pose proof sends_trans. pose proof sends_store.
  unfold sendAttachment, check_attachments, check_attachment, fetch_file,
    append_files, append_file, rewrite_attachments, payload_json, dispatch.
  runs_auto; apply sends_event; auto.
Qed.

Lemma sends_edit_body input message : runs (sends P) (edit_body input message).
Proof.
  pose proof sends_refl. pose proof sends_trans. pose proof sends_store.
  unfold edit_body, merged_embed, fallback, given_empty. runs_auto.
Qed.

End Requests.

Section Methods.
Context {C : Collaborators}.

Ltac sends_auto P :=
  pose proof (sends_refl P) as Rr;
  pose proof (sends_trans P) as Rt;
  pose proof (sends_store P) as Rs;
  pose proof (sends_edit_body P) as Re;
  runs_auto;
  try (first [ apply sends_handleCallbacks; intro
             | apply sends_sendAttachment; intros
             | apply sends_event ];
       first [ discriminate | reflexivity ]).

(** X23. No operation but [delete_original] and [followup.del] makes a DELETE
    request, and these two make no other; [get_original] and [followup.get]
    make only GET requests. *)
Theorem only_the_deletes_delete (params input : value) :
  (runs (sends deletes_nothing) (callback.get_original params)
   /\ runs (sends deletes_nothing) (callback.reply params input)
   /\ runs (sends deletes_nothing) (callback.defer params input)
   /\ runs (sends deletes_nothing) (callback.component_defer params input)
   /\ runs (sends deletes_nothing) (callback.component_update params input)
   /\ runs (sends deletes_nothing) (callback.autocomplete_reply params input)
   /\ runs (sends deletes_nothing) (callback.modal_reply params input)
   /\ runs (sends deletes_nothing) (callback.edit_original params input)
   /\ runs (sends deletes_nothing) (callback.upgrade params input)
   /\ runs (sends deletes_nothing) (followup.get params input)
   /\ runs (sends deletes_nothing) (followup.create params input)
   /\ runs (sends deletes_nothing) (followup.edit params input))
  /\ (runs (sends only_deletes) (callback.delete_original params)
      /\ runs (sends only_deletes) (followup.del params input))
  /\ (runs (sends only_gets) (callback.get_original params)
      /\ runs (sends only_gets) (followup.get params input)).
Proof.
  unfold callback.get_original, callback.reply, callback.reply_post,
    callback.reply_result, callback.defer, callback.component_defer,
    callback.deferred, callback.component_update, callback.autocomplete_reply,
    callback.modal_reply, callback.upgrade, callback.plain_callback,
    callback.edit_original, callback.delete_original,
    followup.get, followup.create, followup.fill_placeholders,
    followup.placeholder, followup.or_empty, followup.edit, followup.del,
    followup.message_path, followup_message_path, original_path, callback_path,
    webhook_path, has_attachments, ephemeral_flags, default_object.
  split; [|split].
  - repeat (split; [sends_auto deletes_nothing|]). sends_auto deletes_nothing.
  - split; sends_auto only_deletes.
  - split; sends_auto only_gets.
Qed.

End Methods.

Lemma edits_without_attachments_only_allocate_witness :
  grows (store content_edit_world ++ fst (scripted_message 2))
    (store (snd (followup.edit (C := scripted) (VRef 0) (VRef 1) content_edit_world))).
Proof.
  exact (proj2 (proj2 (edits_without_attachments_only_allocate (C := scripted)
                         (VRef 0) (VRef 1) content_edit_world _ _
                         eq_refl eq_refl eq_refl)
                  (surjective_pairing _))
           (fst (scripted_message 2)) (snd (scripted_message 2)) eq_refl).
Defined.

Lemma operations_log_nothing_witness :
  console (snd (callback.reply (C := answering bad_request) (VRef 0) (VRef 1)
                  hi_world))
  = [].
Proof.
  exact (proj1 (proj2 (operations_log_nothing (C := answering bad_request)
                         (VRef 0) (VRef 1)))
           hi_world _ _ (surjective_pairing _)).
Defined.

Lemma only_the_deletes_delete_witness :
  sends deletes_nothing attached_world
    (snd (callback.reply (C := scripted) (VRef 0) (VRef 1) attached_world)).
Proof.
  exact (proj1 (proj2 (proj1 (only_the_deletes_delete (C := scripted)
                                (VRef 0) (VRef 1))))
           attached_world _ _ (surjective_pairing _)).
Defined.

Section Attached.
Context {C : Collaborators}.

Lemma attachedb_flags_written h input :
  attachedb (flags_written h input) input = attachedb h input.
Proof.
  unfold attachedb, flags_written.
  now rewrite !prop_store_set_other_key by discriminate.
Qed.

Ltac multipart_auto :=
  pose proof (sends_refl multipart_only) as Rr;
  pose proof (sends_trans multipart_only) as Rt;
  pose proof (sends_store multipart_only) as Rs;
  runs_auto;
  try (apply sends_sendAttachment; intros; exact I).

(** X24. With attachments, an operation makes no request but those of
    [sendAttachment], the fetch of files and the multipart request: the
    edits do not fetch the message, whose content, embeds and components are
    therefore not merged into what is sent. *)
Theorem attached_operations_only_dispatch
    (params input : value) (w w' : world) (r : result value) :
  is_nullish params = false -> is_nullish input = false ->
  attachedb (store w) input = true ->
  (callback.reply params input w = (r, w') -> sends multipart_only w w')
  /\ (callback.component_update params input w = (r, w') ->
      sends multipart_only w w')
  /\ (callback.edit_original params input w = (r, w') -> sends multipart_only w w')
  /\ (followup.create params input w = (r, w') -> sends multipart_only w w')
  /\ (followup.edit params input w = (r, w') -> sends multipart_only w w').
Proof.
  intros Hp Hi Ha.
  assert (Ha1 : attachedb (flags_written (store w) input) input = true)
    by now rewrite attachedb_flags_written.
  split; [|split; [|split; [|split]]].
  - rewrite reply_enters by assumption. fold (flags_written (store w) input).
    erewrite bind_ok by (now apply has_attachments_spec).
    cbn [store with_store]. rewrite Ha1.
    match goal with
    | |- ?m ?w1 = _ -> _ =>
        assert (Hq : runs (sends multipart_only) m)
          by (unfold callback_path, callback.reply_result; multipart_auto)
    end.
    intros Hrun. exact (Hq _ _ _ Hrun).
  - unfold callback.component_update.
    erewrite bind_ok by (apply default_object_given; now apply nullish_not_undef).
    erewrite bind_ok by (now apply callback_path_spec).
    erewrite bind_ok by (now apply ephemeral_flags_spec).
    erewrite bind_ok by (now apply set_ok).
    fold (flags_written (store w) input).
    erewrite bind_ok by (now apply has_attachments_spec).
    cbn [store with_store]. rewrite Ha1.
    match goal with
    | |- ?m ?w1 = _ -> _ =>
        assert (Hq : runs (sends multipart_only) m) by multipart_auto
    end.
    intros Hrun. exact (Hq _ _ _ Hrun).
  - unfold callback.edit_original.
    erewrite bind_ok by (apply default_object_given; now apply nullish_not_undef).
    erewrite bind_ok by (now apply original_path_spec).
    erewrite bind_ok by (now apply has_attachments_spec).
    rewrite Ha. apply sends_sendAttachment; intros; exact I.
  - unfold followup.create.
    erewrite bind_ok by (apply default_object_given; now apply nullish_not_undef).
    erewrite bind_ok by (now apply ephemeral_flags_spec).
    erewrite bind_ok by (now apply webhook_path_spec).
    erewrite bind_ok by (now apply has_attachments_spec).
    rewrite Ha. apply sends_sendAttachment; intros; exact I.
  - unfold followup.edit.
    erewrite bind_ok by (now apply ephemeral_flags_spec).
    erewrite bind_ok by (now apply followup_message_path_spec).
    erewrite bind_ok by (now apply has_attachments_spec).
    rewrite Ha. apply sends_sendAttachment; intros; exact I.
Qed.

End Attached.

Lemma attached_operations_only_dispatch_witness :
  sends multipart_only attached_world
    (snd (callback.edit_original (C := scripted) (VRef 0) (VRef 1) attached_world)).
Proof.
  exact (proj1 (proj2 (proj2 (attached_operations_only_dispatch (C := scripted)
                                (VRef 0) (VRef 1) attached_world _ _
                                eq_refl eq_refl eq_refl)))
           (surjective_pairing _)).
Defined.
